(** * minimax-voice-clone-tool: a shallow embedding of the Go sources

    The development follows the package layout of the repository:
    [md5]/[hex] (the two standard-library functions [GenerateVoiceID]
    is built from), [config], [exporter], [minimax], and [app] (the
    Bubble Tea model with its single [Update] dispatch function).

    Go values are embedded as follows.  A Go [string] is a
    [String.string] (a sequence of bytes), a [[]byte] is a
    [list Byte.byte], a Go [int]/[int64] is a [Z] kept in the signed
    64-bit range by [wrap64], an [error] is the text of its message
    ([option string] where the Go code tests [err != nil]), a
    [map[string]bool] is a [gmap string bool] and a slice is a [list].
    Calls that leave the process (file system, clock, HTTP) go through
    the oracle record [Runtime]; the writes and requests are logged in
    the [World]. *)

From Stdlib Require Import ZArith Strings.Byte Ascii Sorting.Sorted Sorting.Permutation.
From stdpp Require Import gmap strings list fin_maps pretty.

Local Open Scope string_scope.
Local Open Scope list_scope.
Local Open Scope Z_scope.

(** ** Machine integers *)

(** Go's [int] on the 64-bit targets of the tool: two's complement wrap. *)
Definition wrap64 (x : Z) : Z := (x + 2 ^ 63) mod 2 ^ 64 - 2 ^ 63.

Definition int_add (x y : Z) : Z := wrap64 (x + y).
Definition int_sub (x y : Z) : Z := wrap64 (x - y).

(** [len(s)] of a slice, as a Go [int]. *)
Definition len {A} (l : list A) : Z := Z.of_nat (length l).

(** ** Results of fallible calls *)

(** A Go pair [(value, error)] where exactly one side is meaningful. *)
Inductive result (A : Type) : Type :=
| Ok (a : A)
| Err (e : string).
Arguments Ok {A} a.
Arguments Err {A} e.

(** ** Bytes and hexadecimal text *)

Definition byte_to_Z (b : byte) : Z := Z.of_N (Byte.to_N b).

Definition Z_to_byte (z : Z) : byte :=
  match Byte.of_N (Z.to_N (z mod 256)) with
  | Some b => b
  | None => x00
  end.

Definition ascii_of_Z (z : Z) : ascii := ascii_of_N (Z.to_N z).

Module hex.

(** [const hextable = "0123456789abcdef"] *)
Definition hextable : string := "0123456789abcdef".

Definition hexdigit (n : Z) : ascii :=
  match String.get (Z.to_nat n) hextable with
  | Some c => c
  | None => "0"%char
  end.

(** [hex.EncodeToString]: two digits per byte, high nibble first. *)
Fixpoint EncodeToString (src : list byte) : string :=
  match src with
  | [] => ""
  | b :: rest =>
      String (hexdigit (Z.shiftr (byte_to_Z b) 4))
        (String (hexdigit (Z.land (byte_to_Z b) 15)) (EncodeToString rest))
  end.

End hex.

(** ** crypto/md5 (RFC 1321) *)

Module md5.

Definition mask32 (x : Z) : Z := Z.land x 4294967295.

Definition add32 (x y : Z) : Z := mask32 (x + y).

Definition rotl32 (x : Z) (c : Z) : Z :=
  mask32 (Z.lor (Z.shiftl x c) (Z.shiftr x (32 - c))).

Definition not32 (x : Z) : Z := Z.lxor x 4294967295.

(** Per-round left rotations. *)
Definition shifts : list Z :=
  [7; 12; 17; 22; 7; 12; 17; 22; 7; 12; 17; 22; 7; 12; 17; 22;
   5; 9; 14; 20; 5; 9; 14; 20; 5; 9; 14; 20; 5; 9; 14; 20;
   4; 11; 16; 23; 4; 11; 16; 23; 4; 11; 16; 23; 4; 11; 16; 23;
   6; 10; 15; 21; 6; 10; 15; 21; 6; 10; 15; 21; 6; 10; 15; 21].

(** The sine table: [floor (2^32 * |sin (i + 1)|)]. *)
Definition sines : list Z :=
  [0xd76aa478; 0xe8c7b756; 0x242070db; 0xc1bdceee;
   0xf57c0faf; 0x4787c62a; 0xa8304613; 0xfd469501;
   0x698098d8; 0x8b44f7af; 0xffff5bb1; 0x895cd7be;
   0x6b901122; 0xfd987193; 0xa679438e; 0x49b40821;
   0xf61e2562; 0xc040b340; 0x265e5a51; 0xe9b6c7aa;
   0xd62f105d; 0x02441453; 0xd8a1e681; 0xe7d3fbc8;
   0x21e1cde6; 0xc33707d6; 0xf4d50d87; 0x455a14ed;
   0xa9e3e905; 0xfcefa3f8; 0x676f02d9; 0x8d2a4c8a;
   0xfffa3942; 0x8771f681; 0x6d9d6122; 0xfde5380c;
   0xa4beea44; 0x4bdecfa9; 0xf6bb4b60; 0xbebfbc70;
   0x289b7ec6; 0xeaa127fa; 0xd4ef3085; 0x04881d05;
   0xd9d4d039; 0xe6db99e5; 0x1fa27cf8; 0xc4ac5665;
   0xf4292244; 0x432aff97; 0xab9423a7; 0xfc93a039;
   0x655b59c3; 0x8f0ccc92; 0xffeff47d; 0x85845dd1;
   0x6fa87e4f; 0xfe2ce6e0; 0xa3014314; 0x4e0811a1;
   0xf7537e82; 0xbd3af235; 0x2ad7d2bb; 0xeb86d391].

Definition nthZ (l : list Z) (i : nat) : Z := nth i l 0.

(** Little-endian encoding of a 32-bit word and of the 64-bit length. *)
Definition le_bytes (n : nat) (x : Z) : list byte :=
  map (fun i : nat => Z_to_byte (Z.shiftr x (8 * Z.of_nat i))) (seq 0 n).

Fixpoint le_word (bs : list byte) : Z :=
  match bs with
  | [] => 0
  | b :: rest => Z.lor (byte_to_Z b) (Z.shiftl (le_word rest) 8)
  end.

(** Message padding: a [0x80] byte, zeros up to 56 mod 64, then the bit
    length on 8 bytes. *)
Definition padding (msg : list byte) : list byte :=
  let n := length msg in
  let zeros := ((64 + 55 - n mod 64) mod 64)%nat in
  x80 :: repeat x00 zeros ++ le_bytes 8 (Z.land (8 * Z.of_nat n) (2 ^ 64 - 1)).

(** The sixteen words of a 64-byte block. *)
Definition block_words (blk : list byte) : list Z :=
  map (fun i : nat => le_word (take 4 (drop (4 * i) blk))) (seq 0 16).

Definition state : Type := Z * Z * Z * Z.

Definition round (M : list Z) (st : state) (i : nat) : state :=
  let '(a, b, c, d) := st in
  let q := (i / 16)%nat in
  let f :=
    match q with
    | 0%nat => Z.lor (Z.land b c) (Z.land (not32 b) d)
    | 1%nat => Z.lor (Z.land d b) (Z.land (not32 d) c)
    | 2%nat => Z.lxor (Z.lxor b c) d
    | _ => Z.lxor c (Z.lor b (not32 d))
    end in
  let g :=
    match q with
    | 0%nat => i
    | 1%nat => ((5 * i + 1) mod 16)%nat
    | 2%nat => ((3 * i + 5) mod 16)%nat
    | _ => ((7 * i) mod 16)%nat
    end in
  let t := add32 (add32 (add32 a f) (nthZ sines i)) (nthZ M g) in
  (d, add32 b (rotl32 t (nthZ shifts i)), b, c).

Definition block (st : state) (blk : list byte) : state :=
  let M := block_words blk in
  let '(a, b, c, d) := st in
  let '(a', b', c', d') := foldl (round M) st (seq 0 64) in
  (add32 a a', add32 b b', add32 c c', add32 d d').

Fixpoint blocks (n : nat) (st : state) (data : list byte) : state :=
  match n with
  | O => st
  | S n' => blocks n' (block st (take 64 data)) (drop 64 data)
  end.

Definition init : state := (0x67452301, 0xefcdab89, 0x98badcfe, 0x10325476).

(** [md5.Sum]: the 16-byte digest. *)
Definition Sum (msg : list byte) : list byte :=
  let data := msg ++ padding msg in
  let '(a, b, c, d) := blocks (length data / 64) init data in
  le_bytes 4 a ++ le_bytes 4 b ++ le_bytes 4 c ++ le_bytes 4 d.

End md5.

(** [[]byte(s)] and [string(b)]. *)
Definition bytes_of_string (s : string) : list byte :=
  String.list_byte_of_string s.

Definition string_of_bytes (b : list byte) : string :=
  String.string_of_list_byte b.

(** ** unicode/utf8, unicode and bytes: what [bytes.TrimSpace] runs *)

Module utf8.

Definition RuneError : Z := 0xFFFD.
Definition RuneSelf : Z := 0x80.
Definition UTFMax : nat := 4.

(** The [first] table joined with [acceptRanges]: for a leading byte,
    the sequence length and the admissible range of the second byte;
    [None] for the bytes that cannot start a multi-byte sequence. *)
Definition first (p0 : Z) : option (nat * Z * Z) :=
  if p0 <? 0xC2 then None
  else if p0 <? 0xE0 then Some (2%nat, 0x80, 0xBF)
  else if p0 =? 0xE0 then Some (3%nat, 0xA0, 0xBF)
  else if p0 <? 0xED then Some (3%nat, 0x80, 0xBF)
  else if p0 =? 0xED then Some (3%nat, 0x80, 0x9F)
  else if p0 <? 0xF0 then Some (3%nat, 0x80, 0xBF)
  else if p0 =? 0xF0 then Some (4%nat, 0x90, 0xBF)
  else if p0 <? 0xF4 then Some (4%nat, 0x80, 0xBF)
  else if p0 =? 0xF4 then Some (4%nat, 0x80, 0x8F)
  else None.

Definition cont (b : Z) : bool := (0x80 <=? b) && (b <=? 0xBF).

(** [utf8.DecodeRune]: the rune at the head of [p] and its width. *)
Definition DecodeRune (p : list byte) : Z * nat :=
  match map byte_to_Z p with
  | [] => (RuneError, 0%nat)
  | p0 :: rest =>
      if p0 <? RuneSelf then (p0, 1%nat)
      else
        match first p0 with
        | None => (RuneError, 1%nat)
        | Some (sz, lo, hi) =>
            if (length p <? sz)%nat then (RuneError, 1%nat)
            else
              match rest with
              | b1 :: rest1 =>
                  if (b1 <? lo) || (hi <? b1) then (RuneError, 1%nat)
                  else if (sz <=? 2)%nat then
                    (Z.lor (Z.shiftl (Z.land p0 0x1F) 6) (Z.land b1 0x3F), 2%nat)
                  else
                    match rest1 with
                    | b2 :: rest2 =>
                        if negb (cont b2) then (RuneError, 1%nat)
                        else if (sz <=? 3)%nat then
                          (Z.lor (Z.lor (Z.shiftl (Z.land p0 0x0F) 12)
                                        (Z.shiftl (Z.land b1 0x3F) 6))
                                 (Z.land b2 0x3F), 3%nat)
                        else
                          match rest2 with
                          | b3 :: _ =>
                              if negb (cont b3) then (RuneError, 1%nat)
                              else
                                (Z.lor (Z.lor (Z.lor (Z.shiftl (Z.land p0 0x07) 18)
                                                     (Z.shiftl (Z.land b1 0x3F) 12))
                                              (Z.shiftl (Z.land b2 0x3F) 6))
                                       (Z.land b3 0x3F), 4%nat)
                          | [] => (RuneError, 1%nat)
                          end
                    | [] => (RuneError, 1%nat)
                    end
              | [] => (RuneError, 1%nat)
              end
        end
  end.

(** [utf8.RuneStart]: not a continuation byte. *)
Definition RuneStart (b : Z) : bool := negb (Z.land b 0xC0 =? 0x80).

(** The backward scan of [DecodeLastRune]:
    [for start--; start >= lim; start-- { if RuneStart(p[start]) { break } }]. *)
Fixpoint scanStart (p : list byte) (lim : Z) (n : nat) (start : Z) : Z :=
  match n with
  | O => start
  | S n' =>
      if start <? lim then start
      else
        match p !! Z.to_nat start with
        | Some b =>
            if RuneStart (byte_to_Z b) then start
            else scanStart p lim n' (start - 1)
        | None => start
        end
  end.

(** [utf8.DecodeLastRune]: the rune at the tail of [p] and its width. *)
Definition DecodeLastRune (p : list byte) : Z * nat :=
  let end_ := len p in
  match last p with
  | None => (RuneError, 0%nat)
  | Some b =>
      let r := byte_to_Z b in
      if r <? RuneSelf then (r, 1%nat)
      else
        let lim := Z.max 0 (end_ - Z.of_nat UTFMax) in
        let start := Z.max 0 (scanStart p lim UTFMax (end_ - 2)) in
        let '(r', size) := DecodeRune (drop (Z.to_nat start) p) in
        if start + Z.of_nat size =? end_ then (r', size)
        else (RuneError, 1%nat)
  end.

End utf8.

Module unicode.

(** [unicode.IsSpace]: the Latin-1 switch, then the [White_Space] table. *)
Definition IsSpace (r : Z) : bool :=
  if r <=? 0xFF then
    ((0x09 <=? r) && (r <=? 0x0D)) || (r =? 0x20) || (r =? 0x85) || (r =? 0xA0)
  else
    (r =? 0x1680) || ((0x2000 <=? r) && (r <=? 0x200A))
    || (r =? 0x2028) || (r =? 0x2029) || (r =? 0x202F)
    || (r =? 0x205F) || (r =? 0x3000).

End unicode.

Module bytes.

(** [asciiSpace]: the six ASCII white-space bytes. *)
Definition asciiSpace (c : Z) : bool :=
  (c =? 0x09) || (c =? 0x0A) || (c =? 0x0B) || (c =? 0x0C) || (c =? 0x0D)
  || (c =? 0x20).

(** [indexFunc(s, f, false)] resumed at [s]: the suffix that starts at
    the first rune failing [f], [None] when every rune satisfies it. *)
Fixpoint indexFuncFalse (fuel : nat) (f : Z -> bool) (s : list byte)
  : option (list byte) :=
  match fuel, s with
  | _, [] => None
  | O, _ => None
  | S fuel', c :: _ =>
      let '(r, wid) :=
        if byte_to_Z c <? utf8.RuneSelf then (byte_to_Z c, 1%nat)
        else utf8.DecodeRune s in
      if negb (f r) then Some s
      else indexFuncFalse fuel' f (drop wid s)
  end.

(** [bytes.TrimLeftFunc] *)
Definition TrimLeftFunc (s : list byte) (f : Z -> bool) : list byte :=
  match indexFuncFalse (length s) f s with
  | None => []
  | Some t => t
  end.

(** [lastIndexFunc(s, f, false)] from index [i] downwards; [-1] when
    every rune satisfies [f]. *)
Fixpoint lastIndexFuncFalse (fuel : nat) (f : Z -> bool) (s : list byte)
    (i : nat) : Z :=
  match fuel, i with
  | _, O => -1
  | O, _ => -1
  | S fuel', S i' =>
      let c := match s !! i' with Some b => byte_to_Z b | None => 0 end in
      let '(r, size) :=
        if c <? utf8.RuneSelf then (c, 1%nat)
        else utf8.DecodeLastRune (take i s) in
      let j := (i - size)%nat in
      if negb (f r) then Z.of_nat j
      else lastIndexFuncFalse fuel' f s j
  end.

(** [bytes.TrimRightFunc] *)
Definition TrimRightFunc (s : list byte) (f : Z -> bool) : list byte :=
  let i := lastIndexFuncFalse (length s) f s (length s) in
  let stop :=
    match (if i <? 0 then None else s !! Z.to_nat i) with
    | Some b =>
        if utf8.RuneSelf <=? byte_to_Z b
        then i + Z.of_nat (snd (utf8.DecodeRune (drop (Z.to_nat i) s)))
        else i + 1
    | None => i + 1
    end in
  take (Z.to_nat stop) s.

(** [bytes.TrimFunc] *)
Definition TrimFunc (s : list byte) (f : Z -> bool) : list byte :=
  TrimRightFunc (TrimLeftFunc s f) f.

(** The first loop of [TrimSpace]: drop leading ASCII spaces; a byte
    above [0x7F] hands the rest to [TrimFunc] ([inr], the function
    returns), otherwise the loop ends with [s[start:]] ([inl]). *)
Fixpoint trimStart (s : list byte) : list byte + list byte :=
  match s with
  | [] => inl []
  | c :: rest =>
      if utf8.RuneSelf <=? byte_to_Z c then inr (TrimFunc s unicode.IsSpace)
      else if asciiSpace (byte_to_Z c) then trimStart rest
      else inl s
  end.

(** The second loop, over the reversed remainder: [stop] walks down
    from [len(s)]. *)
Fixpoint trimStop (r : list byte) : list byte + list byte :=
  match r with
  | [] => inl []
  | c :: rest =>
      if utf8.RuneSelf <=? byte_to_Z c
      then inr (TrimFunc (rev r) unicode.IsSpace)
      else if asciiSpace (byte_to_Z c) then trimStop rest
      else inl (rev r)
  end.

(** [bytes.TrimSpace] *)
Definition TrimSpace (s : list byte) : list byte :=
  match trimStart s with
  | inr t => t
  | inl t =>
      match trimStop (rev t) with
      | inr u => u
      | inl u => u
      end
  end.

End bytes.

Module strings.

(** [strings.TrimSpace]: the same scan as [bytes.TrimSpace], on a string. *)
Definition TrimSpace (s : string) : string :=
  string_of_bytes (bytes.TrimSpace (bytes_of_string s)).

(** [strings.Join(elems, sep)] *)
Fixpoint Join (elems : list string) (sep : string) : string :=
  match elems with
  | [] => ""
  | [e] => e
  | e :: rest => e +:+ sep +:+ Join rest sep
  end.

End strings.

Module filepath.

(** [filepath.Ext]: the suffix from the last dot of the last path
    element ([os.IsPathSeparator] is ['/'] on the tool's targets).
    [acc] holds [path[i:]] while [i] walks down from the end. *)
Fixpoint extFrom (rpath : list ascii) (acc : string) : string :=
  match rpath with
  | [] => ""
  | c :: rest =>
      if Ascii.eqb c "/" then ""
      else if Ascii.eqb c "." then String c acc
      else extFrom rest (String c acc)
  end.

Definition Ext (path : string) : string :=
  extFrom (rev (String.list_ascii_of_string path)) "".

End filepath.

(** ** The outside world *)

(** [time.Time]: an instant counted from January 1, year 1, 00:00:00 UTC,
    with the offset of its location. *)
Record Time := mkTime { abs_sec : Z; abs_nsec : Z; zone_offset : Z }.

(** [Time.IsZero] *)
Definition IsZero (t : Time) : bool := (abs_sec t =? 0) && (abs_nsec t =? 0).

(** [os.DirEntry], as far as [listDirectory] reads it. *)
Record DirEntry := mkDirEntry { Name : string; IsDir : bool }.

(** An [error] of package [os], with what [os.IsNotExist] answers. *)
Record PathError := mkPathError { pe_msg : string; pe_notExist : bool }.

Module http.

(** The two request bodies the client builds. *)
Inductive Body : Type :=
| MultipartForm (purpose filename : string) (file : list byte)
| JSONVoiceClone (file_id : Z) (voice_id : string).

Record Request := mkRequest {
  Method : string;
  URL : string;
  Authorization : string;
  ReqBody : Body
}.

(** A response: the status code and what [io.ReadAll(resp.Body)] gives. *)
Record Response := mkResponse {
  StatusCode : Z;
  RespBody : result (list byte)
}.

Definition StatusOK : Z := 200.

End http.

(** The writes and requests the program issues. *)
Inductive Effect : Type :=
| MkdirAll (path : string)
| Create (path : string)
| CsvWrite (path : string) (row : list string)
| CsvFlush (path : string)
| Close (path : string)
| WriteFile (path : string) (data : list byte)
| OpenAppend (path : string)
| HttpDo (req : http.Request).

(** What the program cannot decide itself: the clock, the file system,
    the network, and the standard-library functions whose tables are
    not part of the repository.  Every oracle that depends on the moment
    of the call takes the logical clock of the [World]. *)
Class Runtime := {
  time_Now : nat -> Time;
  time_Format : Time -> string -> string;
  strings_ToLower : string -> string;
  sort_Slice : forall A : Type, list A -> (A -> A -> bool) -> list A;
  filepath_Dir : string -> string;
  filepath_Join : string -> string -> string;
  filepath_Base : string -> string;
  filepath_Abs : nat -> string -> result string;
  os_UserHomeDir : nat -> result string;
  os_Getwd : nat -> result string;
  os_ReadFile : nat -> string -> PathError + list byte;
  os_Open : nat -> string -> result (result (list byte));
  os_ReadDir : nat -> string -> result (list DirEntry);
  os_Stat : nat -> string -> result bool;
  os_fault : nat -> Effect -> option string;
  http_Do : nat -> http.Request -> result http.Response
}.

(** The state of the world as the program sees it: a logical clock and
    the log of the effects it issued, each with its outcome. *)
Record World := mkWorld {
  clock : nat;
  effects : list (Effect * option string)
}.

(** Computations that may consult or change the world. *)
Definition IO (A : Type) : Type := World -> A * World.

Definition ret {A} (a : A) : IO A := fun w => (a, w).

Definition bind {A B} (c : IO A) (k : A -> IO B) : IO B :=
  fun w => let '(a, w') := c w in k a w'.

Declare Scope io_scope.
Delimit Scope io_scope with io.
Bind Scope io_scope with IO.

Notation "x <- c ; k" := (bind c (fun x => k))
  (at level 20, c at level 100, k at level 200, only parsing) : io_scope.
Notation "' pat <- c ; k" := (bind c (fun x => match x with pat => k end))
  (at level 20, pat pattern, c at level 100, k at level 200, only parsing)
  : io_scope.

Section IOPrimitives.
Context {rt : Runtime}.

Definition tick (w : World) : World :=
  {| clock := S (clock w); effects := effects w |}.

(** Ask an oracle at the current instant. *)
Definition ask {A} (oracle : nat -> A) : IO A :=
  fun w => (oracle (clock w), tick w).

(** Issue an effect; the outcome is [None] on success. *)
Definition perform (e : Effect) : IO (option string) :=
  fun w =>
    let r := os_fault (clock w) e in
    (r, {| clock := S (clock w); effects := effects w ++ [(e, r)] |}).

(** [time.Now()] *)
Definition Now : IO Time := ask time_Now.

End IOPrimitives.

(** *** The files behind the effect log *)

Module fsview.

(** What is on disk, and what a [csv.Writer] still buffers: rows reach
    the file when the writer is flushed. *)
Record Files := mkFiles {
  csv_files : gmap string (list (list string));
  csv_pending : gmap string (list (list string));
  raw_files : gmap string (list byte)
}.

Definition empty : Files :=
  {| csv_files := ∅; csv_pending := ∅; raw_files := ∅ |}.

Definition rows_of (m : gmap string (list (list string))) (p : string)
  : list (list string) := default [] (m !! p).

(** An effect that failed changes nothing. *)
Definition apply (fs : Files) (e : Effect * option string) : Files :=
  match e with
  | (Create p, None) =>
      {| csv_files := <[p := []]> (csv_files fs);
         csv_pending := <[p := []]> (csv_pending fs);
         raw_files := delete p (raw_files fs) |}
  | (CsvWrite p row, None) =>
      {| csv_files := csv_files fs;
         csv_pending := <[p := rows_of (csv_pending fs) p ++ [row]]> (csv_pending fs);
         raw_files := raw_files fs |}
  | (CsvFlush p, None) =>
      {| csv_files :=
           match csv_files fs !! p with
           | Some rows => <[p := rows ++ rows_of (csv_pending fs) p]> (csv_files fs)
           | None => csv_files fs
           end;
         csv_pending := <[p := []]> (csv_pending fs);
         raw_files := raw_files fs |}
  | (WriteFile p data, None) =>
      {| csv_files := delete p (csv_files fs);
         csv_pending := csv_pending fs;
         raw_files := <[p := data]> (raw_files fs) |}
  | _ => fs
  end.

Definition files_of (w : World) : Files := foldl apply empty (effects w).

(** The paths that hold a file. *)
Definition exists_file (w : World) (p : string) : bool :=
  bool_decide (is_Some (csv_files (files_of w) !! p))
  || bool_decide (is_Some (raw_files (files_of w) !! p)).

End fsview.

(** ** package config *)

Module config.

Record Config := mkConfig {
  MinimaxSecret : string;
  MinimaxGroup : string
}.

(** go-toml: [Unmarshal(data, &cfg)] overwrites the fields the document
    names and keeps the others. *)
Class Toml := {
  toml_Unmarshal : list byte -> Config -> result Config;
  toml_Marshal : Config -> result (list byte)
}.

(** [func (c Config) IsComplete() bool] *)
Definition IsComplete (c : Config) : bool :=
  negb (String.eqb (MinimaxSecret c) "") && negb (String.eqb (MinimaxGroup c) "").

Section WithRuntime.
Context {rt : Runtime} {toml : Toml}.

(** [func Load(path string) (Config, error)] *)
Definition Load (path : string) : IO (Config * option string) :=
  (let cfg := mkConfig "" "" in
   r <- ask (fun t => os_ReadFile t path);
   match r with
   | inl err =>
       if pe_notExist err then ret (cfg, None)
       else ret (cfg, Some ("read config: " +:+ pe_msg err))
   | inr data =>
       if len (bytes.TrimSpace data) =? 0 then ret (cfg, None)
       else
         match toml_Unmarshal data cfg with
         | Err e => ret (mkConfig "" "", Some ("parse config: " +:+ e))
         | Ok cfg' => ret (cfg', None)
         end
   end)%io.

(** [func Save(path string, cfg Config) error] *)
Definition Save (path : string) (cfg : Config) : IO (option string) :=
  (match toml_Marshal cfg with
   | Err e => ret (Some ("marshal config: " +:+ e))
   | Ok data =>
       r <- perform (WriteFile path data);
       match r with
       | Some e => ret (Some ("write config: " +:+ e))
       | None => ret None
       end
   end)%io.

End WithRuntime.
End config.

(** ** package exporter *)

Module exporter.

(** [type Record struct] ([Record] is a reserved word here). *)
Record ExportRecord := mkRecord {
  FilePath : string;
  MinimaxFileID : string;
  MinimaxVoiceID : string;
  Status : string;
  ErrorReason : string;
  UpdatedAt : Time
}.

Definition RFC3339 : string := "2006-01-02T15:04:05Z07:00".

Definition header : list string :=
  ["file_path"; "minimax_file_id"; "minimax_voice_id"; "status";
   "error_reason"; "updated_at"].

Section WithRuntime.
Context {rt : Runtime}.

(** The row built in the body of the loop. *)
Definition row_of (rec : ExportRecord) : list string :=
  let row := [FilePath rec; MinimaxFileID rec; MinimaxVoiceID rec;
              Status rec; ErrorReason rec] in
  if negb (IsZero (UpdatedAt rec))
  then row ++ [time_Format (UpdatedAt rec) RFC3339]
  else row ++ [""].

(** [for _, rec := range records { ... writer.Write(row) ... }] up to
    the [return fullPath, nil] that follows it. *)
Fixpoint writeRows (fullPath : string) (records : list ExportRecord)
  : IO (result string) :=
  match records with
  | [] => ret (Ok fullPath)
  | rec :: rest =>
      (r <- perform (CsvWrite fullPath (row_of rec));
       match r with
       | Some e => ret (Err ("write row: " +:+ e))
       | None => writeRows fullPath rest
       end)%io
  end.

(** [func ToCSV(records []Record, downloadsDir string) (string, error)].
    The two deferred calls run, flush first, on every return that
    follows [os.Create]. *)
Definition ToCSV (records : list ExportRecord) (downloadsDir : string)
  : IO (result string) :=
  (if String.eqb downloadsDir "" then
     ret (Err "downloads directory not provided")
   else
     r <- perform (MkdirAll downloadsDir);
     match r with
     | Some e => ret (Err ("ensure downloads directory: " +:+ e))
     | None =>
         if len records =? 0 then ret (Err "没有可导出的记录")
         else
           now <- Now;
           let filename :=
             "minimax_voice_export_" +:+ time_Format now "20060102_150405"
             +:+ ".csv" in
           let fullPath := filepath_Join downloadsDir filename in
           r <- perform (Create fullPath);
           match r with
           | Some e => ret (Err ("create export file: " +:+ e))
           | None =>
               res <- (r <- perform (CsvWrite fullPath header);
                       match r with
                       | Some e => ret (Err ("write header: " +:+ e))
                       | None => writeRows fullPath records
                       end);
               _ <- perform (CsvFlush fullPath);
               _ <- perform (Close fullPath);
               ret res
           end
     end)%io.

End WithRuntime.
End exporter.

(** ** package minimax *)

Module minimax.

Record Client := mkClient {
  apiKey : string;
  groupID : string
}.

Record BaseResp := mkBaseResp {
  StatusCode : Z;
  StatusMsg : string
}.

Record VoiceCloneResponse := mkVoiceCloneResponse {
  InputSensitive : bool;
  InputSensitiveType : Z;
  DemoAudio : string;
  clone_BaseResp : BaseResp
}.

Record FileInfo := mkFileInfo {
  FileID : Z;
  Bytes : Z;
  CreatedAt : Z;
  Filename : string;
  Purpose : string
}.

Record UploadResponse := mkUploadResponse {
  File : FileInfo;
  upload_BaseResp : BaseResp
}.


(** encoding/json: decoding of the two response bodies. *)
Class Json := {
  json_Unmarshal_Upload : list byte -> result UploadResponse;
  json_Unmarshal_Clone : list byte -> result VoiceCloneResponse
}.

(** [func NewClient(apiKey, groupID string) *Client] *)
Definition NewClient (apiKey groupID : string) : Client :=
  mkClient apiKey groupID.

(** [full[len(full)-6:]] *)
Definition last6 (full : string) : string :=
  String.substring (String.length full - 6) 6 full.

(** The identifier [GenerateVoiceID] prints from the bytes it hashed. *)
Definition voiceIDOf (content : list byte) : string :=
  "minimax-voice-" +:+ last6 (hex.EncodeToString (md5.Sum content)).

Section WithRuntime.
Context {rt : Runtime} {json : Json}.

(** [c.httpClient.Do(req)]: the request is logged with its transport
    error, if any. *)
Definition Do (req : http.Request) : IO (result http.Response) :=
  fun w =>
    let r := http_Do (clock w) req in
    (r, {| clock := S (clock w);
           effects := effects w
                      ++ [(HttpDo req, match r with Err e => Some e | Ok _ => None end)] |}).

(** [func GenerateVoiceID(path string) (string, error)] *)
Definition GenerateVoiceID (path : string) : IO (result string) :=
  (r <- ask (fun t => filepath_Abs t path);
   match r with
   | Err e => ret (Err ("resolve path for hash: " +:+ e))
   | Ok absPath =>
       r <- ask (fun t => os_Open t absPath);
       match r with
       | Err e => ret (Err ("open file for hash: " +:+ e))
       | Ok (Err e) => ret (Err ("hash file: " +:+ e))
       | Ok (Ok content) => ret (Ok (voiceIDOf content))
       end
   end)%io.

(** [func (c *Client) UploadFile(ctx, filePath)], returning
    [*UploadResponse] and [error]. *)
Definition UploadFile (c : Client) (filePath : string)
  : IO (result UploadResponse) :=
  (if String.eqb (apiKey c) "" then ret (Err "missing MiniMax API key")
   else
     r <- ask (fun t => filepath_Abs t filePath);
     match r with
     | Err e => ret (Err ("resolve absolute path: " +:+ e))
     | Ok absPath =>
         r <- ask (fun t => os_Open t absPath);
         match r with
         | Err e => ret (Err ("open file: " +:+ e))
         | Ok (Err e) => ret (Err ("copy file data: " +:+ e))
         | Ok (Ok data) =>
             let req :=
               http.mkRequest "POST" "https://api.minimaxi.com/v1/files/upload"
                 ("Bearer " +:+ apiKey c)
                 (http.MultipartForm "voice_clone" (filepath_Base absPath) data) in
             r <- Do req;
             match r with
             | Err e => ret (Err ("execute upload request: " +:+ e))
             | Ok resp =>
                 match http.RespBody resp with
                 | Err e => ret (Err ("read upload response: " +:+ e))
                 | Ok body =>
                     if negb (http.StatusCode resp =? http.StatusOK) then
                       ret (Err ("upload failed: status "
                                 +:+ pretty (http.StatusCode resp)
                                 +:+ ", body: " +:+ string_of_bytes body))
                     else
                       match json_Unmarshal_Upload body with
                       | Err e => ret (Err ("decode upload response: " +:+ e))
                       | Ok result =>
                           if negb (StatusCode (upload_BaseResp result) =? 0) then
                             ret (Err ("minimax upload failed: "
                                       +:+ pretty (StatusCode (upload_BaseResp result))
                                       +:+ " " +:+ StatusMsg (upload_BaseResp result)))
                           else ret (Ok result)
                       end
                 end
             end
         end
     end)%io.

(** [func (c *Client) CloneWithFileID(ctx, fileID, voiceID)], returning
    [*VoiceCloneResponse] and [error]. *)
Definition CloneWithFileID (c : Client) (fileID : Z) (voiceID : string)
  : IO (result VoiceCloneResponse) :=
  (if String.eqb (apiKey c) "" || String.eqb (groupID c) "" then
     ret (Err "missing MiniMax credentials")
   else
     let url := "https://api.minimaxi.com/v1/voice_clone?GroupId=" +:+ groupID c in
     let req :=
       http.mkRequest "POST" url ("Bearer " +:+ apiKey c)
         (http.JSONVoiceClone fileID voiceID) in
     r <- Do req;
     match r with
     | Err e => ret (Err ("execute clone request: " +:+ e))
     | Ok resp =>
         match http.RespBody resp with
         | Err e => ret (Err ("read clone response: " +:+ e))
         | Ok respBody =>
             if negb (http.StatusCode resp =? http.StatusOK) then
               ret (Err ("clone failed: status " +:+ pretty (http.StatusCode resp)
                         +:+ ", body: " +:+ string_of_bytes respBody))
             else
               match json_Unmarshal_Clone respBody with
               | Err e => ret (Err ("decode clone response: " +:+ e))
               | Ok result =>
                   if negb (StatusCode (clone_BaseResp result) =? 0) then
                     ret (Err ("minimax clone failed: "
                               +:+ pretty (StatusCode (clone_BaseResp result))
                               +:+ " " +:+ StatusMsg (clone_BaseResp result)))
                   else ret (Ok result)
               end
         end
     end)%io.


End WithRuntime.
End minimax.

(** ** package system *)

Module system.

Record Paths := mkPaths {
  ConfigDir : string;
  ConfigFile : string;
  DataDir : string;
  LogsDir : string;
  LogFile : string;
  DBFile : string;
  DownloadsDir : string
}.

Section WithRuntime.
Context {rt : Runtime}.

(** [func ResolvePaths() (Paths, error)] *)
Definition ResolvePaths : IO (result Paths) :=
  (r <- ask os_UserHomeDir;
   match r with
   | Err e => ret (Err ("resolve home dir: " +:+ e))
   | Ok home =>
       let configDir := filepath_Join home ".minimax" in
       let dataDir := filepath_Join home "minimax" in
       let logsDir := filepath_Join dataDir "logs" in
       let downloadsDir := filepath_Join home "Downloads" in
       ret (Ok {| ConfigDir := configDir;
                  ConfigFile := filepath_Join configDir "config.toml";
                  DataDir := dataDir;
                  LogsDir := logsDir;
                  LogFile := filepath_Join logsDir "app.log";
                  DBFile := filepath_Join dataDir "minimax.db";
                  DownloadsDir := downloadsDir |})
   end)%io.

Fixpoint ensureEach (dirs : list string) : IO (option string) :=
  match dirs with
  | [] => ret None
  | dir :: rest =>
      (r <- perform (MkdirAll dir);
       match r with
       | Some e => ret (Some ("create dir " +:+ dir +:+ ": " +:+ e))
       | None => ensureEach rest
       end)%io
  end.

(** [func EnsureDirs(paths Paths) error] *)
Definition EnsureDirs (paths : Paths) : IO (option string) :=
  ensureEach [ConfigDir paths; DataDir paths; LogsDir paths].

End WithRuntime.
End system.

(** ** package logging *)

Module logging.
Section WithRuntime.
Context {rt : Runtime}.

(** [func Setup(logPath string) (zerolog.Logger, func() error, error)]:
    only the error is modelled, the log lines themselves are not. *)
Definition Setup (logPath : string) : IO (option string) :=
  (r <- perform (OpenAppend logPath);
   match r with
   | Some e => ret (Some ("open log file: " +:+ e))
   | None => ret None
   end)%io.

End WithRuntime.
End logging.

(** ** package app *)

Module app.

Inductive appState : Type :=
| stateConfig
| stateBrowser
| stateConfirm
| stateCloning
| stateSummary
| stateExporting.

#[global] Instance appState_eq_dec : EqDecision appState.
Proof. solve_decision. Defined.

Record fileItem := mkFileItem {
  name : string;
  path : string;
  isDir : bool;
  isParent : bool
}.

(** [type cloneStepMsg struct] ([Err_] and [Record_] are the fields
    [Err] and [Record]). *)
Record cloneStepMsg := mkCloneStepMsg {
  Path : string;
  VoiceID : string;
  Message : string;
  Err_ : option string;
  Timestamp : Time;
  Logs : list string;
  Record_ : option exporter.ExportRecord
}.

(** The messages [Update] switches on; [KeyMsg] carries [msg.String()],
    [libMsg] stands for every message of the libraries (spinner ticks,
    cursor blinks) that falls through the switch. *)
Inductive Msg : Type :=
| dirLoadedMsg (dir : string) (Items : list fileItem)
| errMsg (err : string)
| WindowSizeMsg (Width Height : Z)
| KeyMsg (key : string)
| CloneStepMsg (msg : cloneStepMsg)
| cloneFinishedMsg (Success Failed : Z)
| exportResultMsg (file : string) (err : option string)
| libMsg (tag : nat).

(** The commands [Update] hands back to the runtime.  A closure is
    represented by a constructor holding what it captured; [Panic]
    stands for a Go run-time panic (index out of range, nil
    dereference), which ends the program. *)
#[warnings="-register-all"]
Inductive Cmd : Type :=
| Nil
| Quit
| Panic (reason : string)
| Batch (cmds : list Cmd)
| SpinnerTick
| LoadDirectory (dir : string)
| CloneFile (client : option minimax.Client) (file : string)
| CloneFinished (Success Failed : Z)
| Export (records : list exporter.ExportRecord) (downloadsDir : string).

(** [list.Model] of bubbles: the items and the cursor. *)
Record listModel := mkListModel {
  items : list fileItem;
  cursor : Z;
  list_width : Z;
  list_height : Z
}.

(** [textinput.Model] of bubbles: the text and the focus. *)
Record textInput := mkTextInput {
  Value : string;
  focus : bool
}.

(** [viewport.Model] of bubbles. *)
Record viewportModel := mkViewport {
  vp_Width : Z;
  vp_Height : Z;
  vp_content : string;
  vp_YOffset : Z
}.

(** What the bubbles components do with a message or a new content. *)
Class Bubbles := {
  list_Update : listModel -> Msg -> listModel;
  textinput_Update : textInput -> Msg -> textInput;
  viewport_SetContent : viewportModel -> string -> viewportModel;
  viewport_GotoBottom : viewportModel -> viewportModel;
  spinner_Update : Msg -> Cmd
}.

(** [list.Model.SelectedItem] *)
Definition SelectedItem (l : listModel) : option fileItem :=
  if (cursor l <? 0) || (len (items l) =? 0) || (len (items l) <=? cursor l)
  then None
  else items l !! Z.to_nat (cursor l).

(** [SetItems] followed by [Select(0)] on a non-empty list. *)
Definition SetItems (l : listModel) (its : list fileItem) : listModel :=
  {| items := its; cursor := cursor l;
     list_width := list_width l; list_height := list_height l |}.

Definition Select (l : listModel) (i : Z) : listModel :=
  {| items := items l; cursor := i;
     list_width := list_width l; list_height := list_height l |}.

Definition SetSize (l : listModel) (w h : Z) : listModel :=
  {| items := items l; cursor := cursor l; list_width := w; list_height := h |}.

Definition viewport_New (w h : Z) : viewportModel :=
  {| vp_Width := w; vp_Height := h; vp_content := ""; vp_YOffset := 0 |}.

Definition Focus (t : textInput) : textInput := {| Value := Value t; focus := true |}.
Definition Blur (t : textInput) : textInput := {| Value := Value t; focus := false |}.

(** [type model struct]; the logger, the list delegate and the spinner
    carry no state the dispatch function reads ([list_] is the field
    [list]). *)
Record model := mkModel {
  state : appState;
  cfg : config.Config;
  paths : system.Paths;
  rootPath : string;
  homePath : string;
  minimax : option minimax.Client;
  list_ : listModel;
  selected : gmap string bool;
  selectedOrder : list string;
  width : Z;
  height : Z;
  statusMsg : string;
  errorMsg : string;
  infoMsg : string;
  currentDir : string;
  textInputs : list textInput;
  activeInput : Z;
  confirmLines : list string;
  viewport : viewportModel;
  logs : list string;
  cloneQueue : list string;
  cloneIndex : Z;
  cloneSuccess : Z;
  cloneFailed : Z;
  pendingReload : bool;
  results : list exporter.ExportRecord;
  lastExportPath : string
}.

(** The assignments [m.field = v]. *)
Definition set_state (v : appState) (m : model) : model :=
  {| state := v; cfg := cfg m; paths := paths m; rootPath := rootPath m;
     homePath := homePath m; minimax := minimax m; list_ := list_ m;
     selected := selected m; selectedOrder := selectedOrder m;
     width := width m; height := height m; statusMsg := statusMsg m;
     errorMsg := errorMsg m; infoMsg := infoMsg m;
     currentDir := currentDir m; textInputs := textInputs m;
     activeInput := activeInput m; confirmLines := confirmLines m;
     viewport := viewport m; logs := logs m; cloneQueue := cloneQueue m;
     cloneIndex := cloneIndex m; cloneSuccess := cloneSuccess m;
     cloneFailed := cloneFailed m; pendingReload := pendingReload m;
     results := results m; lastExportPath := lastExportPath m |}.

Definition set_cfg (v : config.Config) (m : model) : model :=
  {| state := state m; cfg := v; paths := paths m; rootPath := rootPath m;
     homePath := homePath m; minimax := minimax m; list_ := list_ m;
     selected := selected m; selectedOrder := selectedOrder m;
     width := width m; height := height m; statusMsg := statusMsg m;
     errorMsg := errorMsg m; infoMsg := infoMsg m;
     currentDir := currentDir m; textInputs := textInputs m;
     activeInput := activeInput m; confirmLines := confirmLines m;
     viewport := viewport m; logs := logs m; cloneQueue := cloneQueue m;
     cloneIndex := cloneIndex m; cloneSuccess := cloneSuccess m;
     cloneFailed := cloneFailed m; pendingReload := pendingReload m;
     results := results m; lastExportPath := lastExportPath m |}.

Definition set_minimax (v : option minimax.Client) (m : model) : model :=
  {| state := state m; cfg := cfg m; paths := paths m;
     rootPath := rootPath m; homePath := homePath m; minimax := v;
     list_ := list_ m; selected := selected m;
     selectedOrder := selectedOrder m; width := width m; height := height m;
     statusMsg := statusMsg m; errorMsg := errorMsg m; infoMsg := infoMsg m;
     currentDir := currentDir m; textInputs := textInputs m;
     activeInput := activeInput m; confirmLines := confirmLines m;
     viewport := viewport m; logs := logs m; cloneQueue := cloneQueue m;
     cloneIndex := cloneIndex m; cloneSuccess := cloneSuccess m;
     cloneFailed := cloneFailed m; pendingReload := pendingReload m;
     results := results m; lastExportPath := lastExportPath m |}.

Definition set_list_ (v : listModel) (m : model) : model :=
  {| state := state m; cfg := cfg m; paths := paths m;
     rootPath := rootPath m; homePath := homePath m; minimax := minimax m;
     list_ := v; selected := selected m; selectedOrder := selectedOrder m;
     width := width m; height := height m; statusMsg := statusMsg m;
     errorMsg := errorMsg m; infoMsg := infoMsg m;
     currentDir := currentDir m; textInputs := textInputs m;
     activeInput := activeInput m; confirmLines := confirmLines m;
     viewport := viewport m; logs := logs m; cloneQueue := cloneQueue m;
     cloneIndex := cloneIndex m; cloneSuccess := cloneSuccess m;
     cloneFailed := cloneFailed m; pendingReload := pendingReload m;
     results := results m; lastExportPath := lastExportPath m |}.

Definition set_selected (v : gmap string bool) (m : model) : model :=
  {| state := state m; cfg := cfg m; paths := paths m;
     rootPath := rootPath m; homePath := homePath m; minimax := minimax m;
     list_ := list_ m; selected := v; selectedOrder := selectedOrder m;
     width := width m; height := height m; statusMsg := statusMsg m;
     errorMsg := errorMsg m; infoMsg := infoMsg m;
     currentDir := currentDir m; textInputs := textInputs m;
     activeInput := activeInput m; confirmLines := confirmLines m;
     viewport := viewport m; logs := logs m; cloneQueue := cloneQueue m;
     cloneIndex := cloneIndex m; cloneSuccess := cloneSuccess m;
     cloneFailed := cloneFailed m; pendingReload := pendingReload m;
     results := results m; lastExportPath := lastExportPath m |}.

Definition set_selectedOrder (v : list string) (m : model) : model :=
  {| state := state m; cfg := cfg m; paths := paths m;
     rootPath := rootPath m; homePath := homePath m; minimax := minimax m;
     list_ := list_ m; selected := selected m; selectedOrder := v;
     width := width m; height := height m; statusMsg := statusMsg m;
     errorMsg := errorMsg m; infoMsg := infoMsg m;
     currentDir := currentDir m; textInputs := textInputs m;
     activeInput := activeInput m; confirmLines := confirmLines m;
     viewport := viewport m; logs := logs m; cloneQueue := cloneQueue m;
     cloneIndex := cloneIndex m; cloneSuccess := cloneSuccess m;
     cloneFailed := cloneFailed m; pendingReload := pendingReload m;
     results := results m; lastExportPath := lastExportPath m |}.

Definition set_width (v : Z) (m : model) : model :=
  {| state := state m; cfg := cfg m; paths := paths m;
     rootPath := rootPath m; homePath := homePath m; minimax := minimax m;
     list_ := list_ m; selected := selected m;
     selectedOrder := selectedOrder m; width := v; height := height m;
     statusMsg := statusMsg m; errorMsg := errorMsg m; infoMsg := infoMsg m;
     currentDir := currentDir m; textInputs := textInputs m;
     activeInput := activeInput m; confirmLines := confirmLines m;
     viewport := viewport m; logs := logs m; cloneQueue := cloneQueue m;
     cloneIndex := cloneIndex m; cloneSuccess := cloneSuccess m;
     cloneFailed := cloneFailed m; pendingReload := pendingReload m;
     results := results m; lastExportPath := lastExportPath m |}.

Definition set_height (v : Z) (m : model) : model :=
  {| state := state m; cfg := cfg m; paths := paths m;
     rootPath := rootPath m; homePath := homePath m; minimax := minimax m;
     list_ := list_ m; selected := selected m;
     selectedOrder := selectedOrder m; width := width m; height := v;
     statusMsg := statusMsg m; errorMsg := errorMsg m; infoMsg := infoMsg m;
     currentDir := currentDir m; textInputs := textInputs m;
     activeInput := activeInput m; confirmLines := confirmLines m;
     viewport := viewport m; logs := logs m; cloneQueue := cloneQueue m;
     cloneIndex := cloneIndex m; cloneSuccess := cloneSuccess m;
     cloneFailed := cloneFailed m; pendingReload := pendingReload m;
     results := results m; lastExportPath := lastExportPath m |}.

Definition set_statusMsg (v : string) (m : model) : model :=
  {| state := state m; cfg := cfg m; paths := paths m;
     rootPath := rootPath m; homePath := homePath m; minimax := minimax m;
     list_ := list_ m; selected := selected m;
     selectedOrder := selectedOrder m; width := width m; height := height m;
     statusMsg := v; errorMsg := errorMsg m; infoMsg := infoMsg m;
     currentDir := currentDir m; textInputs := textInputs m;
     activeInput := activeInput m; confirmLines := confirmLines m;
     viewport := viewport m; logs := logs m; cloneQueue := cloneQueue m;
     cloneIndex := cloneIndex m; cloneSuccess := cloneSuccess m;
     cloneFailed := cloneFailed m; pendingReload := pendingReload m;
     results := results m; lastExportPath := lastExportPath m |}.

Definition set_errorMsg (v : string) (m : model) : model :=
  {| state := state m; cfg := cfg m; paths := paths m;
     rootPath := rootPath m; homePath := homePath m; minimax := minimax m;
     list_ := list_ m; selected := selected m;
     selectedOrder := selectedOrder m; width := width m; height := height m;
     statusMsg := statusMsg m; errorMsg := v; infoMsg := infoMsg m;
     currentDir := currentDir m; textInputs := textInputs m;
     activeInput := activeInput m; confirmLines := confirmLines m;
     viewport := viewport m; logs := logs m; cloneQueue := cloneQueue m;
     cloneIndex := cloneIndex m; cloneSuccess := cloneSuccess m;
     cloneFailed := cloneFailed m; pendingReload := pendingReload m;
     results := results m; lastExportPath := lastExportPath m |}.

Definition set_currentDir (v : string) (m : model) : model :=
  {| state := state m; cfg := cfg m; paths := paths m;
     rootPath := rootPath m; homePath := homePath m; minimax := minimax m;
     list_ := list_ m; selected := selected m;
     selectedOrder := selectedOrder m; width := width m; height := height m;
     statusMsg := statusMsg m; errorMsg := errorMsg m; infoMsg := infoMsg m;
     currentDir := v; textInputs := textInputs m;
     activeInput := activeInput m; confirmLines := confirmLines m;
     viewport := viewport m; logs := logs m; cloneQueue := cloneQueue m;
     cloneIndex := cloneIndex m; cloneSuccess := cloneSuccess m;
     cloneFailed := cloneFailed m; pendingReload := pendingReload m;
     results := results m; lastExportPath := lastExportPath m |}.

Definition set_textInputs (v : list textInput) (m : model) : model :=
  {| state := state m; cfg := cfg m; paths := paths m;
     rootPath := rootPath m; homePath := homePath m; minimax := minimax m;
     list_ := list_ m; selected := selected m;
     selectedOrder := selectedOrder m; width := width m; height := height m;
     statusMsg := statusMsg m; errorMsg := errorMsg m; infoMsg := infoMsg m;
     currentDir := currentDir m; textInputs := v;
     activeInput := activeInput m; confirmLines := confirmLines m;
     viewport := viewport m; logs := logs m; cloneQueue := cloneQueue m;
     cloneIndex := cloneIndex m; cloneSuccess := cloneSuccess m;
     cloneFailed := cloneFailed m; pendingReload := pendingReload m;
     results := results m; lastExportPath := lastExportPath m |}.

Definition set_activeInput (v : Z) (m : model) : model :=
  {| state := state m; cfg := cfg m; paths := paths m;
     rootPath := rootPath m; homePath := homePath m; minimax := minimax m;
     list_ := list_ m; selected := selected m;
     selectedOrder := selectedOrder m; width := width m; height := height m;
     statusMsg := statusMsg m; errorMsg := errorMsg m; infoMsg := infoMsg m;
     currentDir := currentDir m; textInputs := textInputs m;
     activeInput := v; confirmLines := confirmLines m;
     viewport := viewport m; logs := logs m; cloneQueue := cloneQueue m;
     cloneIndex := cloneIndex m; cloneSuccess := cloneSuccess m;
     cloneFailed := cloneFailed m; pendingReload := pendingReload m;
     results := results m; lastExportPath := lastExportPath m |}.

Definition set_confirmLines (v : list string) (m : model) : model :=
  {| state := state m; cfg := cfg m; paths := paths m;
     rootPath := rootPath m; homePath := homePath m; minimax := minimax m;
     list_ := list_ m; selected := selected m;
     selectedOrder := selectedOrder m; width := width m; height := height m;
     statusMsg := statusMsg m; errorMsg := errorMsg m; infoMsg := infoMsg m;
     currentDir := currentDir m; textInputs := textInputs m;
     activeInput := activeInput m; confirmLines := v;
     viewport := viewport m; logs := logs m; cloneQueue := cloneQueue m;
     cloneIndex := cloneIndex m; cloneSuccess := cloneSuccess m;
     cloneFailed := cloneFailed m; pendingReload := pendingReload m;
     results := results m; lastExportPath := lastExportPath m |}.

Definition set_viewport (v : viewportModel) (m : model) : model :=
  {| state := state m; cfg := cfg m; paths := paths m;
     rootPath := rootPath m; homePath := homePath m; minimax := minimax m;
     list_ := list_ m; selected := selected m;
     selectedOrder := selectedOrder m; width := width m; height := height m;
     statusMsg := statusMsg m; errorMsg := errorMsg m; infoMsg := infoMsg m;
     currentDir := currentDir m; textInputs := textInputs m;
     activeInput := activeInput m; confirmLines := confirmLines m;
     viewport := v; logs := logs m; cloneQueue := cloneQueue m;
     cloneIndex := cloneIndex m; cloneSuccess := cloneSuccess m;
     cloneFailed := cloneFailed m; pendingReload := pendingReload m;
     results := results m; lastExportPath := lastExportPath m |}.

Definition set_logs (v : list string) (m : model) : model :=
  {| state := state m; cfg := cfg m; paths := paths m;
     rootPath := rootPath m; homePath := homePath m; minimax := minimax m;
     list_ := list_ m; selected := selected m;
     selectedOrder := selectedOrder m; width := width m; height := height m;
     statusMsg := statusMsg m; errorMsg := errorMsg m; infoMsg := infoMsg m;
     currentDir := currentDir m; textInputs := textInputs m;
     activeInput := activeInput m; confirmLines := confirmLines m;
     viewport := viewport m; logs := v; cloneQueue := cloneQueue m;
     cloneIndex := cloneIndex m; cloneSuccess := cloneSuccess m;
     cloneFailed := cloneFailed m; pendingReload := pendingReload m;
     results := results m; lastExportPath := lastExportPath m |}.

Definition set_cloneQueue (v : list string) (m : model) : model :=
  {| state := state m; cfg := cfg m; paths := paths m;
     rootPath := rootPath m; homePath := homePath m; minimax := minimax m;
     list_ := list_ m; selected := selected m;
     selectedOrder := selectedOrder m; width := width m; height := height m;
     statusMsg := statusMsg m; errorMsg := errorMsg m; infoMsg := infoMsg m;
     currentDir := currentDir m; textInputs := textInputs m;
     activeInput := activeInput m; confirmLines := confirmLines m;
     viewport := viewport m; logs := logs m; cloneQueue := v;
     cloneIndex := cloneIndex m; cloneSuccess := cloneSuccess m;
     cloneFailed := cloneFailed m; pendingReload := pendingReload m;
     results := results m; lastExportPath := lastExportPath m |}.

Definition set_cloneIndex (v : Z) (m : model) : model :=
  {| state := state m; cfg := cfg m; paths := paths m;
     rootPath := rootPath m; homePath := homePath m; minimax := minimax m;
     list_ := list_ m; selected := selected m;
     selectedOrder := selectedOrder m; width := width m; height := height m;
     statusMsg := statusMsg m; errorMsg := errorMsg m; infoMsg := infoMsg m;
     currentDir := currentDir m; textInputs := textInputs m;
     activeInput := activeInput m; confirmLines := confirmLines m;
     viewport := viewport m; logs := logs m; cloneQueue := cloneQueue m;
     cloneIndex := v; cloneSuccess := cloneSuccess m;
     cloneFailed := cloneFailed m; pendingReload := pendingReload m;
     results := results m; lastExportPath := lastExportPath m |}.

Definition set_cloneSuccess (v : Z) (m : model) : model :=
  {| state := state m; cfg := cfg m; paths := paths m;
     rootPath := rootPath m; homePath := homePath m; minimax := minimax m;
     list_ := list_ m; selected := selected m;
     selectedOrder := selectedOrder m; width := width m; height := height m;
     statusMsg := statusMsg m; errorMsg := errorMsg m; infoMsg := infoMsg m;
     currentDir := currentDir m; textInputs := textInputs m;
     activeInput := activeInput m; confirmLines := confirmLines m;
     viewport := viewport m; logs := logs m; cloneQueue := cloneQueue m;
     cloneIndex := cloneIndex m; cloneSuccess := v;
     cloneFailed := cloneFailed m; pendingReload := pendingReload m;
     results := results m; lastExportPath := lastExportPath m |}.

Definition set_cloneFailed (v : Z) (m : model) : model :=
  {| state := state m; cfg := cfg m; paths := paths m;
     rootPath := rootPath m; homePath := homePath m; minimax := minimax m;
     list_ := list_ m; selected := selected m;
     selectedOrder := selectedOrder m; width := width m; height := height m;
     statusMsg := statusMsg m; errorMsg := errorMsg m; infoMsg := infoMsg m;
     currentDir := currentDir m; textInputs := textInputs m;
     activeInput := activeInput m; confirmLines := confirmLines m;
     viewport := viewport m; logs := logs m; cloneQueue := cloneQueue m;
     cloneIndex := cloneIndex m; cloneSuccess := cloneSuccess m;
     cloneFailed := v; pendingReload := pendingReload m;
     results := results m; lastExportPath := lastExportPath m |}.

Definition set_pendingReload (v : bool) (m : model) : model :=
  {| state := state m; cfg := cfg m; paths := paths m;
     rootPath := rootPath m; homePath := homePath m; minimax := minimax m;
     list_ := list_ m; selected := selected m;
     selectedOrder := selectedOrder m; width := width m; height := height m;
     statusMsg := statusMsg m; errorMsg := errorMsg m; infoMsg := infoMsg m;
     currentDir := currentDir m; textInputs := textInputs m;
     activeInput := activeInput m; confirmLines := confirmLines m;
     viewport := viewport m; logs := logs m; cloneQueue := cloneQueue m;
     cloneIndex := cloneIndex m; cloneSuccess := cloneSuccess m;
     cloneFailed := cloneFailed m; pendingReload := v; results := results m;
     lastExportPath := lastExportPath m |}.

Definition set_results (v : list exporter.ExportRecord) (m : model) : model :=
  {| state := state m; cfg := cfg m; paths := paths m;
     rootPath := rootPath m; homePath := homePath m; minimax := minimax m;
     list_ := list_ m; selected := selected m;
     selectedOrder := selectedOrder m; width := width m; height := height m;
     statusMsg := statusMsg m; errorMsg := errorMsg m; infoMsg := infoMsg m;
     currentDir := currentDir m; textInputs := textInputs m;
     activeInput := activeInput m; confirmLines := confirmLines m;
     viewport := viewport m; logs := logs m; cloneQueue := cloneQueue m;
     cloneIndex := cloneIndex m; cloneSuccess := cloneSuccess m;
     cloneFailed := cloneFailed m; pendingReload := pendingReload m;
     results := v; lastExportPath := lastExportPath m |}.

Definition set_lastExportPath (v : string) (m : model) : model :=
  {| state := state m; cfg := cfg m; paths := paths m;
     rootPath := rootPath m; homePath := homePath m; minimax := minimax m;
     list_ := list_ m; selected := selected m;
     selectedOrder := selectedOrder m; width := width m; height := height m;
     statusMsg := statusMsg m; errorMsg := errorMsg m; infoMsg := infoMsg m;
     currentDir := currentDir m; textInputs := textInputs m;
     activeInput := activeInput m; confirmLines := confirmLines m;
     viewport := viewport m; logs := logs m; cloneQueue := cloneQueue m;
     cloneIndex := cloneIndex m; cloneSuccess := cloneSuccess m;
     cloneFailed := cloneFailed m; pendingReload := pendingReload m;
     results := results m; lastExportPath := v |}.

Definition defaultStatus : string :=
  "按 C 克隆 · Shift+C 编辑凭证 · 空格/X 勾选文件 · Enter 进入目录 · E 导出 · Q 退出".

(** [m.selected[path]]: a missing key reads as [false]. *)
Definition isSelected (m : model) (p : string) : bool :=
  default false (selected m !! p).

(** [func (m *model) selectedFiles() []string] *)
Definition selectedFiles (m : model) : list string :=
  filter (fun p => isSelected m p = true) (selectedOrder m).

(** The loop that cuts the first occurrence of [p] out of the order. *)
Fixpoint removeFirst (p : string) (order : list string) : list string :=
  match order with
  | [] => []
  | q :: rest => if String.eqb q p then rest else q :: removeFirst p rest
  end.

(** [func (m *model) currentDirOrRoot() string] *)
Definition currentDirOrRoot (m : model) : string :=
  if String.eqb (currentDir m) "" then rootPath m else currentDir m.

(** [func (m *model) initTextInputs()] *)
Definition initTextInputs (m : model) : model :=
  let apiInput := mkTextInput (config.MinimaxSecret (cfg m)) false in
  let groupInput := mkTextInput (config.MinimaxGroup (cfg m)) false in
  set_textInputs [Focus apiInput; groupInput] m.

Section WithRuntime.
Context {rt : Runtime} {toml : config.Toml} {json : minimax.Json}
        {bubbles : Bubbles}.

Definition allowedExt (ext : string) : bool :=
  String.eqb ext ".mp3" || String.eqb ext ".m4a" || String.eqb ext ".wav".

(** [func (m *model) toggleSelection(item fileItem)] *)
Definition toggleSelection (m : model) (item : fileItem) : model :=
  if isDir item then m
  else
    let ext := strings_ToLower (filepath.Ext (path item)) in
    if negb (allowedExt ext) then
      set_errorMsg "仅支持选择 mp3、m4a、wav 文件" m
    else if isSelected m (path item) then
      set_selectedOrder (removeFirst (path item) (selectedOrder m))
        (set_selected (delete (path item) (selected m)) m)
    else
      set_selectedOrder (selectedOrder m ++ [path item])
        (set_selected (<[path item := true]> (selected m)) m).

(** [func (m *model) prepareConfirmLines()]; [sort.Strings] is the
    library sort with the byte order of strings. *)
Definition prepareConfirmLines (m : model) : model :=
  set_confirmLines (sort_Slice string (selectedFiles m) String.ltb) m.

(** [func (m *model) loadDirectoryCmd(path string) tea.Cmd] *)
Definition loadDirectoryCmd (m : model) (dir : string) : Cmd :=
  LoadDirectory dir.

(** [func cloneFileCmd(client, path, logger) tea.Cmd] *)
Definition cloneFileCmd (client : option minimax.Client) (file : string) : Cmd :=
  CloneFile client file.

(** [func (m *model) exportCmd() tea.Cmd] *)
Definition exportCmd (m : model) : Cmd :=
  Export (results m) (system.DownloadsDir (paths m)).

(** [func (m *model) nextCloneCmd() tea.Cmd]; the model comes back with
    the queue index advanced. *)
Definition nextCloneCmd (m : model) : model * Cmd :=
  if len (cloneQueue m) <=? cloneIndex m then
    (m, CloneFinished (cloneSuccess m) (cloneFailed m))
  else
    match (if cloneIndex m <? 0 then None
           else cloneQueue m !! Z.to_nat (cloneIndex m)) with
    | None => (m, Panic "index out of range")
    | Some file =>
        (set_cloneIndex (int_add (cloneIndex m) 1) m,
         cloneFileCmd (minimax m) file)
    end.

(** [m.viewport.SetContent(strings.Join(m.logs, "\n")); m.viewport.GotoBottom()] *)
Definition showLogs (m : model) : model :=
  set_viewport
    (viewport_GotoBottom
       (viewport_SetContent (viewport m) (strings.Join (logs m) (String "010" ""))))
    m.

(** [func (m *model) handleCloneStep(msg cloneStepMsg) (tea.Model, tea.Cmd)] *)
Definition handleCloneStep (m : model) (msg : cloneStepMsg) : model * Cmd :=
  let ts := time_Format (Timestamp msg) "15:04:05" in
  let m := set_logs
             (logs m ++ map (fun line => "[" +:+ ts +:+ "] " +:+ line) (Logs msg)) m in
  let m := match Record_ msg with
           | Some rec => set_results (results m ++ [rec]) m
           | None => m
           end in
  let m := match Err_ msg with
           | Some _ => set_cloneFailed (int_add (cloneFailed m) 1) m
           | None => set_cloneSuccess (int_add (cloneSuccess m) 1) m
           end in
  nextCloneCmd (showLogs m).

(** [func (m *model) handleCloneFinished(msg cloneFinishedMsg) (tea.Model, tea.Cmd)] *)
Definition handleCloneFinished (m : model) (Success Failed : Z)
  : IO (model * Cmd) :=
  (r <- exporter.ToCSV (results m) (system.DownloadsDir (paths m));
   timestamp <- Now;
   let stamp := time_Format timestamp "15:04:05" in
   let m :=
     match r with
     | Err exportErr =>
         set_lastExportPath ""
           (set_statusMsg
              ("克隆完成：成功 " +:+ pretty Success +:+ " · 失败 " +:+ pretty Failed
               +:+ " · 导出失败（按 q 返回）")
              (set_logs (logs m ++ ["[" +:+ stamp +:+ "] ❌ 自动导出失败：" +:+ exportErr]) m))
     | Ok csvPath =>
         set_lastExportPath csvPath
           (set_statusMsg
              ("克隆完成：成功 " +:+ pretty Success +:+ " · 失败 " +:+ pretty Failed
               +:+ " · CSV：" +:+ csvPath +:+ " (按 q 返回)")
              (set_logs (logs m ++ ["[" +:+ stamp +:+ "] ✅ 结果已导出：" +:+ csvPath]) m))
     end in
   let m := set_state stateSummary m in
   let m := set_selected ∅ m in
   let m := set_selectedOrder [] m in
   let m := set_pendingReload true m in
   let m := set_errorMsg "" m in
   ret (showLogs m, Nil))%io.

(** [func (m *model) handleExportResult(msg exportResultMsg) (tea.Model, tea.Cmd)] *)
Definition handleExportResult (m : model) (file : string) (err : option string)
  : model * Cmd :=
  let m := set_state stateBrowser m in
  match err with
  | Some e => (set_statusMsg "" (set_errorMsg ("导出失败：" +:+ e) m), Nil)
  | None =>
      (set_lastExportPath file
         (set_errorMsg "" (set_statusMsg ("导出成功：" +:+ file) m)), Nil)
  end.

(** [func (m *model) saveConfig() (tea.Model, tea.Cmd)] *)
Definition saveConfig (m : model) : IO (model * Cmd) :=
  match textInputs m !! 0%nat, textInputs m !! 1%nat with
  | Some in0, Some in1 =>
      let api := strings.TrimSpace (Value in0) in
      let group := strings.TrimSpace (Value in1) in
      if String.eqb api "" || String.eqb group "" then
        ret (set_errorMsg "请填写完整的 API Key 与 Group ID" m, Nil)
      else
        let newCfg := config.mkConfig api group in
        (r <- config.Save (system.ConfigFile (paths m)) newCfg;
         match r with
         | Some err => ret (set_errorMsg ("保存配置失败: " +:+ err) m, Nil)
         | None =>
             let m := set_cfg newCfg m in
             let m := set_minimax (Some (minimax.NewClient api group)) m in
             let m := set_state stateBrowser m in
             let m := set_statusMsg "配置已更新，可继续操作。" m in
             let m := set_errorMsg "" m in
             ret (m, loadDirectoryCmd m (currentDirOrRoot m))
         end)%io
  | _, _ => ret (m, Panic "index out of range")
  end.

(** The loop [for i := range m.textInputs] of [updateConfig]: focus the
    active input, blur the others, and pass the message on. *)
Definition refocusInputs (m : model) (msg : Msg) : model :=
  set_textInputs
    (imap (fun i t =>
             textinput_Update
               (if Z.of_nat i =? activeInput m then Focus t else Blur t) msg)
          (textInputs m))
    m.

(** [func (m *model) updateConfig(msg tea.KeyMsg) (tea.Model, tea.Cmd)];
    the commands of the text inputs (cursor blinking) are left out. *)
Definition updateConfig (m : model) (key : string) : IO (model * Cmd) :=
  if String.eqb key "ctrl+c" then ret (m, Quit)
  else if String.eqb key "esc" then
    if negb (config.IsComplete (cfg m)) then ret (m, Quit)
    else
      let m := set_state stateBrowser m in
      ret (m, loadDirectoryCmd m (currentDirOrRoot m))
  else if String.eqb key "tab" || String.eqb key "shift+tab"
          || String.eqb key "enter" || String.eqb key "up"
          || String.eqb key "down" then
    let s := key in
    let last := int_sub (len (textInputs m)) 1 in
    if String.eqb s "enter" && (activeInput m =? last) then saveConfig m
    else
      let m :=
        if String.eqb s "enter" && (activeInput m <? last) then
          set_activeInput (int_add (activeInput m) 1) m
        else if String.eqb s "shift+tab" || String.eqb s "up" then
          if 0 <? activeInput m
          then set_activeInput (int_sub (activeInput m) 1) m else m
        else if String.eqb s "tab" || String.eqb s "down" then
          if activeInput m <? last
          then set_activeInput (int_add (activeInput m) 1) m else m
        else m in
      ret (refocusInputs m (KeyMsg key), Nil)
  else
    ret (set_textInputs
           (map (fun t => textinput_Update t (KeyMsg key)) (textInputs m)) m,
         Nil).

(** [func (m *model) changeDirectory(path string) (tea.Model, tea.Cmd)] *)
Definition changeDirectory (m : model) (dir : string) : IO (model * Cmd) :=
  (info <- ask (fun t => os_Stat t dir);
   match info with
   | Ok true => ret (m, loadDirectoryCmd m dir)
   | _ => ret (set_errorMsg "无法进入目录" m, Nil)
   end)%io.

(** [func (m *model) goParentDirectory() (tea.Model, tea.Cmd)] *)
Definition goParentDirectory (m : model) : IO (model * Cmd) :=
  let parent := filepath_Dir (currentDirOrRoot m) in
  if String.eqb parent (currentDirOrRoot m) then ret (m, Nil)
  else changeDirectory m parent.

(** [func (m *model) updateBrowserKeys(msg tea.KeyMsg) (tea.Model, tea.Cmd)] *)
Definition updateBrowserKeys (m : model) (key : string) : IO (model * Cmd) :=
  if String.eqb key "ctrl+c" then ret (m, Quit)
  else if String.eqb key "q" then ret (m, Quit)
  else if String.eqb key "c" then
    if Z.of_nat (size (selected m)) =? 0 then
      ret (set_errorMsg "请先勾选至少一个文件" m, Nil)
    else
      ret (prepareConfirmLines (set_state stateConfirm m), Nil)
  else if String.eqb key "C" then
    ret (initTextInputs (set_state stateConfig m), Nil)
  else if String.eqb key "e" then
    if len (results m) =? 0 then
      ret (set_errorMsg "暂无可导出的克隆记录" m, Nil)
    else
      let m := set_statusMsg "正在导出 CSV..." (set_state stateExporting m) in
      ret (m, Batch [SpinnerTick; exportCmd m])
  else if String.eqb key " " || String.eqb key "x" then
    match SelectedItem (list_ m) with
    | Some item =>
        if negb (isDir item) then ret (toggleSelection m item, Nil)
        else ret (m, Nil)
    | None => ret (m, Nil)
    end
  else if String.eqb key "left" || String.eqb key "h"
          || String.eqb key "backspace" then
    goParentDirectory m
  else if String.eqb key "right" || String.eqb key "l"
          || String.eqb key "enter" then
    match SelectedItem (list_ m) with
    | Some item =>
        if isDir item then changeDirectory m (path item) else ret (m, Nil)
    | None => ret (m, Nil)
    end
  else
    ret (set_list_ (list_Update (list_ m) (KeyMsg key)) m, Nil).

(** [func (m *model) updateConfirm(msg tea.KeyMsg) (tea.Model, tea.Cmd)] *)
Definition updateConfirm (m : model) (key : string) : model * Cmd :=
  if String.eqb key "ctrl+c" then (m, Quit)
  else if String.eqb key "esc" || String.eqb key "n" then
    (set_state stateBrowser m, Nil)
  else if String.eqb key "enter" || String.eqb key "y" then
    let m := set_state stateCloning m in
    let m := set_cloneQueue (selectedFiles m) m in
    let m := set_cloneIndex 0 m in
    let m := set_cloneSuccess 0 m in
    let m := set_cloneFailed 0 m in
    let m := set_logs [] m in
    let m := set_results [] m in
    let m := set_lastExportPath "" m in
    let m := set_viewport
               (viewport_SetContent
                  (viewport_New (int_sub (width m) 4) (int_sub (height m) 6)) "")
               m in
    let m := set_statusMsg "正在执行克隆任务..." m in
    let '(m, next) := nextCloneCmd m in
    (m, Batch [SpinnerTick; next])
  else (m, Nil).

(** [func (m *model) updateCloningKeys(msg tea.KeyMsg) (tea.Model, tea.Cmd)] *)
Definition updateCloningKeys (m : model) (key : string) : model * Cmd :=
  if String.eqb key "ctrl+c" then (m, Quit) else (m, Nil).

(** [func (m *model) updateSummaryKeys(msg tea.KeyMsg) (tea.Model, tea.Cmd)] *)
Definition updateSummaryKeys (m : model) (key : string) : model * Cmd :=
  if String.eqb key "ctrl+c" then (m, Quit)
  else if String.eqb key "q" then
    let m := set_state stateBrowser m in
    let m := set_logs [] m in
    let m := set_viewport (viewport_SetContent (viewport m) "") m in
    let cmd := if pendingReload m
               then loadDirectoryCmd m (currentDirOrRoot m) else Nil in
    let m := if pendingReload m then set_pendingReload false m else m in
    let m := set_statusMsg defaultStatus m in
    let m := set_cloneQueue [] m in
    let m := set_cloneIndex 0 m in
    let m := set_cloneSuccess 0 m in
    let m := set_cloneFailed 0 m in
    let m := set_errorMsg "" m in
    (m, cmd)
  else (m, Nil).

(** [func (m *model) handleKeyMsg(msg tea.KeyMsg) (tea.Model, tea.Cmd)] *)
Definition handleKeyMsg (m : model) (key : string) : IO (model * Cmd) :=
  match state m with
  | stateConfig => updateConfig m key
  | stateBrowser => updateBrowserKeys m key
  | stateConfirm => ret (updateConfirm m key)
  | stateCloning => ret (updateCloningKeys m key)
  | stateSummary => ret (updateSummaryKeys m key)
  | stateExporting => ret (m, Nil)
  end.

(** [func (m *model) handleResize() (tea.Model, tea.Cmd)] *)
Definition handleResize (m : model) : model * Cmd :=
  let m :=
    if bool_decide (state m = stateBrowser) then
      let availableHeight := int_sub (height m) 4 in
      let availableHeight := if availableHeight <? 3 then 3 else availableHeight in
      let listWidth := int_sub (width m) 32 in
      let listWidth := if listWidth <? 20 then 20 else listWidth in
      set_list_ (SetSize (list_ m) listWidth availableHeight) m
    else m in
  let m :=
    if bool_decide (state m = stateCloning) || bool_decide (state m = stateSummary) then
      let w := int_sub (width m) 4 in
      let w := if w <? 20 then 20 else w in
      let h := int_sub (height m) 6 in
      let h := if h <? 5 then 5 else h in
      let vp := {| vp_Width := w; vp_Height := h;
                   vp_content := vp_content (viewport m);
                   vp_YOffset := vp_YOffset (viewport m) |} in
      set_viewport
        (viewport_SetContent vp (strings.Join (logs m) (String "010" ""))) m
    else m in
  (m, Nil).

(** [func (m *model) updateDir(msg dirLoadedMsg) tea.Cmd]; the list
    title is only read by the view. *)
Definition updateDir (m : model) (dir : string) (its : list fileItem) : model :=
  let m := set_currentDir dir m in
  let l := SetItems (list_ m) its in
  let l := if 0 <? len its then Select l 0 else l in
  set_errorMsg "" (set_list_ l m).

(** [func (m *model) updateError(msg errMsg) tea.Cmd] *)
Definition updateError (m : model) (err : string) : model :=
  set_errorMsg err m.

(** [func (m *model) Update(msg tea.Msg) (tea.Model, tea.Cmd)] *)
Definition Update (m : model) (msg : Msg) : IO (model * Cmd) :=
  match msg with
  | dirLoadedMsg dir its => ret (updateDir m dir its, Nil)
  | errMsg err => ret (updateError m err, Nil)
  | WindowSizeMsg w h => ret (handleResize (set_height h (set_width w m)))
  | KeyMsg key => handleKeyMsg m key
  | CloneStepMsg step => ret (handleCloneStep m step)
  | cloneFinishedMsg s f => handleCloneFinished m s f
  | exportResultMsg file err => ret (handleExportResult m file err)
  | libMsg _ =>
      if bool_decide (state m = stateBrowser) then
        ret (set_list_ (list_Update (list_ m) msg) m, Nil)
      else if bool_decide (state m = stateConfig) && (0 <? len (textInputs m)) then
        ret (set_textInputs
               (map (fun t => textinput_Update t msg) (textInputs m)) m, Nil)
      else if bool_decide (state m = stateCloning) || bool_decide (state m = stateExporting)
      then ret (m, spinner_Update msg)
      else ret (m, Nil)
  end.

(** [func (m *model) Init() tea.Cmd] *)
Definition Init (m : model) : Cmd :=
  Batch ((if bool_decide (state m = stateBrowser)
          then [loadDirectoryCmd m (rootPath m)] else [])
         ++ (if bool_decide (state m = stateCloning) || bool_decide (state m = stateExporting)
             then [SpinnerTick] else [])).

(** [func newModel(cfg, paths, logger, rootPath) *model] *)
Definition newModel (cfg0 : config.Config) (paths0 : system.Paths)
    (rootPath0 : string) : IO model :=
  (home <- ask os_UserHomeDir;
   let homeDir := match home with Ok h => h | Err _ => "" end in
   let m :=
     {| state := stateConfig; cfg := cfg0; paths := paths0;
        rootPath := rootPath0; homePath := homeDir; minimax := None;
        list_ := mkListModel [] 0 0 0; selected := ∅; selectedOrder := [];
        width := 0; height := 0; statusMsg := defaultStatus; errorMsg := "";
        infoMsg := ""; currentDir := ""; textInputs := []; activeInput := 0;
        confirmLines := []; viewport := viewport_New 0 0; logs := [];
        cloneQueue := []; cloneIndex := 0; cloneSuccess := 0; cloneFailed := 0;
        pendingReload := false; results := []; lastExportPath := "" |} in
   let m :=
     if config.IsComplete cfg0 then
       set_state stateBrowser
         (set_minimax
            (Some (minimax.NewClient (config.MinimaxSecret cfg0)
                     (config.MinimaxGroup cfg0))) m)
     else set_state stateConfig m in
   ret (initTextInputs m))%io.

(** *** The bodies of the commands *)

(** [func ensureDirReadable(path string) error] *)
Definition ensureDirReadable (dir : string) : IO (option string) :=
  (info <- ask (fun t => os_Stat t dir);
   match info with
   | Err e => ret (Some e)
   | Ok false => ret (Some "不是目录")
   | Ok true => ret None
   end)%io.

(** The [less] function handed to [sort.Slice]. *)
Definition entryLess (a b : DirEntry) : bool :=
  if IsDir a && negb (IsDir b) then true
  else if negb (IsDir a) && IsDir b then false
  else String.ltb (strings_ToLower (Name a)) (strings_ToLower (Name b)).

(** [func listDirectory(path string) ([]fileItem, error)] *)
Definition listDirectory (dir : string) : IO (result (list fileItem)) :=
  (r <- ask (fun t => os_ReadDir t dir);
   match r with
   | Err e => ret (Err e)
   | Ok entries =>
       let parent := filepath_Dir dir in
       let its :=
         if negb (String.eqb parent dir)
         then [mkFileItem ".." parent true true] else [] in
       let entries := sort_Slice DirEntry entries entryLess in
       ret (Ok (its ++ map (fun entry =>
                              mkFileItem (Name entry)
                                (filepath_Join dir (Name entry))
                                (IsDir entry) false)
                           entries))
   end)%io.

(** The closure returned by [loadDirectoryCmd]. *)
Definition runLoadDirectory (dir : string) : IO Msg :=
  (e <- ensureDirReadable dir;
   match e with
   | Some err => ret (errMsg err)
   | None =>
       r <- listDirectory dir;
       match r with
       | Err err => ret (errMsg err)
       | Ok its => ret (dirLoadedMsg dir its)
       end
   end)%io.

Definition failedRecord (file fileID voiceID reason : string) (t : Time)
  : exporter.ExportRecord :=
  exporter.mkRecord file fileID voiceID "failed" reason t.

(** The closure returned by [cloneFileCmd]; the calls to the logger are
    left out.  [None] is the nil dereference of a missing client. *)
Definition runCloneFile (client : option minimax.Client) (file : string)
  : IO (option Msg) :=
  (timestamp <- Now;
   let logs := ["开始处理文件：" +:+ filepath_Base file; "  → 正在上传文件..."] in
   r <- minimax.GenerateVoiceID file;
   match r with
   | Err err =>
       let logs := logs ++ ["  ❌ 生成 Voice ID 失败：" +:+ err] in
       now <- Now;
       let rec := failedRecord file "" "" err now in
       ret (Some (CloneStepMsg
                    (mkCloneStepMsg file "" "" (Some err) timestamp logs (Some rec))))
   | Ok voiceID =>
       let logs := logs ++ ["  → 生成 Voice ID：" +:+ voiceID] in
       match client with
       | None => ret None
       | Some c =>
           r <- minimax.UploadFile c file;
           match r with
           | Err err =>
               now <- Now;
               let rec := failedRecord file "" "" err now in
               let logs := logs ++ ["  ❌ 上传失败：" +:+ err] in
               ret (Some (CloneStepMsg
                            (mkCloneStepMsg file "" "" (Some err) timestamp logs
                               (Some rec))))
           | Ok uploadResp =>
               let fileID := minimax.FileID (minimax.File uploadResp) in
               let fileIDStr : string := pretty fileID in
               let logs := logs ++ ["  ✅ 上传成功，文件ID：" +:+ fileIDStr] in
               let logs := logs ++ ["  → 正在克隆音色（Voice ID：" +:+ voiceID +:+ "）..."] in
               r <- minimax.CloneWithFileID c fileID voiceID;
               match r with
               | Err err =>
                   now <- Now;
                   let rec := failedRecord file fileIDStr voiceID err now in
                   let logs := logs ++ ["  ❌ 克隆失败：" +:+ err] in
                   stamp <- Now;
                   ret (Some (CloneStepMsg
                                (mkCloneStepMsg file "" "" (Some err) stamp logs
                                   (Some rec))))
               | Ok cloneResp =>
                   let status := minimax.StatusMsg (minimax.clone_BaseResp cloneResp) in
                   let logs := logs ++ ["  ✅ 克隆成功，Voice ID：" +:+ voiceID;
                                        "     MiniMax 状态：" +:+ status] in
                   now <- Now;
                   let rec := exporter.mkRecord file fileIDStr voiceID "success" "" now in
                   stamp <- Now;
                   ret (Some (CloneStepMsg
                                (mkCloneStepMsg file voiceID status None stamp logs
                                   (Some rec))))
               end
           end
       end
   end)%io.

(** The closure returned by [exportCmd]. *)
Definition runExport (records : list exporter.ExportRecord) (downloadsDir : string)
  : IO Msg :=
  (r <- exporter.ToCSV records downloadsDir;
   match r with
   | Ok file => ret (exportResultMsg file None)
   | Err err => ret (exportResultMsg "" (Some err))
   end)%io.

(** *** The Bubble Tea runtime *)

(** How a session stands: waiting for input, ended by [tea.Quit],
    ended by a panic, or still busy when the fuel ran out. *)
Inductive Status : Type := Idle | Terminated | Crashed | Busy.

(** One pass of the event loop over the pending commands: a command is
    run, its message goes through [Update], the command that comes back
    joins the queue.  The members of a [Batch] are taken in order; a
    spinner tick only re-arms itself and is dropped.  [hist] collects
    the messages dispatched. *)
Fixpoint run (fuel : nat) (m : model) (pending : list Cmd) (hist : list Msg)
  : IO (Status * model * list Msg) :=
  match fuel with
  | O => ret (match pending with [] => Idle | _ => Busy end, m, hist)
  | S fuel' =>
      match pending with
      | [] => ret (Idle, m, hist)
      | c :: rest =>
          let deliver (msg : Msg) : IO (Status * model * list Msg) :=
            ('(m', c') <- Update m msg;
             run fuel' m' (rest ++ [c']) (hist ++ [msg]))%io in
          match c with
          | Nil => run fuel' m rest hist
          | SpinnerTick => run fuel' m rest hist
          | Quit => ret (Terminated, m, hist)
          | Panic _ => ret (Crashed, m, hist)
          | Batch cs => run fuel' m (cs ++ rest) hist
          | LoadDirectory dir =>
              (msg <- runLoadDirectory dir; deliver msg)%io
          | CloneFile client file =>
              (r <- runCloneFile client file;
               match r with
               | Some msg => deliver msg
               | None => ret (Crashed, m, hist)
               end)%io
          | CloneFinished s f => deliver (cloneFinishedMsg s f)
          | Export records dir =>
              (msg <- runExport records dir; deliver msg)%io
          end
      end
  end.

(** A message from the terminal, followed by the commands it sets off. *)
Definition dispatch (fuel : nat) (m : model) (msg : Msg)
  : IO (Status * model * list Msg) :=
  ('(m', c) <- Update m msg; run fuel m' [c] [msg])%io.

(** What the user faces once a message has been dealt with. *)
Inductive Lifecycle : Type :=
| Showing (s : appState)
| Ended.

Definition lifecycle (r : Status * model * list Msg) : Lifecycle :=
  match r with
  | (Idle, m, _) | (Busy, m, _) => Showing (state m)
  | (Terminated, _, _) | (Crashed, _, _) => Ended
  end.

(** *** Sessions *)

(** What happens next in a session: the terminal sends a key or a new
    size, a timer of a library fires, or one of the commands in flight
    returns ([Returns i] is the [i]-th of them).  Bubble Tea runs every
    command in a goroutine of its own and hands the messages to [Update]
    one at a time, so the commands in flight return in any order, and
    between any two of them the terminal may speak. *)
Inductive Event : Type :=
| Key (key : string)
| Resize (Width Height : Z)
| Timer (tag : nat)
| Returns (i : nat).

(** A message goes through [Update]; the command that comes back joins
    the commands in flight. *)
Definition deliver (m : model) (flying : list Cmd) (msg : Msg)
  : IO (Status * model * list Cmd) :=
  ('(m', c) <- Update m msg; ret (Idle, m', flying ++ [c]))%io.

(** One event.  A batch that returns puts its members in flight; a
    spinner tick only re-arms itself. *)
Definition step (m : model) (flying : list Cmd) (ev : Event)
  : IO (Status * model * list Cmd) :=
  match ev with
  | Key key => deliver m flying (KeyMsg key)
  | Resize w h => deliver m flying (WindowSizeMsg w h)
  | Timer tag => deliver m flying (libMsg tag)
  | Returns i =>
      match flying !! i with
      | None => ret (Idle, m, flying)
      | Some c =>
          let others := delete i flying in
          match c with
          | Nil => ret (Idle, m, others)
          | SpinnerTick => ret (Idle, m, others)
          | Quit => ret (Terminated, m, others)
          | Panic _ => ret (Crashed, m, others)
          | Batch cs => ret (Idle, m, others ++ cs)
          | LoadDirectory dir =>
              (msg <- runLoadDirectory dir; deliver m others msg)%io
          | CloneFile client file =>
              (r <- runCloneFile client file;
               match r with
               | Some msg => deliver m others msg
               | None => ret (Crashed, m, others)
               end)%io
          | CloneFinished s f => deliver m others (cloneFinishedMsg s f)
          | Export records dir =>
              (msg <- runExport records dir; deliver m others msg)%io
          end
      end
  end.

(** The events of a session, one after the other, until the program
    ends. *)
Fixpoint session (m : model) (flying : list Cmd) (evs : list Event)
  : IO (Status * model * list Cmd) :=
  match evs with
  | [] => ret (Idle, m, flying)
  | ev :: rest =>
      ('(st, m', flying') <- step m flying ev;
       match st with
       | Idle => session m' flying' rest
       | _ => ret (st, m', flying')
       end)%io
  end.

End WithRuntime.
End app.

(** ** package main *)

Module main.
Section WithRuntime.
Context {rt : Runtime} {toml : config.Toml} {json : minimax.Json}
        {bubbles : app.Bubbles}.

(** [func main()] up to [tea.NewProgram]: [Err] is a message on the
    standard error followed by [os.Exit(1)], [Ok] the model the program
    starts with ([App.Run] replaces an empty root path by a dot). *)
Definition startup : IO (result app.model) :=
  (r <- system.ResolvePaths;
   match r with
   | Err err => ret (Err ("无法解析路径: " +:+ err))
   | Ok paths =>
       e <- system.EnsureDirs paths;
       match e with
       | Some err => ret (Err ("无法创建目录: " +:+ err))
       | None =>
           '(cfg, e) <- config.Load (system.ConfigFile paths);
           match e with
           | Some err => ret (Err ("读取配置失败: " +:+ err))
           | None =>
               e <- logging.Setup (system.LogFile paths);
               match e with
               | Some err => ret (Err ("初始化日志失败: " +:+ err))
               | None =>
                   wd <- ask os_Getwd;
                   let startDir := match wd with Ok d => d | Err _ => "." end in
                   let rootPath := if String.eqb startDir "" then "." else startDir in
                   m <- app.newModel cfg paths rootPath;
                   ret (Ok m)
               end
           end
       end
   end)%io.

End WithRuntime.
End main.

(** ** A concrete world to run the program in *)

Module sample.

(** ASCII lowering, the part of [strings.ToLower] that needs no table. *)
Definition lowerAscii (c : ascii) : ascii :=
  let n := Z.of_N (N_of_ascii c) in
  if (65 <=? n) && (n <=? 90) then ascii_of_Z (n + 32) else c.

Fixpoint ToLower (s : string) : string :=
  match s with
  | EmptyString => EmptyString
  | String c rest => String (lowerAscii c) (ToLower rest)
  end.

(** Insertion sort, as [sort.Slice] does on short slices. *)
Fixpoint insert {A} (less : A -> A -> bool) (x : A) (l : list A) : list A :=
  match l with
  | [] => [x]
  | y :: rest => if less x y then x :: y :: rest else y :: insert less x rest
  end.

Definition insertionSort (A : Type) (l : list A) (less : A -> A -> bool)
  : list A :=
  foldr (insert less) [] l.

(** Slash-separated paths without dots to clean. *)
Fixpoint splitLast (s : string) : string * string :=
  match s with
  | EmptyString => (EmptyString, EmptyString)
  | String c rest =>
      let '(d, b) := splitLast rest in
      if Ascii.eqb c "/" && String.eqb d "" && negb (existsb (Ascii.eqb "/") (String.list_ascii_of_string rest))
      then (EmptyString, rest)
      else if String.eqb d "" && negb (existsb (Ascii.eqb "/") (String.list_ascii_of_string rest))
      then (EmptyString, String c rest)
      else (String c d, b)
  end.

Definition hasSlash (s : string) : bool :=
  existsb (Ascii.eqb "/") (String.list_ascii_of_string s).

Definition Dir (p : string) : string :=
  if negb (hasSlash p) then "."
  else let d := fst (splitLast p) in
       if String.eqb d "" then "/" else d.

Definition Base (p : string) : string :=
  if negb (hasSlash p) then p else snd (splitLast p).

Definition Join (a b : string) : string :=
  if String.eqb a "/" then a +:+ b else a +:+ "/" +:+ b.

(** The clock starts in 2024; every layout prints the second count. *)
Definition clockTime (t : nat) : Time := mkTime (63839000000 + Z.of_nat t) 0 0.

Definition Format (t : Time) (layout : string) : string :=
  "s" +:+ pretty (abs_sec t).

(** Three audio files (two of them with contents whose digests end in
    the same six digits), a text file and a sub-directory. *)
Definition ReadDir (dir : string) : result (list DirEntry) :=
  if String.eqb dir "/music" then
    Ok [mkDirEntry "A.txt" false; mkDirEntry "a.mp3" false;
        mkDirEntry "b.wav" false; mkDirEntry "bad.mp3" false;
        mkDirEntry "live" true]
  else if String.eqb dir "/music/live" then Ok []
  else if String.eqb dir "/" then Ok [mkDirEntry "music" true]
  else Err "no such file or directory".

Definition Open (p : string) : result (result (list byte)) :=
  if String.eqb p "/music/a.mp3" then Ok (Ok (bytes_of_string "voice-sample-912"))
  else if String.eqb p "/music/b.wav" then Ok (Ok (bytes_of_string "voice-sample-1537"))
  else if String.eqb p "/music/copy/renamed.m4a" then Ok (Ok (bytes_of_string "voice-sample-912"))
  else if String.eqb p "/music/bad.mp3" then Ok (Ok (bytes_of_string "noise"))
  else Err "no such file or directory".

Definition Stat (p : string) : result bool :=
  if String.eqb p "/music" || String.eqb p "/music/live" || String.eqb p "/"
  then Ok true
  else match Open p with
       | Ok _ => Ok false
       | Err e => Err e
       end.

(** The configuration file holds a blank line; no other file is read. *)
Definition ReadFile (p : string) : PathError + list byte :=
  if String.eqb p "/home/u/.minimax/config.toml"
  then inr [x20; x20; x09; x0a]
  else inl (mkPathError "no such file or directory" true).

(** The service takes every upload but [bad.mp3]. *)
Definition Do (req : http.Request) : result http.Response :=
  match http.ReqBody req with
  | http.MultipartForm _ filename _ =>
      if String.eqb filename "bad.mp3" then Err "network error"
      else Ok (http.mkResponse 200 (Ok (bytes_of_string "upload")))
  | http.JSONVoiceClone _ _ =>
      Ok (http.mkResponse 200 (Ok (bytes_of_string "clone")))
  end.

#[export] Instance runtime : Runtime := {|
  time_Now := clockTime;
  time_Format := Format;
  strings_ToLower := ToLower;
  sort_Slice := insertionSort;
  filepath_Dir := Dir;
  filepath_Join := Join;
  filepath_Base := Base;
  filepath_Abs := fun _ p => Ok p;
  os_UserHomeDir := fun _ => Ok "/home/u";
  os_Getwd := fun _ => Ok "/music";
  os_ReadFile := fun _ => ReadFile;
  os_Open := fun _ => Open;
  os_ReadDir := fun _ => ReadDir;
  os_Stat := fun _ => Stat;
  os_fault := fun _ _ => None;
  http_Do := fun _ => Do
|}.

#[export] Instance toml : config.Toml := {|
  config.toml_Unmarshal := fun _ _ => Err "toml: not a document";
  config.toml_Marshal := fun cfg =>
    Ok (bytes_of_string (config.MinimaxSecret cfg +:+ "," +:+ config.MinimaxGroup cfg))
|}.

#[export] Instance json : minimax.Json := {|
  minimax.json_Unmarshal_Upload := fun _ =>
    Ok (minimax.mkUploadResponse
          (minimax.mkFileInfo 7 16 0 "upload" "voice_clone")
          (minimax.mkBaseResp 0 "ok"));
  minimax.json_Unmarshal_Clone := fun _ =>
    Ok (minimax.mkVoiceCloneResponse false 0 "" (minimax.mkBaseResp 0 "ok"))
|}.

#[export] Instance bubbles : app.Bubbles := {|
  app.list_Update := fun l _ => l;
  app.textinput_Update := fun t _ => t;
  app.viewport_SetContent := fun vp s =>
    app.mkViewport (app.vp_Width vp) (app.vp_Height vp) s (app.vp_YOffset vp);
  app.viewport_GotoBottom := fun vp => vp;
  app.spinner_Update := fun _ => app.Nil
|}.

Definition world0 : World := mkWorld 0 [].

Definition paths0 : system.Paths :=
  system.mkPaths "/home/u/.minimax" "/home/u/.minimax/config.toml"
    "/home/u/minimax" "/home/u/minimax/logs" "/home/u/minimax/logs/app.log"
    "/home/u/minimax/minimax.db" "/home/u/Downloads".

(** The model of a first run (no credentials), and of a configured one
    after its first directory listing. *)
Definition firstRun : app.model :=
  fst (app.newModel (config.mkConfig "" "") paths0 "/music" world0).

Definition configured : app.model :=
  fst (app.newModel (config.mkConfig "key" "group") paths0 "/music" world0).

Definition browsing : app.model :=
  snd (fst (fst (app.run 4 configured [app.Init configured] [] world0))).

(** The cursor moved to the [n]-th entry. *)
Definition at_entry (n : Z) (m : app.model) : app.model :=
  app.set_list_ (app.Select (app.list_ m) n) m.

(** A message sent to a model that waits for input. *)
Definition send (msg : app.Msg) (m : app.model) : app.model :=
  snd (fst (fst (app.dispatch 20 m msg world0))).



Definition client0 : minimax.Client := minimax.mkClient "key" "group".

(** [a.mp3] then [b.wav] marked. *)
Definition item_a : app.fileItem :=
  app.mkFileItem "a.mp3" "/music/a.mp3" false false.

Definition item_b : app.fileItem :=
  app.mkFileItem "b.wav" "/music/b.wav" false false.

Definition two_selected : app.model :=
  app.toggleSelection (app.toggleSelection browsing item_a) item_b.

(** The cursor on the directory [live], and on the text file. *)
Definition on_directory : app.model := at_entry 1 browsing.

Definition on_text_file : app.model := at_entry 3 browsing.




Definition record1 : exporter.ExportRecord :=
  exporter.mkRecord "/music/a.mp3" "7" "minimax-voice-474b2e" "success" ""
    (clockTime 7).

Definition record2 : exporter.ExportRecord :=
  exporter.mkRecord "/music/bad.mp3" "" "" "failed" "network error"
    (mkTime 0 0 0).


(** A list whose cursor follows the arrow keys, and a spinner that
    re-arms itself. *)
Definition moving : app.Bubbles := {|
  app.list_Update := fun l msg =>
    match msg with
    | app.KeyMsg key =>
        if String.eqb key "down" then app.Select l (app.cursor l + 1)
        else if String.eqb key "up" then app.Select l (app.cursor l - 1)
        else l
    | _ => l
    end;
  app.textinput_Update := fun t _ => t;
  app.viewport_SetContent := fun vp s =>
    app.mkViewport (app.vp_Width vp) (app.vp_Height vp) s (app.vp_YOffset vp);
  app.viewport_GotoBottom := fun vp => vp;
  app.spinner_Update := fun _ => app.SpinnerTick
|}.

(** A visit: the first listing arrives, the cursor goes down to
    [a.mp3], the file is marked and cloned while the user types and the
    terminal is resized, the summary is dismissed. *)
Definition visit : list app.Event :=
  [app.Returns 0; app.Returns 0; app.Returns 0;
   app.Key "down"; app.Key "down"; app.Key " "; app.Key "c"; app.Key "enter";
   app.Returns 4; app.Key "q"; app.Resize 100 30; app.Timer 0;
   app.Returns 5; app.Returns 8; app.Key "q"].

Definition visited : app.Status * app.model * list app.Cmd :=
  fst (@app.session runtime toml json moving configured [app.Init configured]
         visit world0).

(** The same visit, stopped while the job is in flight. *)
Definition midrun : app.Status * app.model * list app.Cmd :=
  fst (@app.session runtime toml json moving configured [app.Init configured]
         (take 12 visit) world0).

(** The first run with the two fields typed in. *)
Definition typed : app.model :=
  app.set_textInputs
    [app.mkTextInput " key " true; app.mkTextInput "group" false] firstRun.
End sample.

(** * The vocabulary of the properties *)

(** The voice-clone requests in an effect log, in the order sent. *)
Definition submitted (es : list (Effect * option string)) : list (Z * string) :=
  omap (fun e =>
          match fst e with
          | HttpDo req =>
              match http.ReqBody req with
              | http.JSONVoiceClone fid vid => Some (fid, vid)
              | _ => None
              end
          | _ => None
          end) es.

(** A configuration file that is absent, or holds nothing but white
    space, in the sense of the two tests [Load] makes. *)
Definition missing_or_blank (r : PathError + list byte) : Prop :=
  match r with
  | inl err => pe_notExist err = true
  | inr data => len (bytes.TrimSpace data) = 0
  end.

(** The invariant of the data model: the order holds every selected
    path once, and nothing else; the map only ever stores [true]. *)
Definition sel_wf (m : app.model) : Prop :=
  NoDup (app.selectedOrder m)
  /\ forall p, app.selected m !! p
               = (if decide (p ∈ app.selectedOrder m) then Some true else None).

(** What a record says about the step that produced it. *)
Definition record_matches (file : string) (msg : app.cloneStepMsg)
    (rec : exporter.ExportRecord) : Prop :=
  exporter.FilePath rec = file
  /\ ((app.Err_ msg = None
       /\ exporter.Status rec = "success" /\ exporter.ErrorReason rec = "")
      \/ (exists e, app.Err_ msg = Some e
                    /\ exporter.Status rec = "failed"
                    /\ exporter.ErrorReason rec = e)).

(** What [sort.Slice] promises for a [less] that is a strict weak
    ordering: the slice is rearranged, and no element is followed by one
    that is less than it. *)
Definition strict_weak_order {A} (less : A -> A -> bool) : Prop :=
  (forall a, less a a = false)
  /\ (forall a b c, less a b = true -> less b c = true -> less a c = true)
  /\ (forall a b c,
         less a b = false -> less b a = false ->
         less b c = false -> less c b = false ->
         less a c = false /\ less c a = false).




(** The request [UploadFile] posts for a file read as [data] under the
    absolute path [absPath], and the one [CloneWithFileID] posts. *)
Definition uploadRequest (c : minimax.Client) (base : string) (data : list byte)
  : http.Request :=
  http.mkRequest "POST" "https://api.minimaxi.com/v1/files/upload"
    ("Bearer " +:+ minimax.apiKey c)
    (http.MultipartForm "voice_clone" base data).


(** The effects a computation added to the log of [w]. *)
Definition added (w w' : World) : list (Effect * option string) :=
  drop (length (effects w)) (effects w').

(** A successful write of one row through the writer of [p]. *)
Definition wrote (p : string) (row : list string) : Effect * option string :=
  (CsvWrite p row, None).


(** The single commands behind a command, its batches opened. *)
Fixpoint atoms (c : app.Cmd) : list app.Cmd :=
  match c with
  | app.Batch cs =>
      (fix each (l : list app.Cmd) : list app.Cmd :=
         match l with
         | [] => []
         | c' :: l' => atoms c' ++ each l'
         end) cs
  | _ => [c]
  end.

Definition inFlight (cmds : list app.Cmd) : list app.Cmd := flat_map atoms cmds.

(** The commands of the pipeline, and the export command. *)
Definition isJob (c : app.Cmd) : bool :=
  match c with
  | app.CloneFile _ _ | app.CloneFinished _ _ => true
  | _ => false
  end.

Definition isExport (c : app.Cmd) : bool :=
  match c with
  | app.Export _ _ => true
  | _ => false
  end.

Definition countIf (f : app.Cmd -> bool) (l : list app.Cmd) : Z :=
  len (List.filter f l).

(** The client is the one the stored credentials give. *)
Definition client_matches (m : app.model) : Prop :=
  app.minimax m
  = if config.IsComplete (app.cfg m)
    then Some (minimax.NewClient (config.MinimaxSecret (app.cfg m))
                 (config.MinimaxGroup (app.cfg m)))
    else None.

(** The books of the pipeline: while a run is on and on its summary
    the two counters add up to the number of results, which are those
    of the first files of the queue, in order; at any other moment the
    queue is empty and the counters are zero. *)
Definition books_ok (m : app.model) : Prop :=
  match app.state m with
  | app.stateCloning =>
      app.cloneSuccess m + app.cloneFailed m = len (app.results m)
      /\ map exporter.FilePath (app.results m)
         = take (length (app.results m)) (app.cloneQueue m)
  | app.stateSummary =>
      app.cloneSuccess m + app.cloneFailed m = len (app.results m)
      /\ map exporter.FilePath (app.results m) = app.cloneQueue m
      /\ app.cloneIndex m = len (app.cloneQueue m)
  | _ =>
      app.cloneQueue m = [] /\ app.cloneIndex m = 0
      /\ app.cloneSuccess m = 0 /\ app.cloneFailed m = 0
  end.

(** What holds of the model at every moment of a session of at most
    [B] events. *)
Definition model_ok (B : Z) (m : app.model) : Prop :=
  sel_wf m
  /\ length (app.textInputs m) = 2%nat
  /\ client_matches m
  /\ (app.state m <> app.stateConfig -> config.IsComplete (app.cfg m) = true)
  /\ len (app.selectedOrder m) <= B
  /\ len (app.cloneQueue m) <= B
  /\ 0 <= app.cloneIndex m <= len (app.cloneQueue m)
  /\ 0 <= app.cloneSuccess m /\ 0 <= app.cloneFailed m
  /\ books_ok m.

(** What a command in flight has to do with the model: a job is that
    of the next file of the queue with the client of the model, the
    completion signal carries the counters, and the export the
    results; nothing in flight panics. *)
Definition atom_ok (m : app.model) (a : app.Cmd) : Prop :=
  match a with
  | app.Panic _ | app.Batch _ => False
  | app.CloneFile client file =>
      app.state m = app.stateCloning
      /\ client = app.minimax m /\ client <> None
      /\ app.cloneQueue m !! length (app.results m) = Some file
      /\ app.cloneIndex m = len (app.results m) + 1
  | app.CloneFinished s f =>
      app.state m = app.stateCloning
      /\ s = app.cloneSuccess m /\ f = app.cloneFailed m
      /\ app.cloneIndex m = len (app.results m)
      /\ len (app.results m) = len (app.cloneQueue m)
  | app.Export records dir =>
      app.state m = app.stateExporting
      /\ records = app.results m
      /\ dir = system.DownloadsDir (app.paths m)
  | _ => True
  end.

(** One job is in flight while a run is on and none otherwise; one
    export is in flight on the export screen and none otherwise. *)
Definition flight_ok (m : app.model) (A : list app.Cmd) : Prop :=
  Forall (atom_ok m) A
  /\ countIf isJob A
     = (if bool_decide (app.state m = app.stateCloning) then 1 else 0)
  /\ countIf isExport A
     = (if bool_decide (app.state m = app.stateExporting) then 1 else 0).

Definition session_ok (B : Z) (m : app.model) (flying : list app.Cmd) : Prop :=
  model_ok B m /\ flight_ok m (inFlight flying).

(** The messages that do not come from a job or an export. *)
Definition plainMsg (msg : app.Msg) : bool :=
  match msg with
  | app.CloneStepMsg _ | app.cloneFinishedMsg _ _ | app.exportResultMsg _ _ => false
  | _ => true
  end.

Section Vocabulary.
Context {rt : Runtime} {toml : config.Toml} {json : minimax.Json}
        {bubbles : app.Bubbles}.

(** No write fails from the current instant on. *)
Definition no_faults_from (w : World) : Prop :=
  forall t e, (clock w <= t)%nat -> os_fault t e = None.

Definition sort_Slice_sorts : Prop :=
  forall (A : Type) (l : list A) (less : A -> A -> bool),
    strict_weak_order less ->
    Permutation l (sort_Slice A l less)
    /\ StronglySorted (fun a b => less b a = false) (sort_Slice A l less).

(** The entries [toggleSelection] lets through its two guards. *)
Definition togglable (item : app.fileItem) : bool :=
  negb (app.isDir item)
  && app.allowedExt (strings_ToLower (filepath.Ext (app.path item))).

Definition toggles (n : nat) (item : app.fileItem) (m : app.model) : app.model :=
  Nat.iter n (fun m' => app.toggleSelection m' item) m.

(** The file name [ToCSV] picks when asked at [w]. *)
Definition exportPath (downloadsDir : string) (w : World) : string :=
  filepath_Join downloadsDir
    ("minimax_voice_export_"
     +:+ time_Format (time_Now (S (clock w))) "20060102_150405" +:+ ".csv").

Definition parentItem (dir : string) : list app.fileItem :=
  if String.eqb (filepath_Dir dir) dir then []
  else [app.mkFileItem ".." (filepath_Dir dir) true true].

Definition entryItem (dir : string) (entry : DirEntry) : app.fileItem :=
  app.mkFileItem (Name entry) (filepath_Join dir (Name entry)) (IsDir entry) false.


(** The message the status line shows after the automatic export. *)
Definition finishedStatus (Success Failed : Z) (r : result string) : string :=
  match r with
  | Err _ =>
      "克隆完成：成功 " +:+ pretty Success +:+ " · 失败 " +:+ pretty Failed
      +:+ " · 导出失败（按 q 返回）"
  | Ok csvPath =>
      "克隆完成：成功 " +:+ pretty Success +:+ " · 失败 " +:+ pretty Failed
      +:+ " · CSV：" +:+ csvPath +:+ " (按 q 返回)"
  end.



(** What the spinner of the library gives back: nothing, or its next
    tick. *)
Definition spinner_ticks : Prop :=
  forall msg, app.spinner_Update msg = app.Nil
              \/ app.spinner_Update msg = app.SpinnerTick.

End Vocabulary.

(** * Properties *)

(** ** The library models, run on known values *)

Example Ext_mp3 : filepath.Ext "/music/a.b/Song.MP3" = ".MP3".
Proof. reflexivity. Qed.

Example Ext_none : filepath.Ext "/music/a.b/song" = "".
Proof. reflexivity. Qed.

Example TrimSpace_ascii :
  bytes.TrimSpace (bytes_of_string "  a b
 ") = bytes_of_string "a b".
Proof. vm_compute. reflexivity. Qed.

(* "\xC2\xA0 x \xE3\x80\x80": NBSP and U+3000 around an ASCII letter *)
Example TrimSpace_unicode :
  bytes.TrimSpace [xc2; xa0; x20; x78; x20; xe3; x80; x80] = [x78].
Proof. vm_compute. reflexivity. Qed.

Example TrimSpace_only_unicode :
  bytes.TrimSpace [x20; xe2; x80; xa8; xc2; x85; x0a] = [].
Proof. vm_compute. reflexivity. Qed.

(* an invalid byte is not a space *)
Example TrimSpace_invalid :
  bytes.TrimSpace [x20; xa0; x20] = [xa0].
Proof. vm_compute. reflexivity. Qed.

Example md5_empty :
  hex.EncodeToString (md5.Sum []) = "d41d8cd98f00b204e9800998ecf8427e".
Proof. vm_compute. reflexivity. Qed.

Example md5_abc :
  hex.EncodeToString (md5.Sum (bytes_of_string "abc"))
  = "900150983cd24fb0d6963f7d28e17f72".
Proof. vm_compute. reflexivity. Qed.

Example md5_two_blocks :
  hex.EncodeToString (md5.Sum (bytes_of_string
    "12345678901234567890123456789012345678901234567890123456789012345678901234567890"))
  = "57edf4a22be3c955ac49da2e2107b67a".
Proof. vm_compute. reflexivity. Qed.

(** ** Digests and voice identifiers *)





Lemma append_String c (a b : string) : String c a +:+ b = String c (a +:+ b).
Proof. reflexivity. Qed.




Section Identifiers.
Context {rt : Runtime} {json : minimax.Json}.

(** What [GenerateVoiceID] returns is decided by the two oracle answers
    it asks for. *)
Lemma GenerateVoiceID_reads path w absPath content :
  filepath_Abs (clock w) path = Ok absPath ->
  os_Open (S (clock w)) absPath = Ok (Ok content) ->
  minimax.GenerateVoiceID path w = (Ok (minimax.voiceIDOf content), tick (tick w)).
Proof.
  intros Habs Hopen. unfold minimax.GenerateVoiceID, bind, ask, ret.
  rewrite Habs. simpl. rewrite Hopen. reflexivity.
Qed.


Lemma CloneWithFileID_effects c fileID voiceID w :
  String.eqb (minimax.apiKey c) "" || String.eqb (minimax.groupID c) "" = false ->
  submitted (effects (snd (minimax.CloneWithFileID c fileID voiceID w)))
  = submitted (effects w) ++ [(fileID, voiceID)].
Proof.
  intros Hcred. unfold minimax.CloneWithFileID. rewrite Hcred.
  unfold bind, minimax.Do, ret.
  set (req := http.mkRequest _ _ _ _).
  assert (Hsub : forall r,
             submitted (effects w ++ [(HttpDo req, r)])
             = submitted (effects w) ++ [(fileID, voiceID)]).
  { intros r. unfold submitted. rewrite omap_app. reflexivity. }
  destruct (http_Do (clock w) req) as [resp|e]; simpl; [|apply Hsub].
  destruct (http.RespBody resp) as [body|e]; simpl; [|apply Hsub].
  destruct (negb (http.StatusCode resp =? http.StatusOK)); simpl; [apply Hsub|].
  destruct (minimax.json_Unmarshal_Clone body) as [res|e]; simpl; [|apply Hsub].
  destruct (negb (minimax.StatusCode (minimax.clone_BaseResp res) =? 0));
    simpl; apply Hsub.
Qed.

(** The job the application runs sends the same identifier. *)
Lemma runCloneFile_submits c path w vid w1 up w2 :
  String.eqb (minimax.apiKey c) "" || String.eqb (minimax.groupID c) "" = false ->
  minimax.GenerateVoiceID path (tick w) = (Ok vid, w1) ->
  minimax.UploadFile c path w1 = (Ok up, w2) ->
  submitted (effects (snd (app.runCloneFile (Some c) path w)))
  = submitted (effects w2) ++ [(minimax.FileID (minimax.File up), vid)].
Proof.
  intros Hcred Hgen Hup. unfold app.runCloneFile, bind, Now, ask, ret.
  rewrite Hgen. rewrite Hup.
  pose proof (CloneWithFileID_effects c (minimax.FileID (minimax.File up)) vid w2 Hcred)
    as H.
  destruct (minimax.CloneWithFileID c _ vid w2) as [[res|e] w3]; exact H.
Qed.

(** C8: the voice identifier is a function of the bytes of the file
    alone: two files that read as the same content, under whatever
    names and at whatever moments, get the same identifier. *)
Theorem C8_voice_id_from_content_only
    (path1 path2 abs1 abs2 : string) (w1 w2 : World) (content : list byte) :
  filepath_Abs (clock w1) path1 = Ok abs1 ->
  os_Open (S (clock w1)) abs1 = Ok (Ok content) ->
  filepath_Abs (clock w2) path2 = Ok abs2 ->
  os_Open (S (clock w2)) abs2 = Ok (Ok content) ->
  fst (minimax.GenerateVoiceID path1 w1) = Ok (minimax.voiceIDOf content)
  /\ fst (minimax.GenerateVoiceID path2 w2) = fst (minimax.GenerateVoiceID path1 w1).
Proof.
  intros Ha1 Ho1 Ha2 Ho2.
  rewrite (GenerateVoiceID_reads _ _ _ _ Ha1 Ho1).
  rewrite (GenerateVoiceID_reads _ _ _ _ Ha2 Ho2). split; reflexivity.
Qed.


End Identifiers.

(** ** Loading the credentials *)

Lemma trimStart_spaces (data : list byte) :
  Forall (fun b => bytes.asciiSpace (byte_to_Z b) = true) data ->
  bytes.trimStart data = inl [].
Proof.
  induction 1 as [|b data Hb _ IH]; simpl; [reflexivity |].
  assert (Hlow : (utf8.RuneSelf <=? byte_to_Z b) = false).
  { unfold bytes.asciiSpace, utf8.RuneSelf in *. lia. }
  now rewrite Hlow, Hb.
Qed.

(** A file of ASCII blanks, tabs and line ends trims to nothing. *)
Lemma TrimSpace_spaces (data : list byte) :
  Forall (fun b => bytes.asciiSpace (byte_to_Z b) = true) data ->
  bytes.TrimSpace data = [].
Proof.
  intros H. unfold bytes.TrimSpace. now rewrite (trimStart_spaces _ H).
Qed.

Section Startup.
Context {rt : Runtime} {toml : config.Toml} {json : minimax.Json}
        {bubbles : app.Bubbles}.

Lemma Load_missing_or_blank path w :
  missing_or_blank (os_ReadFile (clock w) path) ->
  config.Load path w = (config.mkConfig "" "", None, tick w).
Proof.
  unfold config.Load, bind, ask, ret, missing_or_blank.
  destruct (os_ReadFile (clock w) path) as [err|data]; intros H.
  - now rewrite H.
  - rewrite H. reflexivity.
Qed.

Lemma newModel_state cfg0 paths0 root w :
  app.state (fst (app.newModel cfg0 paths0 root w))
  = (if config.IsComplete cfg0 then app.stateBrowser else app.stateConfig)
  /\ app.cfg (fst (app.newModel cfg0 paths0 root w)) = cfg0.
Proof.
  unfold app.newModel, bind, ask, ret.
  destruct (config.IsComplete cfg0); split; reflexivity.
Qed.

(** C10: when the configuration file does not exist, or is empty or
    white space only, [Load] returns the configuration with both fields
    empty and no error; the start-up then never stops on the
    configuration, and a start-up that gets through shows the Config
    state. *)
Theorem C10_missing_or_blank_config_starts_in_Config (w : World) :
  (forall t path, missing_or_blank (os_ReadFile t path)) ->
  (forall path w0, fst (config.Load path w0) = (config.mkConfig "" "", None))
  /\ match fst (main.startup w) with
     | Ok m =>
         app.state m = app.stateConfig /\ app.cfg m = config.mkConfig "" ""
     | Err e =>
         exists e', e = "无法解析路径: " +:+ e' \/ e = "无法创建目录: " +:+ e'
                    \/ e = "初始化日志失败: " +:+ e'
     end.
Proof.
  intros Hblank. split.
  - intros path w0. now rewrite Load_missing_or_blank.
  - unfold main.startup. unfold bind at 1.
    destruct (system.ResolvePaths w) as [[paths|e] w1]; [|simpl; eauto].
    unfold bind at 1.
    destruct (system.EnsureDirs paths w1) as [[e|] w2]; [simpl; eauto|].
    unfold bind at 1. rewrite Load_missing_or_blank by apply Hblank.
    unfold bind at 1.
    destruct (logging.Setup (system.LogFile paths) (tick w2)) as [[e|] w3];
      [simpl; eauto|].
    unfold bind, ask, ret.
    match goal with
    | |- context [app.newModel ?c ?p ?r ?x] =>
        pose proof (newModel_state c p r x) as [Hs Hc];
        destruct (app.newModel c p r x) as [m w4]
    end.
    simpl in *. auto.
Qed.

End Startup.

(** ** The Config and Browser states *)

Section Dispatch.
Context {rt : Runtime} {toml : config.Toml} {json : minimax.Json}
        {bubbles : app.Bubbles}.

(** C6 (amended): with incomplete stored credentials the program starts
    in Config, and the cancel key there does not lead to Browser: the
    model is returned as it is, Config included, together with the quit
    command, which ends the session. *)
Theorem C6_cancel_with_incomplete_credentials_quits
    (cfg0 : config.Config) (paths0 : system.Paths) (root : string) (w0 : World) :
  config.IsComplete cfg0 = false ->
  app.state (fst (app.newModel cfg0 paths0 root w0)) = app.stateConfig
  /\ forall (m : app.model) (w : World) (fuel : nat),
       app.state m = app.stateConfig ->
       config.IsComplete (app.cfg m) = false ->
       app.Update m (app.KeyMsg "esc") w = (m, app.Quit, w)
       /\ app.dispatch (S fuel) m (app.KeyMsg "esc") w
          = (app.Terminated, m, [app.KeyMsg "esc"], w)
       /\ app.lifecycle (fst (app.dispatch (S fuel) m (app.KeyMsg "esc") w))
          = app.Ended.
Proof.
  intros Hcfg. split.
  - destruct (newModel_state cfg0 paths0 root w0) as [Hs _].
    now rewrite Hs, Hcfg.
  - intros m w fuel Hstate Hinc.
    assert (Hupd : app.Update m (app.KeyMsg "esc") w = (m, app.Quit, w)).
    { unfold app.Update, app.handleKeyMsg. rewrite Hstate.
      unfold app.updateConfig. simpl. now rewrite Hinc. }
    split; [exact Hupd|].
    unfold app.dispatch, bind. rewrite Hupd. simpl. auto.
Qed.

(** C7 (amended): in the Browser state, toggling a directory entry
    changes nothing and shows no message; toggling a file with another
    extension than mp3, m4a, wav, asking to clone with nothing selected
    and asking to export with no result each set the error message and
    nothing else: state, selection, order and results stay. *)
Theorem C7_rejected_input_only_sets_the_message (m : app.model) (w : World) :
  app.state m = app.stateBrowser ->
  (forall key item,
      key = " " \/ key = "x" ->
      app.SelectedItem (app.list_ m) = Some item ->
      app.isDir item = true ->
      app.Update m (app.KeyMsg key) w = (m, app.Nil, w))
  /\ (forall key item,
         key = " " \/ key = "x" ->
         app.SelectedItem (app.list_ m) = Some item ->
         app.isDir item = false ->
         app.allowedExt (strings_ToLower (filepath.Ext (app.path item))) = false ->
         app.Update m (app.KeyMsg key) w
         = (app.set_errorMsg "仅支持选择 mp3、m4a、wav 文件" m, app.Nil, w))
  /\ (size (app.selected m) = 0%nat ->
      app.Update m (app.KeyMsg "c") w
      = (app.set_errorMsg "请先勾选至少一个文件" m, app.Nil, w))
  /\ (app.results m = [] ->
      app.Update m (app.KeyMsg "e") w
      = (app.set_errorMsg "暂无可导出的克隆记录" m, app.Nil, w))
  /\ (forall text,
         let m' := app.set_errorMsg text m in
         app.errorMsg m' = text
         /\ app.state m' = app.state m
         /\ app.selected m' = app.selected m
         /\ app.selectedOrder m' = app.selectedOrder m
         /\ app.results m' = app.results m).
Proof.
  intros Hstate.
  assert (Hkey : forall key,
             app.Update m (app.KeyMsg key) w = app.updateBrowserKeys m key w).
  { intros key. unfold app.Update, app.handleKeyMsg. now rewrite Hstate. }
  repeat split.
  - intros key item [-> | ->] Hsel Hdir; rewrite Hkey;
      unfold app.updateBrowserKeys; simpl; rewrite Hsel, Hdir; reflexivity.
  - intros key item [-> | ->] Hsel Hdir Hext; rewrite Hkey;
      unfold app.updateBrowserKeys; simpl; rewrite Hsel, Hdir; simpl;
      unfold app.toggleSelection; rewrite Hdir, Hext; reflexivity.
  - intros Hsize. rewrite Hkey. unfold app.updateBrowserKeys. simpl.
    now rewrite Hsize.
  - intros Hres. rewrite Hkey. unfold app.updateBrowserKeys. simpl.
    now rewrite Hres.
Qed.

End Dispatch.

(** ** The Selection Set *)

Lemma removeFirst_notin p (order : list string) :
  p ∉ order -> app.removeFirst p order = order.
Proof.
  induction order as [|q order IH]; intros Hp; simpl; [reflexivity |].
  apply not_elem_of_cons in Hp as [Hne Hp].
  destruct (String.eqb_spec q p) as [->|_]; [congruence |].
  now rewrite IH.
Qed.

Lemma removeFirst_app_last p (order : list string) :
  p ∉ order -> app.removeFirst p (order ++ [p]) = order.
Proof.
  induction order as [|q order IH]; intros Hp; simpl.
  - now rewrite String.eqb_refl.
  - apply not_elem_of_cons in Hp as [Hne Hp].
    destruct (String.eqb_spec q p) as [->|_]; [congruence |].
    now rewrite IH.
Qed.

Lemma elem_of_removeFirst p q (order : list string) :
  NoDup order -> q ∈ app.removeFirst p order <-> q ∈ order /\ q ≠ p.
Proof.
  induction 1 as [|r order Hr Hnd IH]; simpl.
  - split; [intros H; inversion H | intros [H _]; inversion H].
  - destruct (String.eqb_spec r p) as [->|Hne].
    + rewrite elem_of_cons. split.
      * intros Hq. split; [now right | intros ->; contradiction].
      * intros [[->|Hq] Hqp]; [contradiction | exact Hq].
    + rewrite !elem_of_cons, IH. split.
      * intros [->|[Hq Hqp]]; split; auto.
      * intros [[->|Hq] Hqp]; auto.
Qed.

Lemma NoDup_removeFirst p (order : list string) :
  NoDup order -> NoDup (app.removeFirst p order).
Proof.
  induction 1 as [|r order Hr Hnd IH]; simpl; [constructor |].
  destruct (String.eqb_spec r p) as [->|Hne]; [exact Hnd |].
  constructor; [|exact IH].
  rewrite elem_of_removeFirst by exact Hnd. tauto.
Qed.

Section Selection.
Context {rt : Runtime}.

Lemma isSelected_wf m p :
  sel_wf m -> app.isSelected m p = bool_decide (p ∈ app.selectedOrder m).
Proof.
  intros [_ Hmap]. unfold app.isSelected. rewrite Hmap.
  destruct (decide (p ∈ app.selectedOrder m)) as [Hin|Hout].
  - now rewrite bool_decide_eq_true_2.
  - now rewrite bool_decide_eq_false_2.
Qed.

Lemma toggle_rejected m item :
  togglable item = false ->
  app.selected (app.toggleSelection m item) = app.selected m
  /\ app.selectedOrder (app.toggleSelection m item) = app.selectedOrder m.
Proof.
  unfold togglable, app.toggleSelection.
  destruct (app.isDir item); simpl; [auto |].
  intros ->. simpl. auto.
Qed.

Lemma toggle_accepted m item :
  togglable item = true ->
  app.toggleSelection m item
  = if app.isSelected m (app.path item) then
      app.set_selectedOrder (app.removeFirst (app.path item) (app.selectedOrder m))
        (app.set_selected (delete (app.path item) (app.selected m)) m)
    else
      app.set_selectedOrder (app.selectedOrder m ++ [app.path item])
        (app.set_selected (<[app.path item := true]> (app.selected m)) m).
Proof.
  unfold togglable, app.toggleSelection.
  destruct (app.isDir item); simpl; [discriminate |].
  intros ->. reflexivity.
Qed.

(** Every toggle keeps the invariant. *)
Lemma toggle_wf m item : sel_wf m -> sel_wf (app.toggleSelection m item).
Proof.
  intros Hwf. destruct (togglable item) eqn:Hok.
  - rewrite (toggle_accepted _ _ Hok), (isSelected_wf _ _ Hwf).
    destruct Hwf as [Hnd Hmap]. set (p := app.path item).
    destruct (decide (p ∈ app.selectedOrder m)) as [Hin|Hout].
    + rewrite bool_decide_eq_true_2 by exact Hin.
      split; simpl; [now apply NoDup_removeFirst |].
      intros q. destruct (decide (q = p)) as [->|Hne].
      * rewrite lookup_delete_eq. rewrite decide_False; [reflexivity |].
        rewrite elem_of_removeFirst by exact Hnd. tauto.
      * rewrite lookup_delete_ne by congruence. rewrite Hmap.
        destruct (decide (q ∈ app.selectedOrder m)) as [Hq|Hq].
        -- rewrite decide_True; [reflexivity |].
           rewrite elem_of_removeFirst by exact Hnd. tauto.
        -- rewrite decide_False; [reflexivity |].
           rewrite elem_of_removeFirst by exact Hnd. tauto.
    + rewrite bool_decide_eq_false_2 by exact Hout.
      split; simpl.
      * apply NoDup_app. repeat split; auto.
        -- intros q Hq Hq'. apply list_elem_of_singleton in Hq'. congruence.
        -- apply NoDup_singleton.
      * intros q. destruct (decide (q = p)) as [->|Hne].
        -- rewrite lookup_insert_eq. rewrite decide_True; [reflexivity |].
           apply elem_of_app. right. now apply list_elem_of_singleton.
        -- rewrite lookup_insert_ne by congruence. rewrite Hmap.
           destruct (decide (q ∈ app.selectedOrder m)) as [Hq|Hq].
           ++ rewrite decide_True; [reflexivity |]. apply elem_of_app. now left.
           ++ rewrite decide_False; [reflexivity |].
              rewrite elem_of_app, list_elem_of_singleton. tauto.
  - destruct (toggle_rejected m item Hok) as [Hs Ho].
    unfold sel_wf. now rewrite Hs, Ho.
Qed.

(** Two toggles in a row: the map is back; the order is back when the
    path was not selected, and has the path moved to its end when it
    was. *)
Lemma toggle_twice m item :
  sel_wf m -> togglable item = true ->
  let m2 := app.toggleSelection (app.toggleSelection m item) item in
  app.selected m2 = app.selected m
  /\ app.selectedOrder m2
     = if app.isSelected m (app.path item)
       then app.removeFirst (app.path item) (app.selectedOrder m) ++ [app.path item]
       else app.selectedOrder m.
Proof.
  intros Hwf Hok. cbv zeta.
  pose proof (toggle_wf m item Hwf) as Hwf1.
  rewrite (toggle_accepted (app.toggleSelection m item) _ Hok).
  rewrite (isSelected_wf _ _ Hwf1).
  rewrite (toggle_accepted m _ Hok), (isSelected_wf _ _ Hwf).
  destruct Hwf as [Hnd Hmap]. set (p := app.path item).
  destruct (decide (p ∈ app.selectedOrder m)) as [Hin|Hout].
  - rewrite (bool_decide_eq_true_2 _ Hin). simpl.
    assert (Hgone : p ∉ app.removeFirst p (app.selectedOrder m)).
    { rewrite elem_of_removeFirst by exact Hnd. tauto. }
    rewrite (bool_decide_eq_false_2 _ Hgone). simpl. split; [|reflexivity].
    apply insert_delete_id. rewrite Hmap. now rewrite decide_True.
  - rewrite (bool_decide_eq_false_2 _ Hout). simpl.
    assert (Hthere : p ∈ app.selectedOrder m ++ [p]).
    { apply elem_of_app. right. now apply list_elem_of_singleton. }
    rewrite (bool_decide_eq_true_2 _ Hthere). simpl. split.
    + apply delete_insert_id. rewrite Hmap. now rewrite decide_False.
    + now apply removeFirst_app_last.
Qed.

Lemma toggles_wf n m item : sel_wf m -> sel_wf (toggles n item m).
Proof.
  intros Hwf. induction n as [|n IH]; simpl; [exact Hwf |].
  now apply toggle_wf.
Qed.

Lemma toggles_S_S n m item :
  toggles (S (S n)) item m
  = app.toggleSelection (app.toggleSelection (toggles n item m) item) item.
Proof. reflexivity. Qed.

(** C5 (amended): an even number of toggles of one entry gives back the
    membership of the Selection Set; it gives back the order as well
    when the path was not selected (or the entry is one that toggle
    refuses); when the path was selected, it ends up last in the order,
    the other paths keeping their relative order. *)
Theorem C5_even_toggles_restore_membership
    (m : app.model) (item : app.fileItem) (n : nat) :
  sel_wf m ->
  let m' := toggles (2 * n) item m in
  app.selected m' = app.selected m
  /\ (forall p, app.isSelected m' p = app.isSelected m p)
  /\ app.selectedOrder m'
     = (if togglable item && app.isSelected m (app.path item) && (0 <? n)%nat
        then app.removeFirst (app.path item) (app.selectedOrder m) ++ [app.path item]
        else app.selectedOrder m)
  /\ (app.isSelected m (app.path item) = false ->
      app.selectedOrder m' = app.selectedOrder m).
Proof.
  intros Hwf. cbv zeta.
  assert (Hmain :
    app.selected (toggles (2 * n) item m) = app.selected m
    /\ app.selectedOrder (toggles (2 * n) item m)
       = (if togglable item && app.isSelected m (app.path item) && (0 <? n)%nat
          then app.removeFirst (app.path item) (app.selectedOrder m) ++ [app.path item]
          else app.selectedOrder m)).
  { induction n as [|n [IHs IHo]].
    - simpl. rewrite andb_false_r. auto.
    - replace (2 * S n)%nat with (S (S (2 * n))) by lia.
      rewrite toggles_S_S.
      pose proof (toggles_wf (2 * n) m item Hwf) as Hwfn.
      destruct (togglable item) eqn:Hok.
      + destruct (toggle_twice _ item Hwfn Hok) as [Hs Ho].
        rewrite Hs, Ho, IHs. split; [reflexivity |].
        assert (Hsame : app.isSelected (toggles (2 * n) item m) (app.path item)
                        = app.isSelected m (app.path item)).
        { unfold app.isSelected. now rewrite IHs. }
        rewrite Hsame, IHo. simpl.
        destruct (app.isSelected m (app.path item)) eqn:Hsel; simpl; [|reflexivity].
        destruct n as [|n]; simpl; [reflexivity |].
        f_equal. apply removeFirst_app_last.
        destruct Hwf as [Hnd _]. rewrite elem_of_removeFirst by exact Hnd. tauto.
      + destruct (toggle_rejected (toggles (2 * n) item m) item Hok) as [Hs1 Ho1].
        destruct (toggle_rejected
                    (app.toggleSelection (toggles (2 * n) item m) item) item Hok)
          as [Hs2 Ho2].
        rewrite Hs2, Hs1, Ho2, Ho1, IHs, IHo. simpl. auto. }
  destruct Hmain as [Hs Ho]. repeat split; auto.
  - intros p. unfold app.isSelected. now rewrite Hs.
  - intros Hsel. rewrite Ho, Hsel, andb_false_r. reflexivity.
Qed.

End Selection.

(** ** One job of the pipeline *)

Section Job.
Context {rt : Runtime} {toml : config.Toml} {json : minimax.Json}
        {bubbles : app.Bubbles}.

(** Whatever the world answers, a job with a client ends in one step
    message for its file, carrying one record. *)
Lemma runCloneFile_spec client file w :
  match fst (app.runCloneFile client file w) with
  | Some (app.CloneStepMsg msg) =>
      app.Path msg = file
      /\ exists rec, app.Record_ msg = Some rec /\ record_matches file msg rec
  | Some _ => False
  | None => client = None
  end.
Proof.
  unfold app.runCloneFile, record_matches, bind, Now, ask, ret.
  destruct (minimax.GenerateVoiceID file (tick w)) as [[voiceID|err] w1]; simpl.
  2: { split; [reflexivity |]. eexists. split; [reflexivity |]. simpl. eauto 8. }
  destruct client as [c|]; [|reflexivity].
  destruct (minimax.UploadFile c file w1) as [[up|err] w2]; simpl.
  2: { split; [reflexivity |]. eexists. split; [reflexivity |]. simpl. eauto 8. }
  destruct (minimax.CloneWithFileID c _ voiceID w2) as [[res|err] w3]; simpl.
  - split; [reflexivity |]. eexists. split; [reflexivity |]. simpl. auto.
  - split; [reflexivity |]. eexists. split; [reflexivity |]. simpl. eauto 8.
Qed.

End Job.

(** ** The export file *)

Lemma files_of_app w (es : list (Effect * option string)) (c : nat) :
  fsview.files_of (mkWorld c (effects w ++ es))
  = foldl fsview.apply (fsview.files_of w) es.
Proof. unfold fsview.files_of. simpl. apply foldl_app. Qed.

(** Rows written through the writer of [p] queue up behind the rows
    already buffered. *)
Lemma apply_rows p (rows : list (list string)) fs :
  foldl fsview.apply fs (map (fun row => (CsvWrite p row, None)) rows)
  = {| fsview.csv_files := fsview.csv_files fs;
       fsview.csv_pending :=
         match rows with
         | [] => fsview.csv_pending fs
         | _ => <[p := fsview.rows_of (fsview.csv_pending fs) p ++ rows]>
                  (fsview.csv_pending fs)
         end;
       fsview.raw_files := fsview.raw_files fs |}.
Proof.
  revert fs. induction rows as [|row rows IH]; intros fs; simpl.
  - now destruct fs.
  - rewrite IH. simpl. f_equal.
    destruct rows as [|row' rows]; [reflexivity |].
    unfold fsview.rows_of at 1. rewrite lookup_insert_eq. simpl.
    rewrite insert_insert_eq. now rewrite <- app_assoc.
Qed.

Section ExportFile.
Context {rt : Runtime} {toml : config.Toml} {json : minimax.Json}
        {bubbles : app.Bubbles}.

Lemma writeRows_ok fullPath records w :
  no_faults_from w ->
  exporter.writeRows fullPath records w
  = (Ok fullPath,
     mkWorld (clock w + length records)
       (effects w
        ++ map (fun row => (CsvWrite fullPath row, None))
             (map exporter.row_of records))).
Proof.
  revert w. induction records as [|rec records IH]; intros w Hok; simpl.
  - unfold ret. rewrite Nat.add_0_r, app_nil_r. now destruct w.
  - unfold bind, perform. rewrite Hok by lia.
    rewrite IH.
    + simpl. rewrite <- app_assoc. simpl. do 2 f_equal. lia.
    + intros t e Ht. apply Hok. simpl in Ht. lia.
Qed.

Lemma ToCSV_ok records downloadsDir w :
  no_faults_from w -> downloadsDir <> "" -> records <> [] ->
  let fullPath := exportPath downloadsDir w in
  exporter.ToCSV records downloadsDir w
  = (Ok fullPath,
     mkWorld (clock w + length records + 6)
       (effects w
        ++ [(MkdirAll downloadsDir, None); (Create fullPath, None)]
        ++ map (fun row => (CsvWrite fullPath row, None))
             (exporter.header :: map exporter.row_of records)
        ++ [(CsvFlush fullPath, None); (Close fullPath, None)])).
Proof.
  intros Hok Hdir Hrec fullPath. unfold exporter.ToCSV.
  destruct (String.eqb_spec downloadsDir "") as [->|_]; [congruence |].
  unfold bind at 1. unfold perform at 1. rewrite Hok by lia.
  assert (Hlen : (len records =? 0) = false).
  { destruct records; [congruence |]. unfold len. simpl. lia. }
  rewrite Hlen. unfold bind at 1. unfold Now, ask. simpl.
  fold (exportPath downloadsDir w). fold fullPath.
  unfold bind at 1. unfold perform at 1. simpl. rewrite Hok by lia.
  unfold bind at 1. unfold bind at 1. unfold perform at 1. simpl.
  rewrite Hok by lia.
  rewrite writeRows_ok by (intros t e Ht; apply Hok; simpl in Ht; lia).
  unfold bind, perform, ret. simpl.
  rewrite !Hok by lia. f_equal. f_equal; [lia |].
  rewrite <- !app_assoc. reflexivity.
Qed.

Lemma ToCSV_empty downloadsDir w :
  exists e w',
    exporter.ToCSV [] downloadsDir w = (Err e, w')
    /\ fsview.files_of w' = fsview.files_of w.
Proof.
  unfold exporter.ToCSV.
  destruct (String.eqb downloadsDir ""); [unfold ret; eauto |].
  unfold bind, perform, ret.
  destruct (os_fault (clock w) (MkdirAll downloadsDir)) as [e|] eqn:Hf.
  - eexists _, _. split; [reflexivity |].
    rewrite (files_of_app w). reflexivity.
  - simpl. eexists _, _. split; [reflexivity |].
    rewrite (files_of_app w). reflexivity.
Qed.

(** C3: an export of [M >= 1] records that meets no write failure
    leaves a file of [M + 1] rows, the header and then one row per
    record in order, with the six columns in the fixed order, the last
    one empty exactly for a zero time stamp; the records of the pipeline
    have an empty reason on success; an export of no record returns an
    error and leaves the files as they were. *)
Theorem C3_export_has_header_and_one_row_per_record
    (records : list exporter.ExportRecord) (downloadsDir : string) (w : World) :
  no_faults_from w ->
  downloadsDir <> "" ->
  (forall t, time_Format t exporter.RFC3339 <> "") ->
  (records <> [] ->
   exists fullPath w',
     exporter.ToCSV records downloadsDir w = (Ok fullPath, w')
     /\ fsview.csv_files (fsview.files_of w') !! fullPath
        = Some (exporter.header :: map exporter.row_of records)
     /\ length (exporter.header :: map exporter.row_of records)
        = S (length records))
  /\ exporter.header
     = ["file_path"; "minimax_file_id"; "minimax_voice_id"; "status";
        "error_reason"; "updated_at"]
  /\ (forall rec,
         exists stamp,
           exporter.row_of rec
           = [exporter.FilePath rec; exporter.MinimaxFileID rec;
              exporter.MinimaxVoiceID rec; exporter.Status rec;
              exporter.ErrorReason rec; stamp]
           /\ (stamp = "" <-> IsZero (exporter.UpdatedAt rec) = true))
  /\ (forall client file w0 msg rec,
         fst (app.runCloneFile client file w0) = Some (app.CloneStepMsg msg) ->
         app.Record_ msg = Some rec ->
         (exporter.Status rec = "success" \/ exporter.Status rec = "failed")
         /\ (exporter.Status rec = "success" -> exporter.ErrorReason rec = ""))
  /\ (forall dir w0,
         exists e w',
           exporter.ToCSV [] dir w0 = (Err e, w')
           /\ fsview.files_of w' = fsview.files_of w0
           /\ forall p, fsview.exists_file w' p = fsview.exists_file w0 p).
Proof.
  intros Hok Hdir Hfmt. repeat apply conj.
  - intros Hrec. eexists _, _. split; [now apply ToCSV_ok |].
    split; [|simpl; now rewrite length_map].
    set (p := exportPath downloadsDir w).
    rewrite (files_of_app w). rewrite !foldl_app.
    rewrite (apply_rows p).
    cbn [foldl fsview.apply fsview.csv_files fsview.csv_pending
         fsview.raw_files map].
    rewrite lookup_insert_eq. unfold fsview.rows_of.
    rewrite !lookup_insert_eq. reflexivity.
  - reflexivity.
  - intros rec. unfold exporter.row_of.
    destruct (IsZero (exporter.UpdatedAt rec)); simpl; eexists; split;
      try reflexivity.
    + tauto.
    + split; [intros H; now apply Hfmt in H | discriminate].
  - intros client file w0 msg rec Hrun Hrec.
    pose proof (runCloneFile_spec client file w0) as Hspec.
    rewrite Hrun in Hspec. destruct Hspec as (_ & rec' & Hrec' & _ & Hcase).
    assert (rec' = rec) as -> by congruence.
    destruct Hcase as [(_ & Hs & He) | (e & _ & Hs & _)].
    + split; [now left | auto].
    + rewrite Hs. split; [now right | discriminate].
  - intros dir w0. destruct (ToCSV_empty dir w0) as (e & w' & Hrun & Hfiles).
    exists e, w'. repeat split; auto.
    intros p. unfold fsview.exists_file. now rewrite Hfiles.
Qed.

End ExportFile.

(** ** The directory listing *)

Lemma StronglySorted_lookup {A} (R : A -> A -> Prop) (l : list A) :
  StronglySorted R l ->
  forall i j a b, (i < j)%nat -> l !! i = Some a -> l !! j = Some b -> R a b.
Proof.
  induction 1 as [|x l Hl IH Hx]; intros i j a b Hij Ha Hb.
  - discriminate.
  - destruct j as [|j]; [lia |]. simpl in Hb.
    destruct i as [|i]; simpl in Ha.
    + injection Ha as <-. rewrite Forall_forall in Hx. apply Hx.
      apply list_elem_of_lookup. eauto.
    + apply (IH i j); auto. lia.
Qed.

(** *** The byte order on strings *)

Lemma ascii_compare_refl a : Ascii.compare a a = Eq.
Proof. unfold Ascii.compare. apply N.compare_refl. Qed.

Lemma ascii_compare_trans a b c :
  Ascii.compare a b = Lt -> Ascii.compare b c = Lt -> Ascii.compare a c = Lt.
Proof.
  unfold Ascii.compare. rewrite !N.compare_lt_iff. apply N.lt_trans.
Qed.

Lemma string_compare_refl s : String.compare s s = Eq.
Proof.
  induction s as [|a s IH]; simpl; [reflexivity |].
  now rewrite ascii_compare_refl.
Qed.

Lemma string_compare_trans s1 s2 s3 :
  String.compare s1 s2 = Lt -> String.compare s2 s3 = Lt ->
  String.compare s1 s3 = Lt.
Proof.
  revert s2 s3. induction s1 as [|a s1 IH]; intros [|b s2] [|c s3]; simpl;
    try discriminate; auto.
  destruct (Ascii.compare a b) eqn:Hab; try discriminate;
    destruct (Ascii.compare b c) eqn:Hbc; try discriminate; intros H1 H2.
  - apply Ascii.compare_eq_iff in Hab, Hbc. subst.
    rewrite ascii_compare_refl. eauto.
  - apply Ascii.compare_eq_iff in Hab. subst. now rewrite Hbc.
  - apply Ascii.compare_eq_iff in Hbc. subst. now rewrite Hab.
  - now rewrite (ascii_compare_trans _ _ _ Hab Hbc).
Qed.

Lemma ltb_irrefl s : String.ltb s s = false.
Proof. unfold String.ltb. now rewrite string_compare_refl. Qed.

Lemma ltb_trans s1 s2 s3 :
  String.ltb s1 s2 = true -> String.ltb s2 s3 = true -> String.ltb s1 s3 = true.
Proof.
  unfold String.ltb.
  destruct (String.compare s1 s2) eqn:H12; try discriminate.
  destruct (String.compare s2 s3) eqn:H23; try discriminate.
  now rewrite (string_compare_trans _ _ _ H12 H23).
Qed.

(** Neither below the other: the same string. *)
Lemma ltb_incomparable s1 s2 :
  String.ltb s1 s2 = false -> String.ltb s2 s1 = false -> s1 = s2.
Proof.
  unfold String.ltb. rewrite (String.compare_antisym s1 s2).
  destruct (String.compare s2 s1) eqn:H; simpl; try discriminate.
  intros _ _. symmetry. now apply String.compare_eq_iff.
Qed.

Lemma ltb_false_leb s1 s2 : String.ltb s2 s1 = false -> String.leb s1 s2 = true.
Proof.
  unfold String.ltb, String.leb. rewrite (String.compare_antisym s1 s2).
  destruct (String.compare s2 s1); simpl; auto; discriminate.
Qed.

Section Listing.
Context {rt : Runtime} {toml : config.Toml} {json : minimax.Json}
        {bubbles : app.Bubbles}.

(** The comparison [listDirectory] sorts with is a strict weak
    ordering, as [sort.Slice] requires. *)
Lemma entryLess_strict_weak_order : strict_weak_order app.entryLess.
Proof.
  unfold strict_weak_order, app.entryLess. repeat apply conj.
  - intros a. destruct (IsDir a); simpl; apply ltb_irrefl.
  - intros a b c.
    destruct (IsDir a), (IsDir b), (IsDir c); simpl; try discriminate; auto;
      apply ltb_trans.
  - intros a b c.
    destruct (IsDir a), (IsDir b), (IsDir c); simpl; try discriminate;
      intros H1 H2 H3 H4;
      rewrite (ltb_incomparable _ _ H1 H2), H3, H4; auto.
Qed.

(** C4: for a directory that can be read, the listing is the [..]
    entry, unless the parent of the path is the path itself, followed
    by all the entries of the directory, directories before files and,
    among directories and among files, in the order of their lower-cased
    names; it is a function of the path and the entries read. *)
Theorem C4_listing_is_parent_then_sorted_entries
    (dir : string) (w : World) (entries : list DirEntry) :
  sort_Slice_sorts ->
  os_ReadDir (clock w) dir = Ok entries ->
  exists sorted,
    fst (app.listDirectory dir w)
    = Ok (parentItem dir ++ map (entryItem dir) sorted)
    /\ (parentItem dir = [] <-> filepath_Dir dir = dir)
    /\ Permutation entries sorted
    /\ (forall i j a b,
           (i < j)%nat -> sorted !! i = Some a -> sorted !! j = Some b ->
           (IsDir b = true -> IsDir a = true)
           /\ (IsDir a = IsDir b ->
               String.leb (strings_ToLower (Name a)) (strings_ToLower (Name b))
               = true))
    /\ (forall w2,
           os_ReadDir (clock w2) dir = Ok entries ->
           fst (app.listDirectory dir w2) = fst (app.listDirectory dir w)).
Proof.
  intros Hsort Hread.
  destruct (Hsort DirEntry entries app.entryLess entryLess_strict_weak_order)
    as [Hperm Hsorted].
  exists (sort_Slice DirEntry entries app.entryLess).
  assert (Hrun : forall w0, os_ReadDir (clock w0) dir = Ok entries ->
             fst (app.listDirectory dir w0)
             = Ok (parentItem dir
                   ++ map (entryItem dir) (sort_Slice DirEntry entries app.entryLess))).
  { intros w0 H0. unfold app.listDirectory, bind, ask, ret. rewrite H0. simpl.
    unfold parentItem. now destruct (String.eqb (filepath_Dir dir) dir). }
  split; [|split; [|split; [|split]]].
  - now apply Hrun.
  - unfold parentItem.
    destruct (String.eqb_spec (filepath_Dir dir) dir) as [Heq|Hne];
      split; intros H; auto; try discriminate; contradiction.
  - exact Hperm.
  - intros i j a b Hij Ha Hb.
    pose proof (StronglySorted_lookup _ _ Hsorted i j a b Hij Ha Hb) as Hle.
    simpl in Hle. unfold app.entryLess in Hle.
    destruct (IsDir a), (IsDir b); simpl in Hle; try discriminate; split;
      try (intros; reflexivity); try discriminate;
      intros _; now apply ltb_false_leb.
  - intros w2 H2. now rewrite !Hrun.
Qed.

End Listing.

(** ** The clone pipeline *)

Lemma wrap64_small x : - 2 ^ 63 <= x < 2 ^ 63 -> wrap64 x = x.
Proof. intros H. unfold wrap64. rewrite Z.mod_small; lia. Qed.




Section Pipeline.
Context {rt : Runtime} {toml : config.Toml} {json : minimax.Json}
        {bubbles : app.Bubbles}.






(** The completion handler exports the results it holds, then shows the
    summary, whatever the export returned. *)
Lemma handleCloneFinished_spec m s f w :
  exists r w1 m',
    exporter.ToCSV (app.results m) (system.DownloadsDir (app.paths m)) w = (r, w1)
    /\ app.handleCloneFinished m s f w = (m', app.Nil, tick w1)
    /\ app.state m' = app.stateSummary
    /\ app.statusMsg m' = finishedStatus s f r
    /\ app.lastExportPath m' = match r with Ok p => p | Err _ => "" end
    /\ app.selected m' = ∅ /\ app.selectedOrder m' = []
    /\ app.results m' = app.results m
    /\ app.cloneSuccess m' = app.cloneSuccess m
    /\ app.cloneFailed m' = app.cloneFailed m
    /\ app.cloneQueue m' = app.cloneQueue m.
Proof.
  unfold app.handleCloneFinished, bind, Now, ask, ret.
  destruct (exporter.ToCSV _ _ w) as [[csvPath|exportErr] w1];
    eexists _, _, _; (split; [reflexivity |]); (split; [reflexivity |]);
    simpl; repeat split; reflexivity.
Qed.


(** While the jobs run, what comes from the terminal or from the
    libraries leaves the pipeline as it is; only [ctrl+c] asks to quit. *)
Lemma cloning_input_is_inert m msg w :
  app.state m = app.stateCloning ->
  (exists key, msg = app.KeyMsg key) \/ (exists wd ht, msg = app.WindowSizeMsg wd ht)
  \/ (exists tag, msg = app.libMsg tag) ->
  exists m' c,
    app.Update m msg w = (m', c, w)
    /\ app.state m' = app.stateCloning
    /\ app.minimax m' = app.minimax m
    /\ app.cloneQueue m' = app.cloneQueue m
    /\ app.cloneIndex m' = app.cloneIndex m
    /\ app.cloneSuccess m' = app.cloneSuccess m
    /\ app.cloneFailed m' = app.cloneFailed m
    /\ app.results m' = app.results m
    /\ (c = app.Quit -> msg = app.KeyMsg "ctrl+c" \/ exists tag, msg = app.libMsg tag).
Proof.
  intros Hstate [[key ->] | [(wd & ht & ->) | [tag ->]]].
  - cbn [app.Update]. unfold app.handleKeyMsg. rewrite Hstate.
    unfold ret, app.updateCloningKeys.
    destruct (String.eqb_spec key "ctrl+c") as [->|Hne];
      eexists _, _; (split; [reflexivity |]); repeat split; auto;
      try discriminate.
  - cbn [app.Update]. unfold ret, app.handleResize. simpl.
    repeat (rewrite Hstate; simpl).
    eexists _, _; (split; [reflexivity |]); repeat split; auto.
    discriminate.
  - cbn [app.Update]. rewrite Hstate. simpl. unfold ret.
    eexists _, _; (split; [reflexivity |]); repeat split; auto.
    intros _. right. eauto.
Qed.






End Pipeline.

(** ** The sample world *)

(** Insertion sort keeps its promise for any strict weak ordering. *)
Lemma insert_Permutation {A} (less : A -> A -> bool) x (l : list A) :
  Permutation (x :: l) (sample.insert less x l).
Proof.
  induction l as [|y l IH]; simpl; [reflexivity |].
  destruct (less x y); [reflexivity |].
  rewrite perm_swap. now apply perm_skip.
Qed.

Lemma insert_StronglySorted {A} (less : A -> A -> bool) x (l : list A) :
  strict_weak_order less ->
  StronglySorted (fun a b => less b a = false) l ->
  StronglySorted (fun a b => less b a = false) (sample.insert less x l).
Proof.
  intros (Hirr & Htrans & _). induction 1 as [|y l Hl IH Hy]; simpl.
  - repeat constructor.
  - destruct (less x y) eqn:Hxy.
    + constructor; [now constructor |].
      assert (Hyx : less y x = false).
      { destruct (less y x) eqn:Hyx; [|reflexivity].
        pose proof (Htrans x y x Hxy Hyx) as Hxx. now rewrite Hirr in Hxx. }
      constructor; [exact Hyx |].
      rewrite Forall_forall in Hy |- *. intros z Hz.
      destruct (less z x) eqn:Hzx; [|reflexivity].
      rewrite <- (Hy z Hz). symmetry. now apply (Htrans z x y).
    + constructor; [exact IH |].
      rewrite Forall_forall in Hy |- *. intros z Hz.
      rewrite <- (insert_Permutation less x l) in Hz.
      apply elem_of_cons in Hz as [-> | Hz]; [exact Hxy | now apply Hy].
Qed.

Lemma insertionSort_sorts : @sort_Slice_sorts sample.runtime.
Proof.
  intros A l less Hswo. simpl. unfold sample.insertionSort.
  induction l as [|x l [IHp IHs]]; simpl.
  - split; constructor.
  - split.
    + rewrite <- insert_Permutation. now apply perm_skip.
    + now apply insert_StronglySorted.
Qed.

Lemma sel_wf_empty (m : app.model) :
  app.selected m = ∅ -> app.selectedOrder m = [] -> sel_wf m.
Proof.
  intros Hs Ho. unfold sel_wf. rewrite Hs, Ho. split; [constructor |].
  intros p. rewrite lookup_empty. rewrite decide_False; [reflexivity |].
  apply not_elem_of_nil.
Qed.

(** The invariant holds when the program starts and when a run ends. *)
Lemma sel_wf_newModel {rt : Runtime} cfg0 paths0 root w :
  sel_wf (fst (app.newModel cfg0 paths0 root w)).
Proof.
  apply sel_wf_empty; unfold app.newModel, bind, ask, ret;
    destruct (config.IsComplete cfg0); reflexivity.
Qed.

Lemma sel_wf_after_run {rt : Runtime} {bubbles : app.Bubbles} m s f w :
  sel_wf (fst (fst (app.handleCloneFinished m s f w))).
Proof.
  destruct (handleCloneFinished_spec m s f w)
    as (r & w1 & m' & _ & -> & _ & _ & _ & Hs & Ho & _).
  now apply sel_wf_empty.
Qed.

Lemma sample_Format_nonempty t layout : sample.Format t layout <> "".
Proof. unfold sample.Format. rewrite append_String. discriminate. Qed.

(** * More of the program *)

(** ** Credentials on disk *)

Section Credentials.
Context {rt : Runtime} {toml : config.Toml} {json : minimax.Json}
        {bubbles : app.Bubbles}.

(** X1: [Load] reads the file once and writes nothing; whenever it
    returns an error the configuration that comes with it is empty, a
    file that exists but cannot be read is an error and not an empty
    configuration, and a file with content is what the TOML decoder
    makes of it. *)
Theorem Load_error_comes_with_empty_config (path : string) (w : World) :
  let cfg := fst (fst (config.Load path w)) in
  let err := snd (fst (config.Load path w)) in
  snd (config.Load path w) = tick w
  /\ (forall e, err = Some e ->
        cfg = config.mkConfig "" ""
        /\ exists e', e = "read config: " +:+ e' \/ e = "parse config: " +:+ e')
  /\ (forall perr, os_ReadFile (clock w) path = inl perr ->
        err = if pe_notExist perr then None
              else Some ("read config: " +:+ pe_msg perr))
  /\ (forall data, os_ReadFile (clock w) path = inr data ->
        len (bytes.TrimSpace data) <> 0 ->
        match config.toml_Unmarshal data (config.mkConfig "" "") with
        | Ok decoded => cfg = decoded /\ err = None
        | Err e => err = Some ("parse config: " +:+ e)
        end).
Proof.
  cbv zeta. unfold config.Load, bind, ask, ret.
  destruct (os_ReadFile (clock w) path) as [perr|data] eqn:Hread.
  - destruct (pe_notExist perr) eqn:Hne; simpl; repeat apply conj; auto.
    + discriminate.
    + intros p [= <-]. now rewrite Hne.
    + discriminate.
    + intros e [= <-]. eauto.
    + intros p [= <-]. now rewrite Hne.
    + discriminate.
  - destruct (len (bytes.TrimSpace data) =? 0) eqn:Hblank; simpl.
    + repeat apply conj; auto; try discriminate.
      intros d [= <-] Hnb. lia.
    + destruct (config.toml_Unmarshal data (config.mkConfig "" "")) as [c|e] eqn:Hdec;
        simpl; repeat apply conj; auto; try discriminate.
      * intros d [= <-] _. now rewrite Hdec.
      * intros e0 [= <-]. eauto.
      * intros d [= <-] _. now rewrite Hdec.
Qed.

Lemma append_nonempty (a b : string) : a <> "" -> a +:+ b <> "".
Proof. destruct a; [congruence |]. rewrite append_String. discriminate. Qed.

(** X2: from the two text fields, [saveConfig] either changes nothing
    but the error message (a blank field, a failed encoding, a failed
    write: configuration, client and state stay, no command is issued
    and nothing was written), or has written the encoded trimmed values
    to the configuration file, holds them as a complete configuration
    with a client made from them, and goes to the Browser asking for the
    directory. *)
Theorem saveConfig_applies_only_what_was_written
    (m : app.model) (w : World) (in0 in1 : app.textInput) :
  app.textInputs m = [in0; in1] ->
  let api := strings.TrimSpace (app.Value in0) in
  let group := strings.TrimSpace (app.Value in1) in
  let m' := fst (fst (app.saveConfig m w)) in
  let c := snd (fst (app.saveConfig m w)) in
  let w' := snd (app.saveConfig m w) in
  (app.cfg m' = app.cfg m /\ app.minimax m' = app.minimax m
   /\ app.state m' = app.state m /\ c = app.Nil /\ app.errorMsg m' <> ""
   /\ Forall (fun e => snd e <> None) (added w w'))
  \/ (exists data,
         config.toml_Marshal (config.mkConfig api group) = Ok data
         /\ effects w'
            = effects w ++ [(WriteFile (system.ConfigFile (app.paths m)) data, None)]
         /\ app.cfg m' = config.mkConfig api group
         /\ config.IsComplete (app.cfg m') = true
         /\ app.minimax m' = Some (minimax.NewClient api group)
         /\ app.state m' = app.stateBrowser /\ app.errorMsg m' = ""
         /\ c = app.LoadDirectory (app.currentDirOrRoot m)).
Proof.
  intros Hin. cbv zeta. unfold app.saveConfig. rewrite Hin. simpl.
  set (api := strings.TrimSpace (app.Value in0)).
  set (group := strings.TrimSpace (app.Value in1)).
  assert (Hnone : added w w = []).
  { unfold added. now rewrite drop_all. }
  destruct (String.eqb api "") eqn:Hapi; simpl.
  { left. unfold ret. simpl. rewrite Hnone. repeat split; auto; discriminate. }
  destruct (String.eqb group "") eqn:Hgroup; simpl.
  { left. unfold ret. simpl. rewrite Hnone. repeat split; auto; discriminate. }
  unfold config.Save, bind, perform, ret.
  destruct (config.toml_Marshal (config.mkConfig api group)) as [data|e] eqn:Hmar; simpl.
  2: { left. rewrite Hnone. repeat split; auto;
         try (apply append_nonempty; discriminate). }
  destruct (os_fault (clock w) (WriteFile (system.ConfigFile (app.paths m)) data))
    as [e|] eqn:Hfault; simpl.
  - left. repeat split; auto; try (apply append_nonempty; discriminate).
    unfold added. simpl. rewrite drop_app_length. repeat constructor. discriminate.
  - right. exists data. repeat split; auto.
    unfold config.IsComplete. simpl. now rewrite Hapi, Hgroup.
Qed.

End Credentials.

(** ** Directories and start-up *)

Section StartUp.
Context {rt : Runtime} {toml : config.Toml} {json : minimax.Json}
        {bubbles : app.Bubbles}.

Lemma ensureEach_effects (dirs : list string) (w : World) :
  match fst (system.ensureEach dirs w) with
  | None =>
      effects (snd (system.ensureEach dirs w))
      = effects w ++ map (fun d => (MkdirAll d, None)) dirs
  | Some e =>
      exists done dir rest e',
        dirs = done ++ dir :: rest
        /\ e = "create dir " +:+ dir +:+ ": " +:+ e'
        /\ effects (snd (system.ensureEach dirs w))
           = effects w ++ map (fun d => (MkdirAll d, None)) done
             ++ [(MkdirAll dir, Some e')]
  end.
Proof.
  revert w. induction dirs as [|dir dirs IH]; intros w; simpl.
  - now rewrite app_nil_r.
  - unfold bind, perform.
    destruct (os_fault (clock w) (MkdirAll dir)) as [e'|] eqn:Hf; simpl.
    + exists [], dir, dirs, e'. auto.
    + specialize (IH {| clock := S (clock w);
                        effects := effects w ++ [(MkdirAll dir, None)] |}).
      destruct (system.ensureEach dirs _) as [[e|] w']; simpl in *.
      * destruct IH as (done & d & rest & e' & -> & -> & ->).
        exists (dir :: done), d, rest, e'. simpl.
        rewrite <- !app_assoc. auto.
      * rewrite IH. now rewrite <- app_assoc.
Qed.

(** X3: [EnsureDirs] creates the configuration, data and log
    directories in that order and nothing else; it stops at the first
    one that fails, names it in the error, and does not try the ones
    after it. *)
Theorem EnsureDirs_stops_at_first_failure (paths : system.Paths) (w : World) :
  let dirs := [system.ConfigDir paths; system.DataDir paths; system.LogsDir paths] in
  match fst (system.EnsureDirs paths w) with
  | None =>
      added w (snd (system.EnsureDirs paths w))
      = map (fun d => (MkdirAll d, None)) dirs
  | Some e =>
      exists done dir rest e',
        dirs = done ++ dir :: rest
        /\ e = "create dir " +:+ dir +:+ ": " +:+ e'
        /\ added w (snd (system.EnsureDirs paths w))
           = map (fun d => (MkdirAll d, None)) done ++ [(MkdirAll dir, Some e')]
  end.
Proof.
  cbv zeta. unfold system.EnsureDirs, added.
  pose proof (ensureEach_effects
                [system.ConfigDir paths; system.DataDir paths; system.LogsDir paths] w)
    as H.
  destruct (system.ensureEach _ w) as [[e|] w']; simpl in *.
  - destruct H as (done & dir & rest & e' & Hd & He & Hw).
    exists done, dir, rest, e'. rewrite Hw, drop_app_length. auto.
  - now rewrite H, drop_app_length.
Qed.

Lemma newModel_fields cfg0 paths0 root w :
  let m := fst (app.newModel cfg0 paths0 root w) in
  app.cfg m = cfg0 /\ app.paths m = paths0 /\ app.rootPath m = root
  /\ app.state m
     = (if config.IsComplete cfg0 then app.stateBrowser else app.stateConfig)
  /\ app.minimax m
     = (if config.IsComplete cfg0
        then Some (minimax.NewClient (config.MinimaxSecret cfg0)
                     (config.MinimaxGroup cfg0))
        else None)
  /\ app.textInputs m
     = [app.mkTextInput (config.MinimaxSecret cfg0) true;
        app.mkTextInput (config.MinimaxGroup cfg0) false]
  /\ app.selected m = ∅ /\ app.selectedOrder m = []
  /\ app.results m = [] /\ app.cloneQueue m = [] /\ app.cloneIndex m = 0
  /\ app.activeInput m = 0 /\ app.currentDir m = "".
Proof.
  cbv zeta. unfold app.newModel, bind, ask, ret.
  destruct (config.IsComplete cfg0); repeat split; reflexivity.
Qed.

(** X4: the start-up stops with one of four messages, in the order
    path resolution, directories, configuration, log file; otherwise the
    program starts with a non-empty root path, nothing selected and no
    result, the text fields filled with the stored values, and either in
    the Browser with complete credentials, a client made from them and
    the root directory asked for, or in Config with incomplete
    credentials, no client and nothing asked for. *)
Theorem startup_gives_a_client_exactly_in_Browser (w : World) :
  match fst (main.startup w) with
  | Err e =>
      exists e', e = "无法解析路径: " +:+ e' \/ e = "无法创建目录: " +:+ e'
                 \/ e = "读取配置失败: " +:+ e' \/ e = "初始化日志失败: " +:+ e'
  | Ok m =>
      app.rootPath m <> ""
      /\ app.selected m = ∅ /\ app.selectedOrder m = [] /\ app.results m = []
      /\ app.textInputs m
         = [app.mkTextInput (config.MinimaxSecret (app.cfg m)) true;
            app.mkTextInput (config.MinimaxGroup (app.cfg m)) false]
      /\ ((app.state m = app.stateBrowser
           /\ config.IsComplete (app.cfg m) = true
           /\ app.minimax m
              = Some (minimax.mkClient (config.MinimaxSecret (app.cfg m))
                        (config.MinimaxGroup (app.cfg m)))
           /\ app.Init m = app.Batch [app.LoadDirectory (app.rootPath m)])
          \/ (app.state m = app.stateConfig
              /\ config.IsComplete (app.cfg m) = false
              /\ app.minimax m = None
              /\ app.Init m = app.Batch []))
  end.
Proof.
  unfold main.startup. unfold bind at 1.
  destruct (system.ResolvePaths w) as [[paths|e] w1]; [|simpl; eauto].
  unfold bind at 1.
  destruct (system.EnsureDirs paths w1) as [[e|] w2]; [simpl; eauto|].
  unfold bind at 1.
  destruct (config.Load (system.ConfigFile paths) w2) as [[cfg0 [e|]] w3];
    [simpl; eauto 6|].
  unfold bind at 1.
  destruct (logging.Setup (system.LogFile paths) w3) as [[e|] w4];
    [simpl; eauto 6|].
  unfold bind, ask, ret.
  match goal with
  | |- context [app.newModel ?c ?p ?r ?x] =>
      pose proof (newModel_fields c p r x) as H;
      destruct (app.newModel c p r x) as [m w5]
  end.
  cbv zeta in H. simpl in H |- *.
  destruct H as (Hc & _ & Hroot & Hst & Hcl & Hin & Hsel & Hord & Hres & _).
  rewrite Hc. repeat apply conj; auto.
  - rewrite Hroot.
    destruct (os_Getwd (clock w4)) as [d|e]; simpl; [|discriminate].
    destruct (String.eqb_spec d ""); [discriminate | assumption].
  - unfold app.Init. rewrite Hst.
    destruct (config.IsComplete cfg0); [left | right]; repeat split; auto;
      simpl; now rewrite Hroot.
Qed.

End StartUp.

(** ** The remote client *)

Section RemoteClient.
Context {rt : Runtime} {toml : config.Toml} {json : minimax.Json}
        {bubbles : app.Bubbles}.

Lemma added_refl w : added w w = [].
Proof. unfold added. now rewrite drop_all. Qed.

Lemma added_tick w w' : added w (tick w') = added w w'.
Proof. reflexivity. Qed.

Ltac no_effect := unfold added; simpl; now rewrite drop_all.

Lemma added_one w c e : added w (mkWorld c (effects w ++ [e])) = [e].
Proof. unfold added. simpl. now rewrite drop_app_length. Qed.

(** X5: [UploadFile] sends at most one request, and only the upload
    of the bytes it read, under the base name of the file and with the
    bearer key; without a key it does nothing at all; it returns a
    response only if the transport succeeded, the status was 200, the
    body decoded to that response and the service's own status code in
    it is zero. *)
Theorem UploadFile_answers_only_on_full_success
    (c : minimax.Client) (path : string) (w : World) :
  let r := fst (minimax.UploadFile c path w) in
  let w' := snd (minimax.UploadFile c path w) in
  (minimax.apiKey c = "" -> r = Err "missing MiniMax API key" /\ w' = w)
  /\ (added w w' = []
      \/ exists absPath data out,
           filepath_Abs (clock w) path = Ok absPath
           /\ os_Open (S (clock w)) absPath = Ok (Ok data)
           /\ minimax.apiKey c <> ""
           /\ added w w'
              = [(HttpDo (uploadRequest c (filepath_Base absPath) data), out)])
  /\ (forall up, r = Ok up ->
        minimax.StatusCode (minimax.upload_BaseResp up) = 0
        /\ exists absPath data resp body,
             added w w'
             = [(HttpDo (uploadRequest c (filepath_Base absPath) data), None)]
             /\ http_Do (S (S (clock w)))
                  (uploadRequest c (filepath_Base absPath) data) = Ok resp
             /\ http.StatusCode resp = 200
             /\ http.RespBody resp = Ok body
             /\ minimax.json_Unmarshal_Upload body = Ok up).
Proof.
  cbv zeta. unfold minimax.UploadFile.
  destruct (String.eqb_spec (minimax.apiKey c) "") as [Hkey|Hkey].
  { unfold ret. simpl. rewrite added_refl.
    split; [auto |]. split; [now left | discriminate]. }
  unfold bind, ask, ret.
  split; [intros H; contradiction |].
  destruct (filepath_Abs (clock w) path) as [absPath|e] eqn:Habs; simpl.
  2: { split; [left; no_effect | discriminate]. }
  destruct (os_Open (S (clock w)) absPath) as [[data|e]|e] eqn:Hopen; simpl;
    try (split; [left; no_effect | discriminate]).
  unfold minimax.Do. simpl.
  fold (uploadRequest c (filepath_Base absPath) data).
  set (req := uploadRequest c (filepath_Base absPath) data).
  assert (Hsent : forall out cl,
             exists absPath0 data0 out0,
               Ok absPath = Ok absPath0
               /\ os_Open (S (clock w)) absPath0 = Ok (Ok data0)
               /\ minimax.apiKey c <> ""
               /\ added w (mkWorld cl (effects w ++ [(HttpDo req, out)]))
                  = [(HttpDo (uploadRequest c (filepath_Base absPath0) data0), out0)]).
  { intros out cl. exists absPath, data, out. rewrite added_one. auto. }
  destruct (http_Do (S (S (clock w))) req) as [resp|e] eqn:Hdo; simpl.
  2: { split; [right; apply Hsent | discriminate]. }
  destruct (http.RespBody resp) as [body|e] eqn:Hbody; simpl.
  2: { split; [right; apply Hsent | discriminate]. }
  destruct (http.StatusCode resp =? http.StatusOK) eqn:Hcode; simpl.
  2: { split; [right; apply Hsent | discriminate]. }
  destruct (minimax.json_Unmarshal_Upload body) as [up|e] eqn:Hjson; simpl.
  2: { split; [right; apply Hsent | discriminate]. }
  destruct (minimax.StatusCode (minimax.upload_BaseResp up) =? 0) eqn:Hbase; simpl.
  2: { split; [right; apply Hsent | discriminate]. }
  split; [right; apply Hsent |].
  intros up' [= <-]. split; [lia |].
  exists absPath, data, resp, body. rewrite added_one.
  unfold http.StatusOK in Hcode. repeat split; auto. lia.
Qed.


(** What the two calls leave in the list of clone requests. *)
Lemma submitted_app es1 es2 : submitted (es1 ++ es2) = submitted es1 ++ submitted es2.
Proof. unfold submitted. apply omap_app. Qed.

Lemma UploadFile_submits_nothing c path w :
  submitted (effects (snd (minimax.UploadFile c path w))) = submitted (effects w).
Proof.
  unfold minimax.UploadFile.
  destruct (String.eqb (minimax.apiKey c) ""); [reflexivity |].
  unfold bind, ask, ret.
  destruct (filepath_Abs (clock w) path) as [absPath|e]; simpl; [|reflexivity].
  destruct (os_Open (S (clock w)) absPath) as [[data|e]|e]; simpl;
    try reflexivity.
  unfold minimax.Do. simpl.
  assert (Hsub : forall out,
             submitted (effects w ++
               [(HttpDo (http.mkRequest "POST" "https://api.minimaxi.com/v1/files/upload"
                           ("Bearer " +:+ minimax.apiKey c)
                           (http.MultipartForm "voice_clone" (filepath_Base absPath) data)),
                 out)])
             = submitted (effects w)).
  { intros out. rewrite submitted_app. simpl. apply app_nil_r. }
  destruct (http_Do _ _) as [resp|e]; simpl; [|apply Hsub].
  destruct (http.RespBody resp) as [body|e]; simpl; [|apply Hsub].
  destruct (negb (http.StatusCode resp =? http.StatusOK)); simpl; [apply Hsub |].
  destruct (minimax.json_Unmarshal_Upload body) as [up|e]; simpl; [|apply Hsub].
  destruct (negb (minimax.StatusCode (minimax.upload_BaseResp up) =? 0)); simpl;
    apply Hsub.
Qed.

Lemma GenerateVoiceID_effects path w :
  effects (snd (minimax.GenerateVoiceID path w)) = effects w.
Proof.
  unfold minimax.GenerateVoiceID, bind, ask, ret.
  destruct (filepath_Abs (clock w) path) as [absPath|e]; simpl; [|reflexivity].
  destruct (os_Open (S (clock w)) absPath) as [[content|e]|e]; reflexivity.
Qed.

Lemma CloneWithFileID_submits c fileID voiceID w :
  submitted (effects (snd (minimax.CloneWithFileID c fileID voiceID w)))
  = submitted (effects w)
    ++ (if String.eqb (minimax.apiKey c) "" || String.eqb (minimax.groupID c) ""
        then [] else [(fileID, voiceID)]).
Proof.
  destruct (String.eqb (minimax.apiKey c) "" || String.eqb (minimax.groupID c) "")
    eqn:Hcred.
  - unfold minimax.CloneWithFileID. rewrite Hcred. simpl. now rewrite app_nil_r.
  - now apply CloneWithFileID_effects.
Qed.


(** X8: a job of the pipeline stops at its first failed stage: when
    the identifier cannot be derived nothing is sent and the record has
    no identifier; when the upload fails no clone request is sent and
    the record has no identifier either; when the clone call fails the
    record still carries the file and voice identifiers; on success the
    step and the record carry the derived identifier.  The step always
    opens its log with the base name of the file. *)
Theorem job_stops_at_first_failed_stage
    (c : minimax.Client) (file : string) (w : World) :
  let w' := snd (app.runCloneFile (Some c) file w) in
  match fst (app.runCloneFile (Some c) file w) with
  | Some (app.CloneStepMsg msg) =>
      head (app.Logs msg) = Some ("开始处理文件：" +:+ filepath_Base file)
      /\ exists rec,
        app.Record_ msg = Some rec
        /\ match minimax.GenerateVoiceID file (tick w) with
           | (Err e, _) =>
               app.Err_ msg = Some e /\ effects w' = effects w
               /\ exporter.MinimaxFileID rec = ""
               /\ exporter.MinimaxVoiceID rec = ""
               /\ length (app.Logs msg) = 3%nat
           | (Ok vid, w1) =>
               match minimax.UploadFile c file w1 with
               | (Err e, _) =>
                   app.Err_ msg = Some e
                   /\ submitted (effects w') = submitted (effects w)
                   /\ exporter.MinimaxFileID rec = ""
                   /\ exporter.MinimaxVoiceID rec = ""
                   /\ length (app.Logs msg) = 4%nat
               | (Ok up, w2) =>
                   exporter.MinimaxFileID rec
                   = pretty (minimax.FileID (minimax.File up))
                   /\ exporter.MinimaxVoiceID rec = vid
                   /\ match fst (minimax.CloneWithFileID c
                                   (minimax.FileID (minimax.File up)) vid w2) with
                      | Err e =>
                          app.Err_ msg = Some e
                          /\ exporter.Status rec = "failed"
                          /\ length (app.Logs msg) = 6%nat
                      | Ok res =>
                          app.Err_ msg = None
                          /\ exporter.Status rec = "success"
                          /\ app.VoiceID msg = vid
                          /\ app.Message msg
                             = minimax.StatusMsg (minimax.clone_BaseResp res)
                          /\ length (app.Logs msg) = 7%nat
                      end
               end
           end
  | _ => False
  end.
Proof.
  cbv zeta. unfold app.runCloneFile, bind, Now, ask, ret.
  pose proof (GenerateVoiceID_effects file (tick w)) as Hgen.
  change (effects (tick w)) with (effects w) in Hgen.
  destruct (minimax.GenerateVoiceID file (tick w)) as [[vid|e] w1]; simpl in Hgen.
  2: { simpl. split; [reflexivity |]. eexists. split; [reflexivity |].
       simpl. repeat split; auto. }
  simpl in Hgen.
  pose proof (UploadFile_submits_nothing c file w1) as Hup.
  destruct (minimax.UploadFile c file w1) as [[up|e] w2]; simpl in Hup.
  2: { simpl. split; [reflexivity |]. eexists. split; [reflexivity |].
       simpl. repeat split; auto. now rewrite Hup, Hgen. }
  destruct (minimax.CloneWithFileID c _ vid w2) as [[res|e] w3]; simpl;
    (split; [reflexivity |]); eexists; (split; [reflexivity |]);
    simpl; repeat split; auto.
Qed.

End RemoteClient.

(** ** Exports that fail *)

Section ExportFailures.
Context {rt : Runtime} {toml : config.Toml} {json : minimax.Json}
        {bubbles : app.Bubbles}.

Lemma writeRows_shape p records w :
  exists k tail,
    effects (snd (exporter.writeRows p records w))
    = effects w ++ map (wrote p) (take k (map exporter.row_of records)) ++ tail
    /\ match fst (exporter.writeRows p records w) with
       | Ok q => q = p /\ k = length records /\ tail = []
       | Err e =>
           exists row e',
             map exporter.row_of records !! k = Some row
             /\ tail = [(CsvWrite p row, Some e')]
             /\ e = "write row: " +:+ e'
       end.
Proof.
  revert w. induction records as [|rec records IH]; intros w; simpl.
  - exists 0%nat, []. simpl. now rewrite app_nil_r.
  - unfold bind, perform.
    destruct (os_fault (clock w) (CsvWrite p (exporter.row_of rec))) as [e'|] eqn:Hf;
      simpl.
    + exists 0%nat, [(CsvWrite p (exporter.row_of rec), Some e')]. simpl.
      split; [reflexivity |]. exists (exporter.row_of rec), e'. auto.
    + destruct (IH {| clock := S (clock w);
                      effects := effects w
                                 ++ [(CsvWrite p (exporter.row_of rec), None)] |})
        as (k & tail & Heff & Hres).
      exists (S k), tail. simpl. rewrite Heff. simpl. rewrite <- app_assoc.
      split; [reflexivity |].
      destruct (fst (exporter.writeRows p records _)) as [q|e].
      * destruct Hres as (-> & -> & ->). auto.
      * exact Hres.
Qed.

Lemma files_of_added w w' es :
  effects w' = effects w ++ es ->
  fsview.files_of w' = foldl fsview.apply (fsview.files_of w) es.
Proof. intros H. unfold fsview.files_of. rewrite H. apply foldl_app. Qed.

Lemma added_app w w' es : effects w' = effects w ++ es -> added w w' = es.
Proof. intros H. unfold added. rewrite H. apply drop_app_length. Qed.

(** X9: whatever fails, [ToCSV] either stops before it has created
    a file, with an error and every file as it was, or it has created
    the directory and the file, written the header and the rows up to
    the first write that failed (none after it), and then flushed and
    closed the file, in that order, on the success and on the error
    return alike; it answers the path exactly when the header and every
    row went through, names the header or the row in the error
    otherwise, and when the flush succeeds the file holds the rows
    written so far. *)
Theorem ToCSV_flushes_and_closes_what_it_created
    (records : list exporter.ExportRecord) (downloadsDir : string) (w : World) :
  let r := fst (exporter.ToCSV records downloadsDir w) in
  let w' := snd (exporter.ToCSV records downloadsDir w) in
  let rows := exporter.header :: map exporter.row_of records in
  ((exists e, r = Err e)
   /\ fsview.files_of w' = fsview.files_of w
   /\ Forall (fun e => forall p, e <> (Create p, None)) (added w w'))
  \/ (exists p k tail o1 o2,
         added w w'
         = [(MkdirAll downloadsDir, None); (Create p, None)]
           ++ map (wrote p) (take k rows) ++ tail
           ++ [(CsvFlush p, o1); (Close p, o2)]
         /\ (o1 = None ->
             fsview.csv_files (fsview.files_of w') !! p = Some (take k rows))
         /\ match r with
            | Ok q => q = p /\ k = length rows /\ tail = []
            | Err e =>
                exists row e',
                  rows !! k = Some row
                  /\ tail = [(CsvWrite p row, Some e')]
                  /\ e = (match k with
                          | O => "write header: "
                          | S _ => "write row: "
                          end) +:+ e'
            end).
Proof.
  cbv zeta.
  destruct (exporter.ToCSV records downloadsDir w) as [r w'] eqn:Hrun. simpl.
  unfold exporter.ToCSV in Hrun.
  destruct (String.eqb downloadsDir "").
  { left. injection Hrun as <- <-. rewrite added_refl. eauto. }
  unfold bind at 1 in Hrun. unfold perform at 1 in Hrun.
  destruct (os_fault (clock w) (MkdirAll downloadsDir)) as [e|] eqn:Hmk.
  { left. injection Hrun as <- <-. split; [eauto |]. split.
    - now rewrite (files_of_app w).
    - rewrite added_one. repeat constructor. intros p. discriminate. }
  destruct (len records =? 0).
  { left. injection Hrun as <- <-. split; [eauto |]. split.
    - now rewrite (files_of_app w).
    - rewrite added_one. repeat constructor. intros p. discriminate. }
  unfold bind at 1 in Hrun. unfold Now, ask in Hrun. simpl in Hrun.
  set (p := filepath_Join downloadsDir _) in Hrun.
  unfold bind at 1 in Hrun. unfold perform at 1 in Hrun. simpl in Hrun.
  destruct (os_fault (S (S (clock w))) (Create p)) as [e|] eqn:Hcr.
  { left. injection Hrun as <- <-. split; [eauto |]. split.
    - erewrite files_of_added by (simpl; now rewrite <- app_assoc). reflexivity.
    - erewrite added_app by (simpl; now rewrite <- app_assoc).
      repeat constructor; intros q; discriminate. }
  right. exists p.
  unfold bind at 1 in Hrun. unfold bind at 1 in Hrun.
  unfold perform at 1 in Hrun. simpl in Hrun.
  destruct (os_fault (S (S (S (clock w)))) (CsvWrite p exporter.header))
    as [e|] eqn:Hhd.
  - exists 0%nat, [(CsvWrite p exporter.header, Some e)].
    unfold bind, perform, ret in Hrun. simpl in Hrun.
    injection Hrun as <- <-.
    eexists _, _. split; [| split].
    + apply added_app. simpl. rewrite <- !app_assoc. reflexivity.
    + intros Ho. erewrite files_of_added
        by (simpl; rewrite <- !app_assoc; reflexivity).
      simpl in Ho |- *. rewrite Ho. simpl.
      rewrite lookup_insert_eq. unfold fsview.rows_of.
      rewrite !lookup_insert_eq. reflexivity.
    + eauto.
  - match type of Hrun with
    | context [exporter.writeRows p records ?x] =>
        destruct (writeRows_shape p records x) as (k & tail & Heff & Hres);
        destruct (exporter.writeRows p records x) as [res w1]
    end.
    simpl in Heff, Hres.
    exists (S k), tail. unfold bind, perform, ret in Hrun. simpl in Hrun.
    injection Hrun as <- <-.
    eexists _, _. split; [| split].
    + apply added_app. simpl. rewrite Heff. rewrite <- !app_assoc. reflexivity.
    + intros Ho. erewrite files_of_added
        by (simpl; rewrite Heff; rewrite <- !app_assoc; reflexivity).
      simpl in Ho |- *. rewrite !foldl_app.
      assert (Htail : forall fs, foldl fsview.apply fs tail = fs).
      { intros fs. destruct res as [q|e0].
        - now destruct Hres as (_ & _ & ->).
        - now destruct Hres as (row & e' & _ & -> & _). }
      rewrite Htail. unfold wrote. rewrite (apply_rows p).
      cbn [foldl fsview.apply]. rewrite Ho.
      cbn [fsview.csv_files fsview.csv_pending].
      rewrite lookup_insert_eq. rewrite lookup_insert_eq.
      unfold fsview.rows_of.
      destruct (take k (map exporter.row_of records)) as [|row rows'];
        rewrite !lookup_insert_eq; simpl; rewrite ?lookup_insert_eq;
        reflexivity.
    + destruct res as [q|e].
      * destruct Hres as (-> & -> & ->). simpl. now rewrite length_map.
      * destruct Hres as (row & e' & Hrow & -> & ->). exists row, e'. auto.
Qed.

End ExportFailures.

(** ** Sessions *)

Lemma atoms_Batch cs : atoms (app.Batch cs) = flat_map atoms cs.
Proof. simpl. induction cs as [|c cs IH]; simpl; [reflexivity | now rewrite IH]. Qed.

Lemma inFlight_app a b : inFlight (a ++ b) = inFlight a ++ inFlight b.
Proof. unfold inFlight. apply flat_map_app. Qed.

Lemma countIf_app f a b : countIf f (a ++ b) = countIf f a + countIf f b.
Proof. unfold countIf, len. rewrite List.filter_app, length_app. lia. Qed.

Lemma countIf_nonneg f a : 0 <= countIf f a.
Proof. unfold countIf, len. lia. Qed.

Lemma countIf_cons f c a :
  countIf f (c :: a) = (if f c then 1 else 0) + countIf f a.
Proof. unfold countIf, len. simpl. destruct (f c); simpl; lia. Qed.

Lemma model_ok_mono B B' m : B <= B' -> model_ok B m -> model_ok B' m.
Proof. unfold model_ok. intros Hle H. intuition lia. Qed.

Section Sessions.
Context {rt : Runtime} {toml : config.Toml} {json : minimax.Json}
        {bubbles : app.Bubbles}.

Lemma flight_quiet m m' A :
  flight_ok m A ->
  app.state m <> app.stateCloning -> app.state m <> app.stateExporting ->
  Forall (atom_ok m') A /\ countIf isJob A = 0 /\ countIf isExport A = 0.
Proof.
  intros (Hall & Hj & He) Hc Hx.
  rewrite bool_decide_eq_false_2 in Hj by assumption.
  rewrite bool_decide_eq_false_2 in He by assumption.
  repeat split; auto.
  eapply Forall_impl; [exact Hall |].
  intros a Ha. destruct a; simpl in *; tauto.
Qed.

Lemma flight_same m m' A :
  flight_ok m A ->
  app.state m' = app.state m -> app.minimax m' = app.minimax m ->
  app.cloneQueue m' = app.cloneQueue m -> app.cloneIndex m' = app.cloneIndex m ->
  app.results m' = app.results m ->
  app.cloneSuccess m' = app.cloneSuccess m ->
  app.cloneFailed m' = app.cloneFailed m ->
  app.paths m' = app.paths m ->
  flight_ok m' A.
Proof.
  intros (Hall & Hj & He) Hst Hcl Hq Hi Hr Hs Hf Hp.
  unfold flight_ok. rewrite Hst. repeat split; auto.
  eapply Forall_impl; [exact Hall |].
  intros a Ha. destruct a; simpl in *; auto;
    rewrite ?Hst, ?Hcl, ?Hq, ?Hi, ?Hr, ?Hs, ?Hf, ?Hp; exact Ha.
Qed.

Lemma flight_intro m A C :
  Forall (atom_ok m) A -> Forall (atom_ok m) C ->
  countIf isJob A + countIf isJob C
  = (if bool_decide (app.state m = app.stateCloning) then 1 else 0) ->
  countIf isExport A + countIf isExport C
  = (if bool_decide (app.state m = app.stateExporting) then 1 else 0) ->
  flight_ok m (A ++ C).
Proof.
  intros HA HC Hj He. unfold flight_ok. rewrite !countIf_app.
  repeat split; auto. now apply Forall_app.
Qed.

(** A command that is neither a job nor an export, joining a flight
    the model agrees with. *)
Lemma flight_plain m A C :
  flight_ok m A ->
  Forall (atom_ok m) C ->
  countIf isJob C = 0 -> countIf isExport C = 0 ->
  flight_ok m (A ++ C).
Proof.
  intros (Hall & Hj & He) Hc Hcj Hce.
  apply flight_intro; auto; lia.
Qed.

Ltac model_fields :=
  unfold model_ok, books_ok, client_matches, sel_wf, len in *; simpl in *.

Ltac count_tac :=
  simpl;
  repeat match goal with H : app.state _ = _ |- _ => rewrite H end;
  repeat match goal with H : countIf _ _ = _ |- _ => rewrite H end;
  reflexivity.

(** The flight gets the command [C] while no job and no export is in
    it. *)
Ltac quiet_flight Hq :=
  match goal with
  | |- flight_ok ?m' _ =>
      let H1 := fresh in let H2 := fresh in let H3 := fresh in
      destruct (Hq m') as (H1 & H2 & H3);
      apply flight_intro; [exact H1 | | count_tac | count_tac]
  end.

Lemma selectedFiles_length m :
  len (app.selectedFiles m) <= len (app.selectedOrder m).
Proof.
  unfold app.selectedFiles, len.
  pose proof (length_filter (fun p => app.isSelected m p = true) (app.selectedOrder m)).
  lia.
Qed.

Lemma has_client B m :
  model_ok B m -> app.state m <> app.stateConfig -> app.minimax m <> None.
Proof.
  intros (_ & _ & Hc & Hcomp & _) Hst. rewrite Hc, (Hcomp Hst). discriminate.
Qed.

Lemma updateConfirm_keeps B m A key :
  model_ok B m -> flight_ok m A -> app.state m = app.stateConfirm ->
  model_ok B (fst (app.updateConfirm m key))
  /\ flight_ok (fst (app.updateConfirm m key))
       (A ++ atoms (snd (app.updateConfirm m key))).
Proof.
  intros Hm Hf Hst.
  assert (Hq : forall m', Forall (atom_ok m') A
                          /\ countIf isJob A = 0 /\ countIf isExport A = 0).
  { intros m'. apply (flight_quiet m); auto; congruence. }
  assert (Hcl : app.minimax m <> None) by (apply (has_client B); congruence).
  pose proof (selectedFiles_length m) as Hlen.
  unfold app.updateConfirm.
  destruct (String.eqb key "ctrl+c"); simpl.
  { split; [assumption |]. apply flight_plain; auto; repeat constructor. }
  destruct (String.eqb key "esc" || String.eqb key "n"); simpl.
  { split.
    - model_fields. rewrite Hst in Hm. intuition congruence.
    - quiet_flight Hq. repeat constructor. }
  destruct (String.eqb key "enter" || String.eqb key "y"); simpl.
  2: { split; [assumption |]. apply flight_plain; auto; repeat constructor. }
  unfold app.nextCloneCmd. simpl.
  change (app.selectedFiles (app.set_state app.stateCloning m))
    with (app.selectedFiles m).
  destruct (app.selectedFiles m) as [|file q] eqn:Hfiles; simpl.
  - split.
    + model_fields. intuition (try congruence; try lia).
    + quiet_flight Hq. repeat constructor; simpl; auto.
  - change (int_add 0 1) with 1. split.
    + model_fields. intuition (try congruence; try lia).
    + quiet_flight Hq. repeat constructor; simpl; auto.
Qed.

Lemma removeFirst_length p (order : list string) :
  (length (app.removeFirst p order) <= length order)%nat.
Proof.
  induction order as [|q order IH]; simpl; [lia |].
  destruct (String.eqb q p); simpl; lia.
Qed.

Lemma toggle_keeps B m item :
  model_ok B m ->
  model_ok (B + 1) (app.toggleSelection m item)
  /\ app.state (app.toggleSelection m item) = app.state m.
Proof.
  intros Hm. pose proof (toggle_wf m item (proj1 Hm)) as Hwf. revert Hwf.
  pose proof (removeFirst_length (app.path item) (app.selectedOrder m)) as Hrem.
  unfold app.toggleSelection.
  destruct (app.isDir item);
    [|destruct (negb (app.allowedExt _));
      [|destruct (app.isSelected m (app.path item))]];
    intros Hwf; (split; [|reflexivity]); model_fields;
    rewrite ?length_app in *; simpl in *;
    intuition (try congruence; try lia).
Qed.

Ltac leaf Hst Hq :=
  split;
  [ model_fields; rewrite ?Hst in *; intuition (try congruence; try lia)
  | quiet_flight Hq; repeat constructor; simpl; auto ].

Lemma changeDirectory_keeps B m A dir w :
  model_ok B m -> flight_ok m A ->
  app.state m <> app.stateCloning -> app.state m <> app.stateExporting ->
  model_ok B (fst (fst (app.changeDirectory m dir w)))
  /\ flight_ok (fst (fst (app.changeDirectory m dir w)))
       (A ++ atoms (snd (fst (app.changeDirectory m dir w)))).
Proof.
  intros Hm Hf Hc Hx.
  assert (Hq : forall m', Forall (atom_ok m') A
                          /\ countIf isJob A = 0 /\ countIf isExport A = 0).
  { intros m'. now apply (flight_quiet m). }
  unfold app.changeDirectory, bind, ask, ret.
  destruct (os_Stat (clock w) dir) as [[|]|e]; simpl.
  - split; [assumption |]. apply flight_plain; auto; repeat constructor.
  - split.
    + model_fields. intuition (try congruence; try lia).
    + apply flight_plain; [|repeat constructor|reflexivity|reflexivity].
      now apply (flight_same m).
  - split.
    + model_fields. intuition (try congruence; try lia).
    + apply flight_plain; [|repeat constructor|reflexivity|reflexivity].
      now apply (flight_same m).
Qed.

Lemma updateBrowserKeys_keeps B m A key w :
  model_ok B m -> flight_ok m A -> app.state m = app.stateBrowser ->
  let r := app.updateBrowserKeys m key w in
  model_ok (B + 1) (fst (fst r))
  /\ flight_ok (fst (fst r)) (A ++ atoms (snd (fst r))).
Proof.
  intros Hm Hf Hst. cbv zeta.
  assert (Hq : forall m', Forall (atom_ok m') A
                          /\ countIf isJob A = 0 /\ countIf isExport A = 0).
  { intros m'. apply (flight_quiet m); auto; congruence. }
  assert (Hsame : model_ok (B + 1) m /\ flight_ok m (A ++ [app.Nil])).
  { split; [apply (model_ok_mono B); [lia | assumption] |].
    apply flight_plain; auto; repeat constructor. }
  assert (Hdir : forall dir,
             model_ok (B + 1) (fst (fst (app.changeDirectory m dir w)))
             /\ flight_ok (fst (fst (app.changeDirectory m dir w)))
                  (A ++ atoms (snd (fst (app.changeDirectory m dir w))))).
  { intros dir.
    destruct (changeDirectory_keeps B m A dir w Hm Hf) as [H1 H2];
      try congruence.
    split; [apply (model_ok_mono B); [lia | assumption] | assumption]. }
  unfold app.updateBrowserKeys, ret.
  destruct (String.eqb key "ctrl+c"); simpl.
  { leaf Hst Hq. }
  destruct (String.eqb key "q"); simpl.
  { leaf Hst Hq. }
  destruct (String.eqb key "c"); simpl.
  { destruct (Z.of_nat (size (app.selected m)) =? 0); simpl; leaf Hst Hq. }
  destruct (String.eqb key "C"); simpl.
  { leaf Hst Hq. }
  destruct (String.eqb key "e"); simpl.
  { destruct (len (app.results m) =? 0); simpl; leaf Hst Hq. }
  destruct (String.eqb key " " || String.eqb key "x"); simpl.
  { destruct (app.SelectedItem (app.list_ m)) as [item|]; [|exact Hsame].
    destruct (negb (app.isDir item)); [|exact Hsame]. simpl.
    destruct (toggle_keeps B m item Hm) as [Hm' Hst'].
    split; [assumption |].
    quiet_flight Hq. repeat constructor. }
  destruct (String.eqb key "left" || String.eqb key "h"
            || String.eqb key "backspace"); simpl.
  { unfold app.goParentDirectory.
    destruct (String.eqb _ _); [exact Hsame | apply Hdir]. }
  destruct (String.eqb key "right" || String.eqb key "l"
            || String.eqb key "enter"); simpl.
  { destruct (app.SelectedItem (app.list_ m)) as [item|]; [|exact Hsame].
    destruct (app.isDir item); [apply Hdir | exact Hsame]. }
  leaf Hst Hq.
Qed.

Lemma saveConfig_keeps B m A w :
  model_ok B m -> flight_ok m A -> app.state m = app.stateConfig ->
  let r := app.saveConfig m w in
  model_ok B (fst (fst r))
  /\ flight_ok (fst (fst r)) (A ++ atoms (snd (fst r))).
Proof.
  intros Hm Hf Hst. cbv zeta.
  assert (Hq : forall m', Forall (atom_ok m') A
                          /\ countIf isJob A = 0 /\ countIf isExport A = 0).
  { intros m'. apply (flight_quiet m); auto; congruence. }
  assert (Hlen : length (app.textInputs m) = 2%nat) by apply Hm.
  unfold app.saveConfig.
  destruct (app.textInputs m) as [|in0 [|in1 rest]]; try discriminate. simpl.
  destruct (String.eqb (strings.TrimSpace (app.Value in0)) "") eqn:Hapi; simpl.
  { unfold ret. simpl. leaf Hst Hq. }
  destruct (String.eqb (strings.TrimSpace (app.Value in1)) "") eqn:Hgroup; simpl.
  { unfold ret. simpl. leaf Hst Hq. }
  unfold config.Save, bind, perform, ret.
  destruct (config.toml_Marshal _) as [data|e]; simpl.
  2: { leaf Hst Hq. }
  destruct (os_fault (clock w) _) as [e|]; simpl.
  { leaf Hst Hq. }
  split.
  - model_fields. unfold config.IsComplete. simpl. rewrite Hapi, Hgroup. simpl.
    rewrite Hst in *. intuition (try congruence; try lia).
  - quiet_flight Hq. repeat constructor.
Qed.

Lemma updateConfig_keeps B m A key w :
  model_ok B m -> flight_ok m A -> app.state m = app.stateConfig ->
  let r := app.updateConfig m key w in
  model_ok B (fst (fst r))
  /\ flight_ok (fst (fst r)) (A ++ atoms (snd (fst r))).
Proof.
  intros Hm Hf Hst. cbv zeta.
  assert (Hq : forall m', Forall (atom_ok m') A
                          /\ countIf isJob A = 0 /\ countIf isExport A = 0).
  { intros m'. apply (flight_quiet m); auto; congruence. }
  unfold app.updateConfig, ret.
  destruct (String.eqb key "ctrl+c"); simpl.
  { leaf Hst Hq. }
  destruct (String.eqb key "esc"); simpl.
  { destruct (config.IsComplete (app.cfg m)) eqn:Hcomp; simpl; leaf Hst Hq. }
  destruct (String.eqb key "tab" || String.eqb key "shift+tab"
            || String.eqb key "enter" || String.eqb key "up"
            || String.eqb key "down"); simpl.
  2: { split.
       - model_fields. rewrite length_map. rewrite Hst in *.
         intuition (try congruence; try lia).
       - quiet_flight Hq. repeat constructor. }
  destruct (String.eqb key "enter"
            && (app.activeInput m =? int_sub (len (app.textInputs m)) 1)).
  { now apply saveConfig_keeps. }
  unfold app.refocusInputs.
  repeat match goal with
         | |- context [if ?b then _ else _] => destruct b
         end; simpl;
    (split;
     [ model_fields; rewrite length_imap; rewrite Hst in *;
       intuition (try congruence; try lia)
     | quiet_flight Hq; repeat constructor ]).
Qed.

Lemma updateSummaryKeys_keeps B m A key :
  model_ok B m -> flight_ok m A -> app.state m = app.stateSummary ->
  model_ok B (fst (app.updateSummaryKeys m key))
  /\ flight_ok (fst (app.updateSummaryKeys m key))
       (A ++ atoms (snd (app.updateSummaryKeys m key))).
Proof.
  intros Hm Hf Hst.
  assert (Hq : forall m', Forall (atom_ok m') A
                          /\ countIf isJob A = 0 /\ countIf isExport A = 0).
  { intros m'. apply (flight_quiet m); auto; congruence. }
  unfold app.updateSummaryKeys.
  destruct (String.eqb key "ctrl+c"); simpl.
  { leaf Hst Hq. }
  destruct (String.eqb key "q"); simpl.
  2: { leaf Hst Hq. }
  destruct (app.pendingReload m); simpl; leaf Hst Hq.
Qed.

(** A message that leaves the model as it is, with a command that is
    neither a job nor an export. *)
Lemma unchanged_keeps B m A c :
  model_ok B m -> flight_ok m A ->
  c = app.Nil \/ c = app.Quit \/ c = app.SpinnerTick ->
  model_ok B m /\ flight_ok m (A ++ atoms c).
Proof.
  intros Hm Hf Hc. split; [assumption |].
  apply flight_plain; auto;
    destruct Hc as [-> | [-> | ->]]; repeat constructor.
Qed.

Lemma handleKeyMsg_keeps B m A key w :
  model_ok B m -> flight_ok m A ->
  let r := app.handleKeyMsg m key w in
  model_ok (B + 1) (fst (fst r))
  /\ flight_ok (fst (fst r)) (A ++ atoms (snd (fst r))).
Proof.
  intros Hm Hf. cbv zeta. unfold app.handleKeyMsg.
  assert (Hup : forall m', model_ok B m' -> model_ok (B + 1) m').
  { intros m'. apply model_ok_mono. lia. }
  destruct (app.state m) eqn:Hst.
  - destruct (updateConfig_keeps B m A key w Hm Hf Hst); auto.
  - now apply updateBrowserKeys_keeps.
  - unfold ret. simpl. destruct (updateConfirm_keeps B m A key Hm Hf Hst); auto.
  - unfold ret, app.updateCloningKeys. simpl.
    destruct (String.eqb key "ctrl+c"); simpl;
      (split; [auto | apply flight_plain; auto; repeat constructor]).
  - unfold ret. simpl. destruct (updateSummaryKeys_keeps B m A key Hm Hf Hst); auto.
  - unfold ret. simpl.
    split; [auto | apply flight_plain; auto; repeat constructor].
Qed.

Ltac same_core Hm Hf :=
  split;
  [ model_fields; intuition (try congruence; try lia)
  | apply flight_plain; [|repeat constructor|reflexivity|reflexivity];
    now apply (flight_same _ _ _ Hf) ].

Lemma Update_plain_keeps B m A msg w :
  spinner_ticks ->
  model_ok B m -> flight_ok m A -> plainMsg msg = true ->
  let r := app.Update m msg w in
  model_ok (B + 1) (fst (fst r))
  /\ flight_ok (fst (fst r)) (A ++ atoms (snd (fst r))).
Proof.
  intros Hspin Hm Hf Hplain. cbv zeta.
  assert (Hup : forall m', model_ok B m' -> model_ok (B + 1) m').
  { intros m'. apply model_ok_mono. lia. }
  destruct msg as [dir its|err|wd ht|key|step|s f|file err|tag];
    try discriminate; unfold app.Update, ret.
  - simpl. unfold app.updateDir.
    destruct (0 <? len its); apply Hup in Hm; same_core Hm Hf.
  - simpl. unfold app.updateError. apply Hup in Hm. same_core Hm Hf.
  - simpl. unfold app.handleResize. simpl.
    destruct (bool_decide (app.state m = app.stateBrowser)); simpl;
      destruct (bool_decide (app.state m = app.stateCloning)
                || bool_decide (app.state m = app.stateSummary)); simpl;
      apply Hup in Hm; same_core Hm Hf.
  - now apply handleKeyMsg_keeps.
  - destruct (bool_decide (app.state m = app.stateBrowser)); simpl.
    { apply Hup in Hm. same_core Hm Hf. }
    destruct (bool_decide (app.state m = app.stateConfig)
              && (0 <? len (app.textInputs m))); simpl.
    { apply Hup in Hm. split.
      - model_fields. rewrite length_map. intuition (try congruence; try lia).
      - apply flight_plain; [|repeat constructor|reflexivity|reflexivity].
        now apply (flight_same _ _ _ Hf). }
    destruct (bool_decide (app.state m = app.stateCloning)
              || bool_decide (app.state m = app.stateExporting)); simpl.
    + destruct (unchanged_keeps (B + 1) m A (app.spinner_Update (app.libMsg tag)));
        auto.
      destruct (Hspin (app.libMsg tag)) as [-> | ->]; auto.
    + destruct (unchanged_keeps (B + 1) m A app.Nil); auto.
Qed.

Lemma countIf_zero f A : countIf f A = 0 -> Forall (fun a => f a = false) A.
Proof.
  induction A as [|a A IH]; [constructor |].
  rewrite countIf_cons. pose proof (countIf_nonneg f A).
  destruct (f a) eqn:Hfa; intros H0; [lia |].
  constructor; [assumption | apply IH; lia].
Qed.

(** Commands that are neither jobs nor exports do not depend on the
    model. *)
Lemma plain_atoms m m' A :
  countIf isJob A = 0 -> countIf isExport A = 0 ->
  Forall (atom_ok m) A -> Forall (atom_ok m') A.
Proof.
  intros Hj He Hall.
  apply countIf_zero in Hj. apply countIf_zero in He.
  rewrite Forall_forall in *. intros a Ha.
  specialize (Hj a Ha). specialize (He a Ha). specialize (Hall a Ha).
  destruct a; simpl in *; auto; discriminate.
Qed.

Lemma int_add_small x y : - 2 ^ 63 <= x + y < 2 ^ 63 -> int_add x y = x + y.
Proof. intros H. unfold int_add. now apply wrap64_small. Qed.

(** What the flight says when a job is taken out of it. *)
Lemma flight_take m A1 c A2 :
  flight_ok m (A1 ++ c :: A2) ->
  atom_ok m c
  /\ Forall (atom_ok m) (A1 ++ A2)
  /\ countIf isJob (A1 ++ A2) + (if isJob c then 1 else 0)
     = (if bool_decide (app.state m = app.stateCloning) then 1 else 0)
  /\ countIf isExport (A1 ++ A2) + (if isExport c then 1 else 0)
     = (if bool_decide (app.state m = app.stateExporting) then 1 else 0).
Proof.
  intros (Hall & Hj & He).
  rewrite countIf_app, countIf_cons in Hj, He.
  rewrite Forall_app, Forall_cons in Hall. destruct Hall as (H1 & Hc & H2).
  rewrite !countIf_app. repeat split; auto; try lia.
  now apply Forall_app.
Qed.

Lemma handleCloneStep_keeps B m A1 A2 cl file step rec :
  B < 2 ^ 63 ->
  model_ok B m -> flight_ok m (A1 ++ app.CloneFile cl file :: A2) ->
  app.Record_ step = Some rec -> exporter.FilePath rec = file ->
  let r := app.handleCloneStep m step in
  model_ok B (fst r) /\ flight_ok (fst r) ((A1 ++ A2) ++ atoms (snd r)).
Proof.
  intros HB Hm Hf Hrec Hpath. cbv zeta.
  apply flight_take in Hf. destruct Hf as (Hjob & Hall & Hj & He).
  simpl in Hjob, Hj, He. destruct Hjob as (Hst & -> & Hcl & Hlook & Hidx).
  rewrite Hst in Hj, He. simpl in Hj, He.
  assert (Hj0 : countIf isJob (A1 ++ A2) = 0)
    by (pose proof (countIf_nonneg isJob (A1 ++ A2)); lia).
  assert (He0 : countIf isExport (A1 ++ A2) = 0)
    by (pose proof (countIf_nonneg isExport (A1 ++ A2)); lia).
  clear Hj He.
  assert (Hrest : forall m', Forall (atom_ok m') (A1 ++ A2)).
  { intros m'. now apply (plain_atoms m). }
  apply lookup_lt_Some in Hlook as Hlt.
  assert (Hbooks : app.cloneSuccess m + app.cloneFailed m = len (app.results m)
                   /\ map exporter.FilePath (app.results m)
                      = take (length (app.results m)) (app.cloneQueue m)).
  { destruct Hm as (_ & _ & _ & _ & _ & _ & _ & _ & _ & Hb).
    unfold books_ok in Hb. now rewrite Hst in Hb. }
  destruct Hbooks as (Hsum & Hpre).
  assert (Hbounds : len (app.cloneQueue m) <= B /\ 0 <= app.cloneSuccess m
                    /\ 0 <= app.cloneFailed m) by (unfold model_ok in Hm; tauto).
  assert (Hpre' : map exporter.FilePath (app.results m ++ [rec])
                  = take (length (app.results m ++ [rec])) (app.cloneQueue m)).
  { rewrite map_app, length_app. simpl. rewrite Nat.add_1_r.
    erewrite take_S_r by exact Hlook. rewrite Hpre, Hpath. reflexivity. }
  unfold app.handleCloneStep. rewrite Hrec.
  assert (Hs1 : int_add (app.cloneSuccess m) 1 = app.cloneSuccess m + 1).
  { apply int_add_small. unfold len in *. lia. }
  assert (Hf1 : int_add (app.cloneFailed m) 1 = app.cloneFailed m + 1).
  { apply int_add_small. unfold len in *. lia. }
  assert (Hi1 : app.cloneIndex m < len (app.cloneQueue m) ->
                int_add (app.cloneIndex m) 1 = app.cloneIndex m + 1).
  { intros Hmore. apply int_add_small. unfold len in *. lia. }
  unfold app.nextCloneCmd.
  destruct (app.Err_ step) as [e|]; simpl;
    rewrite ?Hs1, ?Hf1;
    (destruct (len (app.cloneQueue m) <=? app.cloneIndex m) eqn:Hdone; simpl;
     [ | assert (Hneg : (app.cloneIndex m <? 0) = false) by (unfold len in *; lia);
         rewrite Hneg;
         rewrite Hi1 by (unfold len in *; lia);
         destruct (app.cloneQueue m !! Z.to_nat (app.cloneIndex m))
           as [next|] eqn:Hnext; simpl;
         [ | apply lookup_ge_None in Hnext; unfold len in *; lia ] ]).
  all: split;
    [ model_fields; rewrite ?Hst in *; rewrite ?length_app in *; simpl in *;
      intuition (try congruence; try lia)
    | apply flight_intro;
      [ apply Hrest
      | repeat constructor; simpl; auto;
        rewrite ?length_app; simpl; unfold len in *; rewrite ?length_app;
        simpl; try lia;
        match goal with
        | Hnext : _ !! _ = Some ?next |- _ !! _ = Some ?next =>
            rewrite <- Hnext; f_equal; lia
        end
      | count_tac
      | count_tac ] ].
Qed.

Lemma handleCloneFinished_keeps B m A1 A2 s f w :
  model_ok B m -> flight_ok m (A1 ++ app.CloneFinished s f :: A2) ->
  let r := app.handleCloneFinished m s f w in
  model_ok B (fst (fst r))
  /\ flight_ok (fst (fst r)) ((A1 ++ A2) ++ atoms (snd (fst r))).
Proof.
  intros Hm Hf. cbv zeta.
  apply flight_take in Hf. destruct Hf as (Hjob & Hall & Hj & He).
  simpl in Hjob, Hj, He. destruct Hjob as (Hst & -> & -> & Hidx & Hlen).
  rewrite Hst in Hj, He. simpl in Hj, He.
  assert (Hj0 : countIf isJob (A1 ++ A2) = 0)
    by (pose proof (countIf_nonneg isJob (A1 ++ A2)); lia).
  assert (He0 : countIf isExport (A1 ++ A2) = 0)
    by (pose proof (countIf_nonneg isExport (A1 ++ A2)); lia).
  clear Hj He.
  assert (Hrest : forall m', Forall (atom_ok m') (A1 ++ A2)).
  { intros m'. now apply (plain_atoms m). }
  assert (Hbooks : app.cloneSuccess m + app.cloneFailed m = len (app.results m)
                   /\ map exporter.FilePath (app.results m) = app.cloneQueue m).
  { destruct Hm as (_ & _ & _ & _ & _ & _ & _ & _ & _ & Hb).
    unfold books_ok in Hb. rewrite Hst in Hb. destruct Hb as [Hsum Hpre].
    split; [assumption |]. rewrite Hpre. apply take_ge. unfold len in *. lia. }
  pose proof (sel_wf_after_run m (app.cloneSuccess m) (app.cloneFailed m) w) as Hwf.
  revert Hwf. unfold app.handleCloneFinished, bind, Now, ask, ret.
  destruct (exporter.ToCSV _ _ w) as [[csvPath|exportErr] w1]; simpl; intros Hwf;
    (split;
     [ model_fields; rewrite ?Hst in *; intuition (try congruence; try lia)
     | apply flight_intro; [apply Hrest | repeat constructor | count_tac | count_tac] ]).
Qed.

Lemma handleExportResult_keeps B m A1 A2 records dir file err :
  model_ok B m -> flight_ok m (A1 ++ app.Export records dir :: A2) ->
  let r := app.handleExportResult m file err in
  model_ok B (fst r) /\ flight_ok (fst r) ((A1 ++ A2) ++ atoms (snd r)).
Proof.
  intros Hm Hf. cbv zeta.
  apply flight_take in Hf. destruct Hf as (Hjob & Hall & Hj & He).
  simpl in Hjob, Hj, He. destruct Hjob as (Hst & -> & ->).
  rewrite Hst in Hj, He. simpl in Hj, He.
  assert (Hj0 : countIf isJob (A1 ++ A2) = 0)
    by (pose proof (countIf_nonneg isJob (A1 ++ A2)); lia).
  assert (He0 : countIf isExport (A1 ++ A2) = 0)
    by (pose proof (countIf_nonneg isExport (A1 ++ A2)); lia).
  clear Hj He.
  assert (Hrest : forall m', Forall (atom_ok m') (A1 ++ A2)).
  { intros m'. now apply (plain_atoms m). }
  unfold app.handleExportResult.
  destruct err as [e|]; simpl;
    (split;
     [ model_fields; rewrite ?Hst in *; intuition (try congruence; try lia)
     | apply flight_intro; [apply Hrest | repeat constructor | count_tac | count_tac] ]).
Qed.

Lemma runLoadDirectory_plain dir w :
  plainMsg (fst (app.runLoadDirectory dir w)) = true.
Proof.
  unfold app.runLoadDirectory, app.ensureDirReadable, app.listDirectory,
    bind, ask, ret.
  destruct (os_Stat (clock w) dir) as [[|]|e]; simpl; try reflexivity.
  destruct (os_ReadDir _ dir) as [entries|e]; reflexivity.
Qed.

Lemma inFlight_one c : inFlight [c] = atoms c.
Proof. unfold inFlight. simpl. apply app_nil_r. Qed.

Lemma inFlight_middle flying i c :
  flying !! i = Some c ->
  inFlight flying
  = inFlight (take i flying) ++ atoms c ++ inFlight (drop (S i) flying)
  /\ inFlight (delete i flying)
     = inFlight (take i flying) ++ inFlight (drop (S i) flying).
Proof.
  intros Hc. split.
  - rewrite <- (take_drop_middle flying i c Hc) at 1.
    rewrite inFlight_app. reflexivity.
  - rewrite delete_take_drop. apply inFlight_app.
Qed.

(** A command that is neither a job nor an export leaves the flight. *)
Lemma flight_leave m A1 C A2 :
  flight_ok m (A1 ++ C ++ A2) -> flight_ok m ((A1 ++ A2) ++ C).
Proof.
  intros (Hall & Hj & He). unfold flight_ok.
  rewrite !countIf_app in *. rewrite !Forall_app in *.
  repeat split; try tauto; lia.
Qed.

Lemma flight_drop m A1 c A2 :
  flight_ok m (A1 ++ c :: A2) -> isJob c = false -> isExport c = false ->
  flight_ok m (A1 ++ A2).
Proof.
  intros Hf Hj He. apply flight_take in Hf.
  rewrite Hj, He in Hf. destruct Hf as (_ & Hall & Hj' & He').
  unfold flight_ok. repeat split; auto; lia.
Qed.

Lemma step_keeps B m flying ev w :
  spinner_ticks -> B < 2 ^ 63 ->
  session_ok B m flying ->
  let r := app.step m flying ev w in
  fst (fst (fst r)) <> app.Crashed
  /\ session_ok (B + 1) (snd (fst (fst r))) (snd (fst r)).
Proof.
  intros Hspin HB [Hm Hf]. cbv zeta.
  assert (Hup : forall m', model_ok B m' -> model_ok (B + 1) m').
  { intros m'. apply model_ok_mono. lia. }
  assert (Hplain : forall A msg w0,
             flight_ok m A -> plainMsg msg = true ->
             forall others, inFlight others = A ->
             fst (fst (fst (app.deliver m others msg w0))) <> app.Crashed
             /\ session_ok (B + 1) (snd (fst (fst (app.deliver m others msg w0))))
                  (snd (fst (app.deliver m others msg w0)))).
  { intros A msg w0 HA Hmsg others <-.
    pose proof (Update_plain_keeps B m _ msg w0 Hspin Hm HA Hmsg) as Hk.
    cbv zeta in Hk. unfold app.deliver, bind, ret.
    destruct (app.Update m msg w0) as [[m' c] w']. simpl in *.
    split; [discriminate |]. unfold session_ok.
    now rewrite inFlight_app, inFlight_one. }
  destruct ev as [key|wd ht|tag|i]; unfold app.step.
  - now apply (Hplain (inFlight flying)).
  - now apply (Hplain (inFlight flying)).
  - now apply (Hplain (inFlight flying)).
  - destruct (flying !! i) as [c|] eqn:Hc.
    2: { simpl. split; [discriminate |]. split; auto. }
    destruct (inFlight_middle flying i c Hc) as [Hall Hothers].
    set (A1 := inFlight (take i flying)) in *.
    set (A2 := inFlight (drop (S i) flying)) in *.
    rewrite Hall in Hf. cbv zeta.
    destruct c as [| |reason|cs| |dir|client file|s f|records dir];
      cbv beta iota.
    + simpl. split; [discriminate |]. split; [auto |]. rewrite Hothers.
      now apply (flight_drop m A1 app.Nil A2).
    + simpl. split; [discriminate |]. split; [auto |]. rewrite Hothers.
      now apply (flight_drop m A1 app.Quit A2).
    + apply flight_take in Hf. simpl in Hf. tauto.
    + simpl. split; [discriminate |]. split; [auto |].
      rewrite inFlight_app, Hothers. apply flight_leave.
      now rewrite atoms_Batch in Hf.
    + simpl. split; [discriminate |]. split; [auto |]. rewrite Hothers.
      now apply (flight_drop m A1 app.SpinnerTick A2).
    + unfold bind.
      pose proof (runLoadDirectory_plain dir w) as Hmsg.
      destruct (app.runLoadDirectory dir w) as [msg w1]. simpl in Hmsg.
      apply (Hplain (A1 ++ A2)); auto.
      now apply (flight_drop m A1 (app.LoadDirectory dir) A2).
    + unfold bind.
      pose proof (runCloneFile_spec client file w) as Hspec.
      destruct (flight_take _ _ _ _ Hf) as ((_ & _ & Hcl & _) & _).
      destruct (app.runCloneFile client file w) as [[msg|] w1]; simpl in Hspec;
        [|contradiction].
      destruct msg as [| | | |step| | |]; try contradiction.
      destruct Hspec as (_ & rec & Hrec & Hfile & _).
      pose proof (handleCloneStep_keeps B m A1 A2 client file step rec
                    HB Hm Hf Hrec Hfile) as Hk.
      cbv zeta in Hk. unfold app.deliver, bind, ret, app.Update.
      destruct (app.handleCloneStep m step) as [m' c]. simpl in *.
      split; [discriminate |]. split; [apply Hup; tauto |].
      rewrite inFlight_app, inFlight_one, Hothers. tauto.
    + pose proof (handleCloneFinished_keeps B m A1 A2 s f w Hm Hf) as Hk.
      cbv zeta in Hk. unfold app.deliver, bind, ret, app.Update.
      destruct (app.handleCloneFinished m s f w) as [[m' c] w1]. simpl in *.
      split; [discriminate |]. split; [apply Hup; tauto |].
      rewrite inFlight_app, inFlight_one, Hothers. tauto.
    + unfold app.runExport, bind, ret.
      destruct (exporter.ToCSV records dir w) as [[file|err] w1];
        unfold app.deliver, bind, ret, app.Update;
        match goal with
        | |- context [app.handleExportResult m ?a ?b] =>
            pose proof (handleExportResult_keeps B m A1 A2 records dir a b Hm Hf)
              as Hk;
            cbv zeta in Hk;
            destruct (app.handleExportResult m a b) as [m' c]
        end; simpl in *;
        (split; [discriminate |]); (split; [apply Hup; tauto |]);
        rewrite inFlight_app, inFlight_one, Hothers; tauto.
Qed.

Lemma session_keeps (evs : list app.Event) :
  forall B m flying w,
    spinner_ticks -> B + len evs <= 2 ^ 63 ->
    session_ok B m flying ->
    let r := app.session m flying evs w in
    fst (fst (fst r)) <> app.Crashed
    /\ session_ok (B + len evs) (snd (fst (fst r))) (snd (fst r)).
Proof.
  induction evs as [|ev evs IH]; intros B m flying w Hspin HB Hok; cbv zeta.
  - simpl. split; [discriminate |]. unfold len. simpl.
    now rewrite Z.add_0_r.
  - assert (Hlen : len (ev :: evs) = 1 + len evs) by (unfold len; simpl; lia).
    rewrite Hlen in *. pose proof (Zle_0_nat (length evs)). unfold len in *.
    pose proof (step_keeps B m flying ev w Hspin ltac:(lia) Hok) as Hstep.
    cbv zeta in Hstep. simpl. unfold bind.
    destruct (app.step m flying ev w) as [[[st m'] flying'] w1].
    simpl in Hstep. destruct Hstep as [Hst Hok'].
    destruct st; simpl; try (split; [discriminate |]);
      try (destruct Hok' as [Hm' Hf']; split;
           [apply (model_ok_mono (B + 1)); [lia | assumption] | assumption]);
      try contradiction.
    specialize (IH (B + 1) m' flying' w1 Hspin ltac:(unfold len; lia) Hok').
    cbv zeta in IH. unfold len in IH.
    now replace (B + (1 + Z.of_nat (length evs)))
      with (B + 1 + Z.of_nat (length evs)) by lia.
Qed.

Lemma start_ok cfg0 paths0 root w :
  let m0 := fst (app.newModel cfg0 paths0 root w) in
  session_ok 0 m0 [app.Init m0].
Proof.
  cbv zeta. pose proof (sel_wf_newModel cfg0 paths0 root w) as Hwf. revert Hwf.
  unfold app.newModel, bind, ask, ret. simpl.
  destruct (config.IsComplete cfg0) eqn:Hcomp; simpl; intros Hwf.
  - split.
    + model_fields. rewrite Hcomp. intuition (try congruence; try lia).
    + rewrite inFlight_one. repeat split; repeat constructor.
  - split.
    + model_fields. rewrite Hcomp. intuition (try congruence; try lia).
    + rewrite inFlight_one. repeat split; repeat constructor.
Qed.


(** X11: at every moment of a session the Selection Set is well
    formed (the order holds each marked path once and nothing else), the
    client is the one the stored credentials give, none when they are
    incomplete, and outside the Config screen the credentials are
    complete, so that a client is there. *)
Theorem session_keeps_selection_and_client
    (cfg0 : config.Config) (paths0 : system.Paths) (root : string)
    (w0 w : World) (evs : list app.Event) :
  spinner_ticks ->
  len evs < 2 ^ 63 ->
  let m0 := fst (app.newModel cfg0 paths0 root w0) in
  let m := snd (fst (fst (app.session m0 [app.Init m0] evs w))) in
  sel_wf m
  /\ client_matches m
  /\ (app.state m <> app.stateConfig ->
      config.IsComplete (app.cfg m) = true
      /\ app.minimax m
         = Some (minimax.mkClient (config.MinimaxSecret (app.cfg m))
                   (config.MinimaxGroup (app.cfg m))))
  /\ length (app.textInputs m) = 2%nat.
Proof.
  intros Hspin Hlen. cbv zeta.
  destruct (session_keeps evs 0 _ _ w Hspin ltac:(lia)
              (start_ok cfg0 paths0 root w0)) as [_ [Hm _]].
  cbv zeta in Hm. destruct Hm as (Hwf & Hin & Hcl & Hcomp & _).
  split; [exact Hwf |]. split; [exact Hcl |]. split; [| exact Hin].
  intros Hst. split; [now apply Hcomp |].
  rewrite Hcl. now rewrite (Hcomp Hst).
Qed.

(** X12: the books of the pipeline hold at every moment of a
    session, in whatever order the terminal speaks and the commands
    return.  While a run is on exactly one of its commands is in flight,
    the job of the next file of the queue or the completion signal with
    the final counters, and none at any other moment; one export is in
    flight on the export screen and none otherwise; during a run and on
    its summary the two counters add up to the number of results, and
    the results are those of the first files of the queue, in order. *)
Theorem session_keeps_the_books
    (cfg0 : config.Config) (paths0 : system.Paths) (root : string)
    (w0 w : World) (evs : list app.Event) :
  spinner_ticks ->
  len evs < 2 ^ 63 ->
  let m0 := fst (app.newModel cfg0 paths0 root w0) in
  let m := snd (fst (fst (app.session m0 [app.Init m0] evs w))) in
  let flying := inFlight (snd (fst (app.session m0 [app.Init m0] evs w))) in
  books_ok m
  /\ 0 <= app.cloneIndex m <= len (app.cloneQueue m)
  /\ 0 <= app.cloneSuccess m /\ 0 <= app.cloneFailed m
  /\ countIf isJob flying
     = (if bool_decide (app.state m = app.stateCloning) then 1 else 0)
  /\ countIf isExport flying
     = (if bool_decide (app.state m = app.stateExporting) then 1 else 0)
  /\ Forall (atom_ok m) flying.
Proof.
  intros Hspin Hlen. cbv zeta.
  destruct (session_keeps evs 0 _ _ w Hspin ltac:(lia)
              (start_ok cfg0 paths0 root w0)) as [_ [Hm Hf]].
  cbv zeta in Hm, Hf. unfold model_ok in Hm. unfold flight_ok in Hf.
  tauto.
Qed.

End Sessions.
Import sample.

(** ** The theorems at work in the sample world *)



Lemma C3_witness :
  no_faults_from world0
  /\ "/home/u/Downloads" <> ""
  /\ (forall t, time_Format t exporter.RFC3339 <> "")
  /\ exists fullPath w',
       exporter.ToCSV [record1; record2] "/home/u/Downloads" world0
       = (Ok fullPath, w')
       /\ fsview.csv_files (fsview.files_of w') !! fullPath
          = Some (exporter.header :: map exporter.row_of [record1; record2])
       /\ length (exporter.header :: map exporter.row_of [record1; record2]) = 3%nat.
Proof.
  assert (Hnf : no_faults_from world0) by (intros t e _; reflexivity).
  assert (Hdir : "/home/u/Downloads" <> "") by discriminate.
  assert (Hfmt : forall t, time_Format t exporter.RFC3339 <> "")
    by (intros t; apply sample_Format_nonempty).
  repeat split; auto.
  destruct (C3_export_has_header_and_one_row_per_record [record1; record2]
              "/home/u/Downloads" world0 Hnf Hdir Hfmt) as [Hmain _].
  apply Hmain. discriminate.
Defined.

Lemma C4_witness :
  sort_Slice_sorts
  /\ os_ReadDir (clock world0) "/music"
     = Ok [mkDirEntry "A.txt" false; mkDirEntry "a.mp3" false;
           mkDirEntry "b.wav" false; mkDirEntry "bad.mp3" false;
           mkDirEntry "live" true]
  /\ exists sorted,
       fst (app.listDirectory "/music" world0)
       = Ok (parentItem "/music" ++ map (entryItem "/music") sorted)
       /\ map Name sorted = ["live"; "a.mp3"; "A.txt"; "b.wav"; "bad.mp3"].
Proof.
  split; [exact insertionSort_sorts |]. split; [reflexivity |].
  destruct (C4_listing_is_parent_then_sorted_entries "/music" world0 _
              insertionSort_sorts eq_refl) as (sorted & Hrun & _).
  exists sorted. split; [exact Hrun |].
  assert (Hcalc : fst (app.listDirectory "/music" world0)
                  = Ok (parentItem "/music"
                        ++ map (entryItem "/music")
                             [mkDirEntry "live" true; mkDirEntry "a.mp3" false;
                              mkDirEntry "A.txt" false; mkDirEntry "b.wav" false;
                              mkDirEntry "bad.mp3" false]))
    by (vm_compute; reflexivity).
  rewrite Hrun in Hcalc. injection Hcalc as Hcalc.
  apply (f_equal (map app.name)) in Hcalc.
  rewrite map_map in Hcalc. exact Hcalc.
Defined.

Lemma C5_witness :
  sel_wf two_selected
  /\ app.selected (toggles (2 * 2) item_a two_selected) = app.selected two_selected
  /\ app.selectedOrder (toggles (2 * 2) item_a two_selected)
     = ["/music/b.wav"; "/music/a.mp3"].
Proof.
  assert (Hwf : sel_wf two_selected).
  { unfold two_selected. do 2 apply toggle_wf.
    apply sel_wf_empty; vm_compute; reflexivity. }
  destruct (C5_even_toggles_restore_membership two_selected item_a 2 Hwf)
    as (Hs & _ & Ho & _).
  split; [exact Hwf |]. split; [exact Hs |].
  rewrite Ho. vm_compute. reflexivity.
Defined.

Lemma C6_witness :
  config.IsComplete (config.mkConfig "" "") = false
  /\ app.state firstRun = app.stateConfig
  /\ app.Update firstRun (app.KeyMsg "esc") world0 = (firstRun, app.Quit, world0).
Proof.
  assert (Hinc : config.IsComplete (config.mkConfig "" "") = false) by reflexivity.
  destruct (C6_cancel_with_incomplete_credentials_quits (config.mkConfig "" "")
              paths0 "/music" world0 Hinc) as [Hstart Hesc].
  split; [exact Hinc |]. split; [exact Hstart |].
  apply (Hesc firstRun world0 0%nat); [exact Hstart | reflexivity].
Defined.

Lemma C7_witness :
  app.state on_directory = app.stateBrowser
  /\ app.SelectedItem (app.list_ on_directory)
     = Some (app.mkFileItem "live" "/music/live" true false)
  /\ app.Update on_directory (app.KeyMsg " ") world0
     = (on_directory, app.Nil, world0).
Proof.
  assert (Hst : app.state on_directory = app.stateBrowser) by (vm_compute; reflexivity).
  assert (Hsel : app.SelectedItem (app.list_ on_directory)
                 = Some (app.mkFileItem "live" "/music/live" true false))
    by (vm_compute; reflexivity).
  destruct (C7_rejected_input_only_sets_the_message on_directory world0 Hst)
    as [Hdir _].
  split; [exact Hst |]. split; [exact Hsel |].
  apply (Hdir " " _ (or_introl eq_refl) Hsel eq_refl).
Defined.

Lemma C8_witness :
  filepath_Abs 0 "/music/a.mp3" = Ok "/music/a.mp3"
  /\ filepath_Abs 9 "/music/copy/renamed.m4a" = Ok "/music/copy/renamed.m4a"
  /\ os_Open 1 "/music/a.mp3" = os_Open 10 "/music/copy/renamed.m4a"
  /\ fst (minimax.GenerateVoiceID "/music/copy/renamed.m4a" (mkWorld 9 []))
     = fst (minimax.GenerateVoiceID "/music/a.mp3" world0).
Proof.
  split; [reflexivity |]. split; [reflexivity |]. split; [reflexivity |].
  apply (C8_voice_id_from_content_only "/music/a.mp3" "/music/copy/renamed.m4a"
           "/music/a.mp3" "/music/copy/renamed.m4a" world0 (mkWorld 9 [])
           (bytes_of_string "voice-sample-912"));
    reflexivity.
Defined.


Lemma C10_witness :
  (forall t path, missing_or_blank (os_ReadFile t path))
  /\ fst (config.Load "/home/u/.minimax/config.toml" world0)
     = (config.mkConfig "" "", None)
  /\ exists m, fst (main.startup world0) = Ok m /\ app.state m = app.stateConfig.
Proof.
  assert (Hblank : forall t path, missing_or_blank (os_ReadFile t path)).
  { intros t path. simpl. unfold ReadFile.
    destruct (String.eqb path "/home/u/.minimax/config.toml");
      [vm_compute|]; reflexivity. }
  destruct (C10_missing_or_blank_config_starts_in_Config world0 Hblank)
    as [Hload Hstart].
  repeat split; auto.
  destruct (fst (main.startup world0)) as [m|e] eqn:Hrun.
  - exists m. split; [reflexivity | apply Hstart].
  - vm_compute in Hrun. discriminate.
Defined.

(** ** Where the wording of the specification fails *)

(** C5 as stated: two toggles of a selected path that is not the last
    one do not give back the order. *)
Lemma C5_counterexample :
  sel_wf two_selected
  /\ app.selectedOrder two_selected = ["/music/a.mp3"; "/music/b.wav"]
  /\ app.selectedOrder (toggles 2 item_a two_selected)
     = ["/music/b.wav"; "/music/a.mp3"]
  /\ ~ (app.selected (toggles 2 item_a two_selected) = app.selected two_selected
        /\ app.selectedOrder (toggles 2 item_a two_selected)
           = app.selectedOrder two_selected).
Proof.
  assert (H1 : app.selectedOrder two_selected = ["/music/a.mp3"; "/music/b.wav"])
    by (vm_compute; reflexivity).
  assert (H2 : app.selectedOrder (toggles 2 item_a two_selected)
               = ["/music/b.wav"; "/music/a.mp3"])
    by (vm_compute; reflexivity).
  split; [|split; [exact H1 | split; [exact H2 |]]].
  - unfold two_selected. do 2 apply toggle_wf.
    apply sel_wf_empty; vm_compute; reflexivity.
  - intros [_ Ho]. rewrite H1, H2 in Ho. discriminate.
Qed.

(** C6 as stated: the cancel key with incomplete credentials does not
    keep the Config screen, it ends the session. *)
Lemma C6_counterexample :
  config.IsComplete (app.cfg firstRun) = false
  /\ app.state firstRun = app.stateConfig
  /\ app.lifecycle (fst (app.dispatch 3 firstRun (app.KeyMsg "esc") world0))
     = app.Ended
  /\ ~ (app.lifecycle (fst (app.dispatch 3 firstRun (app.KeyMsg "esc") world0))
        = app.Showing app.stateConfig).
Proof.
  assert (H : app.lifecycle (fst (app.dispatch 3 firstRun (app.KeyMsg "esc") world0))
              = app.Ended) by (vm_compute; reflexivity).
  split; [vm_compute; reflexivity |]. split; [vm_compute; reflexivity |].
  split; [exact H |]. rewrite H. discriminate.
Qed.

(** C7 as stated: the toggle key on a directory entry surfaces no
    message. *)
Lemma C7_counterexample :
  app.state on_directory = app.stateBrowser
  /\ (exists item, app.SelectedItem (app.list_ on_directory) = Some item
                   /\ app.isDir item = true)
  /\ app.errorMsg on_directory = ""
  /\ ~ (app.errorMsg (send (app.KeyMsg " ") on_directory) <> "").
Proof.
  split; [vm_compute; reflexivity |]. split; [|split].
  - eexists. split; vm_compute; reflexivity.
  - vm_compute. reflexivity.
  - intros H. apply H. vm_compute. reflexivity.
Qed.

(** ** More of the program, in the sample world *)

Lemma saveConfig_witness :
  app.textInputs typed
  = [app.mkTextInput " key " true; app.mkTextInput "group" false]
  /\ app.state (fst (fst (app.saveConfig typed world0))) = app.stateBrowser
  /\ app.cfg (fst (fst (app.saveConfig typed world0)))
     = config.mkConfig "key" "group"
  /\ effects (snd (app.saveConfig typed world0))
     = [(WriteFile "/home/u/.minimax/config.toml" (bytes_of_string "key,group"),
         None)].
Proof.
  assert (Hin : app.textInputs typed
                = [app.mkTextInput " key " true; app.mkTextInput "group" false])
    by reflexivity.
  split; [exact Hin |].
  destruct (saveConfig_applies_only_what_was_written typed world0 _ _ Hin)
    as [(_ & _ & _ & _ & Herr & _) | (data & Hdata & Heff & Hcfg & _ & _ & Hst & _)].
  - exfalso. apply Herr. vm_compute. reflexivity.
  - split; [exact Hst |]. split; [exact Hcfg |].
    rewrite Heff. vm_compute in Hdata. injection Hdata as <-.
    vm_compute. reflexivity.
Defined.


Lemma session_selection_witness :
  @spinner_ticks moving
  /\ len visit < 2 ^ 63
  /\ sel_wf (snd (fst visited))
  /\ app.minimax (snd (fst visited)) = Some client0.
Proof.
  assert (Hspin : @spinner_ticks moving) by (intros msg; right; reflexivity).
  assert (Hlen : len visit < 2 ^ 63) by (vm_compute; reflexivity).
  split; [exact Hspin |]. split; [exact Hlen |].
  destruct (session_keeps_selection_and_client (bubbles := moving)
              (config.mkConfig "key" "group") paths0 "/music" world0 world0
              visit Hspin Hlen) as (Hwf & _ & Hcl & _).
  split; [exact Hwf |].
  destruct Hcl as [_ Hcl]; [vm_compute; discriminate |].
  etransitivity; [exact Hcl |]. vm_compute. reflexivity.
Defined.

Lemma session_books_witness :
  @spinner_ticks moving
  /\ len (take 12 visit) < 2 ^ 63
  /\ app.state (snd (fst midrun)) = app.stateCloning
  /\ books_ok (snd (fst midrun))
  /\ countIf isJob (inFlight (snd midrun)) = 1.
Proof.
  assert (Hspin : @spinner_ticks moving) by (intros msg; right; reflexivity).
  assert (Hlen : len (take 12 visit) < 2 ^ 63) by (vm_compute; reflexivity).
  split; [exact Hspin |]. split; [exact Hlen |].
  split; [vm_compute; reflexivity |].
  destruct (session_keeps_the_books (bubbles := moving)
              (config.mkConfig "key" "group") paths0 "/music" world0 world0
              (take 12 visit) Hspin Hlen) as (Hbooks & _ & _ & _ & Hjobs & _).
  split; [exact Hbooks |].
  etransitivity; [exact Hjobs |]. vm_compute. reflexivity.
Defined.
